(** * nexuschess: the game analysis pipeline

    A shallow embedding of the two TypeScript classes that make up the
    analysis pipeline of the repository:

    - [StockfishEngine] (src/lib/chess/engine.ts), the adapter that talks
      to the evaluator running in a Web Worker, and
    - [GameAnalyzer] (the analyzer whose [analyzeGame] walks a game ply by
      ply, classifies every move of the tracked player and aggregates the
      report).

    Conventions of the embedding.

    - A JavaScript [number] that holds a count or an index is a [nat] or a
      [Z].  A [number] that holds an evaluation is an exact rational [Q]:
      the adapter only produces [parseInt(v) / 100], [100] and [-100], and
      the analyzer only subtracts, scales and compares them.  IEEE rounding
      is not modelled.
    - A JavaScript string is a [string] of 8-bit characters; the regular
      expressions of the adapter are written out as the scanners they
      denote (leftmost match, greedy quantifiers).
    - The adapter is event driven.  Its object state, the Workers it has
      created and the Promises it has handed out form one record, and every
      call or delivered message is one total step on that record. *)

From Stdlib Require Import ZArith QArith Qabs Qminmax Qround Lqa Lia.
From Stdlib Require Import Bool Arith List String Ascii DecimalString.
From Stdlib Require Import Sorted Permutation DecimalPos DecimalZ.
Import ListNotations.

(* ================================================================== *)
(** ** The fragment of the JavaScript string library the adapter uses *)
(* ================================================================== *)

Module JS.

Local Open Scope string_scope.

(** [s.startsWith(p)]. *)
Definition startsWith (s p : string) : bool := String.prefix p s.

(** The rest of [s] after the literal [p], when [s] starts with [p]. *)
Fixpoint after (p s : string) : option string :=
  match p with
  | EmptyString => Some s
  | String a p' =>
      match s with
      | EmptyString => None
      | String b s' => if Ascii.eqb a b then after p' s' else None
      end
  end.

(** The longest prefix of [s] whose characters satisfy [f]. *)
Fixpoint takeWhile (f : ascii -> bool) (s : string) : string :=
  match s with
  | EmptyString => EmptyString
  | String c s' => if f c then String c (takeWhile f s') else EmptyString
  end.

Definition isEmpty (s : string) : bool :=
  match s with EmptyString => true | String _ _ => false end.

(** A regular expression is searched from the left: the first position of
    the subject at which the anchored pattern [p] matches wins. *)
Fixpoint search {A : Type} (p : string -> option A) (s : string) : option A :=
  match p s with
  | Some a => Some a
  | None =>
      match s with
      | EmptyString => None
      | String _ s' => search p s'
      end
  end.

(** [\d]. *)
Definition isDigit (c : ascii) : bool :=
  let n := nat_of_ascii c in (48 <=? n)%nat && (n <=? 57)%nat.

(** [\s], restricted to the 8-bit characters: tab, line feed, vertical
    tab, form feed, carriage return, space and no-break space. *)
Definition isSpace (c : ascii) : bool :=
  let n := nat_of_ascii c in
  ((9 <=? n)%nat && (n <=? 13)%nat) || (n =? 32)%nat || (n =? 160)%nat.

(** [.] matches everything but a line terminator. *)
Definition isDot (c : ascii) : bool :=
  let n := nat_of_ascii c in negb ((n =? 10)%nat || (n =? 13)%nat).

(** [X+] for a character class [X], anchored: the greedy run, which must
    not be empty. *)
Definition plus (f : ascii -> bool) (s : string) : option string :=
  let run := takeWhile f s in
  if isEmpty run then None else Some run.

(** Value of a run of decimal digits, read left to right onto [acc];
    reading stops at the first character that is not a digit. *)
Fixpoint digitsValue (acc : Z) (s : string) : Z :=
  match s with
  | EmptyString => acc
  | String c s' =>
      if isDigit c
      then digitsValue (10 * acc + Z.of_nat (nat_of_ascii c - 48)) s'
      else acc
  end.

(** [parseInt(s)] on the strings the adapter hands it, which all match
    [-?\d+]: an optional minus sign and the digits after it.  The value
    is the integer the digits spell, which is what a [number] holds for
    integers up to 2^53 in size. *)
Definition parseInt (s : string) : Z :=
  match s with
  | String "-" s' => - digitsValue 0 s'
  | _ => digitsValue 0 s
  end.

(** [s.split(' ')]: the pieces between single spaces, empty ones kept. *)
Fixpoint splitSpace (cur : string) (s : string) : list string :=
  match s with
  | EmptyString => [cur]
  | String c s' =>
      if Ascii.eqb c " "
      then cur :: splitSpace EmptyString s'
      else splitSpace (cur ++ String c EmptyString) s'
  end.

Definition split (s : string) : list string := splitSpace EmptyString s.

(** An integer inside a template literal. *)
Definition numberToString (n : Z) : string :=
  NilZero.string_of_int (Z.to_int n).

(** The three states of a Promise; a rejection carries its reason. *)
Inductive Promise (A : Type) : Type :=
| Pending : Promise A
| Fulfilled : A -> Promise A
| Rejected : string -> Promise A.

Arguments Pending {A}.
Arguments Fulfilled {A} _.
Arguments Rejected {A} _.

Definition isPending {A : Type} (p : Promise A) : bool :=
  match p with Pending => true | _ => false end.

Definition isRejected {A : Type} (p : Promise A) : bool :=
  match p with Rejected _ => true | _ => false end.

End JS.

(* ================================================================== *)
(** ** src/lib/chess/engine.ts: the evaluator adapter *)
(* ================================================================== *)

Module Engine.

Import JS.
Local Open Scope string_scope.
Local Open Scope Q_scope.

(** [interface EngineMove]. *)
Record EngineMove : Type := mkEngineMove {
  move : string;
  evaluation : Q;
  mate : option Z;
  depth : Z;
  pv : list string
}.

(** *** The regular expressions of [analyze] *)

(** [/depth (\d+)/]: the capture. *)
Definition depthAt (s : string) : option string :=
  match after "depth " s with
  | Some r => plus isDigit r
  | None => None
  end.

Definition depthMatch (message : string) : option string :=
  search depthAt message.

(** [-?\d+], anchored. *)
Definition signedDigits (s : string) : option string :=
  match s with
  | String "-" r =>
      match plus isDigit r with
      | Some ds => Some (String "-" ds)
      | None => None
      end
  | _ => plus isDigit s
  end.

(** [(cp|mate)], anchored: the alternative taken and the rest. *)
Definition scoreKind (s : string) : option (string * string) :=
  match after "cp" s with
  | Some r => Some ("cp", r)
  | None =>
      match after "mate" s with
      | Some r => Some ("mate", r)
      | None => None
      end
  end.

(** [/score (cp|mate) (-?\d+)/]: the two captures. *)
Definition scoreAt (s : string) : option (string * string) :=
  match after "score " s with
  | Some r =>
      match scoreKind r with
      | Some (type, r1) =>
          match after " " r1 with
          | Some r2 =>
              match signedDigits r2 with
              | Some value => Some (type, value)
              | None => None
              end
          | None => None
          end
      | None => None
      end
  | None => None
  end.

Definition scoreMatch (message : string) : option (string * string) :=
  search scoreAt message.

(** [/pv (.+)/]: the capture. *)
Definition pvAt (s : string) : option string :=
  match after "pv " s with
  | Some r => plus isDot r
  | None => None
  end.

Definition pvMatch (message : string) : option string :=
  search pvAt message.

(** [/bestmove (\S+)/]: the capture. *)
Definition moveAt (s : string) : option string :=
  match after "bestmove " s with
  | Some r => plus (fun c => negb (isSpace c)) r
  | None => None
  end.

Definition moveMatch (message : string) : option string :=
  search moveAt message.

(** *** The message handler that [analyze] registers

    The closure of one [analyze] call owns five variables, [bestMove],
    [evaluation], [mate], [currentDepth] and [pv]; they are kept in an
    [EngineMove] (as [move], [evaluation], [mate], [depth], [pv]), which is
    also the shape the handler resolves the Promise with. *)

Definition closure0 : EngineMove :=
  {| move := ""; evaluation := 0; mate := None; depth := 0%Z; pv := [] |}.

Definition setDepth (d : Z) (c : EngineMove) : EngineMove :=
  {| move := move c; evaluation := evaluation c; mate := mate c;
     depth := d; pv := pv c |}.

Definition setEvaluation (q : Q) (c : EngineMove) : EngineMove :=
  {| move := move c; evaluation := q; mate := mate c;
     depth := depth c; pv := pv c |}.

Definition setMate (m : Z) (c : EngineMove) : EngineMove :=
  {| move := move c; evaluation := evaluation c; mate := Some m;
     depth := depth c; pv := pv c |}.

Definition setPv (l : list string) (c : EngineMove) : EngineMove :=
  {| move := move c; evaluation := evaluation c; mate := mate c;
     depth := depth c; pv := l |}.

Definition setMove (m : string) (c : EngineMove) : EngineMove :=
  {| move := m; evaluation := evaluation c; mate := mate c;
     depth := depth c; pv := pv c |}.

(** The [if (scoreMatch)] block. *)
Definition onScore (type value : string) (c : EngineMove) : EngineMove :=
  if String.eqb type "cp"
  then setEvaluation (inject_Z (parseInt value) / 100) c
  else if String.eqb type "mate"
  then
    let m := parseInt value in
    setEvaluation (if (0 <? m)%Z then 100 else -100) (setMate m c)
  else c.

(** The [if (message.startsWith('info depth'))] block. *)
Definition onInfo (message : string) (c : EngineMove) : EngineMove :=
  let c1 :=
    match depthMatch message with
    | Some d => setDepth (parseInt d) c
    | None => c
    end in
  let c2 :=
    match scoreMatch message with
    | Some (type, value) => onScore type value c1
    | None => c1
    end in
  match pvMatch message with
  | Some line => setPv (split line) c2
  | None => c2
  end.

(** What one call of the handler does besides updating its closure. *)
Inductive Outcome : Type :=
| Resolve (result : EngineMove)   (* resolve({...}) *)
| Requeue                         (* this.messageQueue.push(messageHandler) *)
| Forget.                         (* 'bestmove' without a move: neither *)

Definition messageHandler (c : EngineMove) (message : string)
  : EngineMove * Outcome :=
  let c1 := if startsWith message "info depth" then onInfo message c else c in
  if startsWith message "bestmove"
  then
    match moveMatch message with
    | Some m => let c2 := setMove m c1 in (c2, Resolve c2)
    | None => (c1, Forget)
    end
  else (c1, Requeue).

(** *** The object, its Workers and its Promises *)

(** The three public operations that end in [analyze]. *)
Inductive Op : Type := OpAnalyze | OpEvaluatePosition | OpGetBestMove.

(** The default of the [depth] parameter. *)
Definition defaultDepth (o : Op) : Z :=
  match o with
  | OpAnalyze => 18
  | OpEvaluatePosition => 15
  | OpGetBestMove => 18
  end.

(** One call of [analyze]: its arguments and the index of its Promise. *)
Record Request : Type := mkRequest {
  reqId : nat;
  reqFen : string;
  reqDepth : Z
}.

(** Who awaits the Promise of one [initialize()] call: a caller outside
    the class, or the [analyze] call suspended at
    [if (!this.ready) await this.initialize()]. *)
Inductive Waiter : Type :=
| Outside
| Suspended (r : Request).

(** A Worker created by [new Worker('/stockfish.js')]: the commands posted
    to it so far, whether [terminate()] was called on it, and the
    [initialize()] call whose [onmessage] closure it carries (whether that
    call's [resolve] has run, and who awaits it). *)
Record Worker : Type := mkWorker {
  posted : list string;
  terminated : bool;
  initResolved : bool;
  initWaiter : Waiter
}.

(** A handler in [messageQueue]: the closure variables of its [analyze]
    call and the Promise its [resolve] settles. *)
Record Handler : Type := mkHandler {
  request : nat;
  closure : EngineMove
}.

(** [class StockfishEngine]: the three private fields, and around them
    the environment: whether [window] is defined, every Worker created so
    far (a Worker is named by its index) and every Promise returned by
    [analyze] so far, with the operation it was returned for. *)
Record StockfishEngine : Type := mkEngine {
  worker : option nat;
  ready : bool;
  messageQueue : list Handler;
  window : bool;
  workers : list Worker;
  promises : list (Op * Promise EngineMove)
}.

(** [new StockfishEngine()]. *)
Definition create (hasWindow : bool) : StockfishEngine :=
  {| worker := None; ready := false; messageQueue := [];
     window := hasWindow; workers := []; promises := [] |}.

Fixpoint update {A : Type} (n : nat) (f : A -> A) (l : list A) : list A :=
  match l, n with
  | [], _ => []
  | x :: l', O => f x :: l'
  | x :: l', S n' => x :: update n' f l'
  end.

Definition setWorkers (ws : list Worker) (e : StockfishEngine) :=
  {| worker := worker e; ready := ready e; messageQueue := messageQueue e;
     window := window e; workers := ws; promises := promises e |}.

Definition setQueue (q : list Handler) (e : StockfishEngine) :=
  {| worker := worker e; ready := ready e; messageQueue := q;
     window := window e; workers := workers e; promises := promises e |}.

Definition setPromises (ps : list (Op * Promise EngineMove))
  (e : StockfishEngine) :=
  {| worker := worker e; ready := ready e; messageQueue := messageQueue e;
     window := window e; workers := workers e; promises := ps |}.

Definition setReady (b : bool) (e : StockfishEngine) :=
  {| worker := worker e; ready := b; messageQueue := messageQueue e;
     window := window e; workers := workers e; promises := promises e |}.

Definition setWorker (w : option nat) (e : StockfishEngine) :=
  {| worker := w; ready := ready e; messageQueue := messageQueue e;
     window := window e; workers := workers e; promises := promises e |}.

(** [worker.postMessage(command)] on Worker [w]. *)
Definition postMessage (w : nat) (command : string) (e : StockfishEngine) :=
  setWorkers
    (update w (fun k =>
       {| posted := posted k ++ [command]; terminated := terminated k;
          initResolved := initResolved k; initWaiter := initWaiter k |})
       (workers e)) e.

(** [private send(command)]. *)
Definition send (command : string) (e : StockfishEngine) : StockfishEngine :=
  match worker e with
  | Some w => postMessage w command e
  | None => e
  end.

(** The executor of the Promise built in [analyze]: it registers the
    handler and writes the two commands, all synchronously. *)
Definition executor (r : Request) (e : StockfishEngine) : StockfishEngine :=
  let e1 :=
    setQueue (messageQueue e ++ [{| request := reqId r; closure := closure0 |}])
      e in
  let e2 := send ("position fen " ++ reqFen r) e1 in
  send ("go depth " ++ numberToString (reqDepth r)) e2.

(** What runs when the Promise of an [initialize()] call is fulfilled. *)
Definition resume (k : Waiter) (e : StockfishEngine) : StockfishEngine :=
  match k with
  | Outside => e
  | Suspended r => executor r e
  end.

(** [async initialize()], called on behalf of [k].  Without a [window] it
    returns at once and [k] goes on.  Otherwise a new Worker replaces
    [this.worker], gets the [onmessage] closure and is sent ['uci']; [k]
    goes on when that Worker says ['uciok'] (see [onmessage]). *)
Definition initialize (k : Waiter) (e : StockfishEngine) : StockfishEngine :=
  if negb (window e) then resume k e
  else
    let w := List.length (workers e) in
    let fresh :=
      {| posted := []; terminated := false;
         initResolved := false; initWaiter := k |} in
    send "uci" (setWorker (Some w) (setWorkers (workers e ++ [fresh]) e)).

(** The [depth] argument, or its default when the caller leaves it out. *)
Definition depthArg (o : Op) (d : option Z) : Z :=
  match d with
  | Some n => n
  | None => defaultDepth o
  end.

(** [async analyze(fen, depth)], and [evaluatePosition] and [getBestMove]
    which only await it: a new Promise is handed out, and the executor
    runs now if the engine is ready and after [initialize()] if not. *)
Definition analyze (o : Op) (fen : string) (d : option Z)
  (e : StockfishEngine) : StockfishEngine :=
  let r :=
    {| reqId := List.length (promises e); reqFen := fen;
       reqDepth := depthArg o d |} in
  let e1 := setPromises (promises e ++ [(o, Pending)]) e in
  if ready e then executor r e1 else initialize (Suspended r) e1.

(** [resolve(result)] of the Promise of request [i]; a Promise settles
    once. *)
Definition resolve (i : nat) (result : EngineMove) (e : StockfishEngine) :=
  setPromises
    (update i (fun p =>
       match snd p with
       | Pending => (fst p, Fulfilled result)
       | _ => p
       end) (promises e)) e.

(** [handler?.(message)] for the handler just shifted off the queue. *)
Definition dispatch (h : Handler) (message : string) (e : StockfishEngine) :=
  match messageHandler (closure h) message with
  | (_, Resolve result) => resolve (request h) result e
  | (c, Requeue) =>
      setQueue (messageQueue e ++ [{| request := request h; closure := c |}]) e
  | (_, Forget) => e
  end.

Definition markResolved (w : nat) (e : StockfishEngine) :=
  setWorkers
    (update w (fun k =>
       {| posted := posted k; terminated := terminated k;
          initResolved := true; initWaiter := initWaiter k |})
       (workers e)) e.

(** [this.worker.onmessage] of Worker [w] receiving [e.data = message].
    A terminated Worker delivers nothing.  The continuation of whoever
    awaits this Worker's [initialize()] runs after the handler returns,
    the first time ['uciok'] arrives. *)
Definition onmessage (w : nat) (message : string) (e : StockfishEngine)
  : StockfishEngine :=
  match nth_error (workers e) w with
  | None => e
  | Some k =>
      if terminated k then e
      else
        let uciok := String.eqb message "uciok" in
        let e1 :=
          if uciok
          then
            markResolved w
              (send "setoption name Hash value 128"
                 (send "setoption name Threads value 2" (setReady true e)))
          else e in
        let e2 :=
          match messageQueue e1 with
          | h :: rest => dispatch h message (setQueue rest e1)
          | [] => e1
          end in
        if uciok && negb (initResolved k) then resume (initWaiter k) e2
        else e2
  end.

(** [terminate()]. *)
Definition terminate (e : StockfishEngine) : StockfishEngine :=
  match worker e with
  | Some w =>
      setReady false
        (setWorker None
           (setWorkers
              (update w (fun k =>
                 {| posted := posted k; terminated := true;
                    initResolved := initResolved k;
                    initWaiter := initWaiter k |})
                 (workers e)) e))
  | None => e
  end.

(** *** Runs of the adapter *)

(** What can happen to the object: a call of one of its methods by its
    user, or a message delivered by one of its Workers. *)
Inductive Event : Type :=
| Initialize
| Call (o : Op) (fen : string) (d : option Z)
| Terminate
| Message (w : nat) (data : string).

Definition step (e : StockfishEngine) (ev : Event) : StockfishEngine :=
  match ev with
  | Initialize => initialize Outside e
  | Call o fen d => analyze o fen d e
  | Terminate => terminate e
  | Message w data => onmessage w data e
  end.

Definition run (e : StockfishEngine) (evs : list Event) : StockfishEngine :=
  fold_left step evs e.

(** What the caller of operation [o] receives from the Promise of
    [analyze]: [evaluatePosition] keeps [result.evaluation], [getBestMove]
    keeps [result.move]. *)
Inductive Value : Type :=
| VMove (m : EngineMove)
| VNumber (q : Q)
| VString (s : string).

Definition project (o : Op) (m : EngineMove) : Value :=
  match o with
  | OpAnalyze => VMove m
  | OpEvaluatePosition => VNumber (evaluation m)
  | OpGetBestMove => VString (move m)
  end.

(** The Future of request [i] as its caller sees it. *)
Definition future (e : StockfishEngine) (i : nat) : option (Promise Value) :=
  match nth_error (promises e) i with
  | Some (o, Pending) => Some Pending
  | Some (o, Fulfilled m) => Some (Fulfilled (project o m))
  | Some (o, Rejected reason) => Some (Rejected reason)
  | None => None
  end.

(** The lines written to the conduit, that is to Worker [w], so far. *)
Definition conduit (e : StockfishEngine) (w : nat) : list string :=
  match nth_error (workers e) w with
  | Some k => posted k
  | None => []
  end.

End Engine.

(* ================================================================== *)
(** ** The analyzer: [class GameAnalyzer] *)
(* ================================================================== *)

Module Analyzer.

Local Open Scope string_scope.
Local Open Scope Q_scope.

Inductive Color : Type := white | black.

Inductive Severity : Type := blunder | mistake | inaccuracy.

Inductive Phase : Type := opening | middlegame | endgame.

(** [interface MistakeAnalysis]. *)
Record MistakeAnalysis : Type := mkMistake {
  moveNumber : nat;
  fen : string;
  playedMove : string;
  bestMove : string;
  evaluation : Q;
  previousEval : Q;
  severity : Severity;
  phase : Phase;
  explanation : string
}.

(** The [{ accuracy, moves }] objects of the report and of [phases]. *)
Record PhaseStat : Type := mkPhaseStat {
  accuracy : Q;
  moves : nat
}.

(** [interface GameAnalysis]. *)
Record GameAnalysis : Type := mkGameAnalysis {
  averageAccuracy : Q;
  blunders : nat;
  mistakes : nat;
  inaccuracies : nat;
  brilliantMoves : nat;
  mistakesList : list MistakeAnalysis;
  openingPhase : PhaseStat;
  middlegamePhase : PhaseStat;
  endgamePhase : PhaseStat
}.

(** [x > y] and [x >= y] on numbers. *)
Definition gtb (x y : Q) : bool := negb (Qle_bool x y).

Definition geb (x y : Q) : bool := Qle_bool y x.

Definition ltb (x y : Q) : bool := negb (Qle_bool y x).

(** [private determinePhase(moveNumber, pieces)]. *)
Definition determinePhase (moveNumber pieces : nat) : Phase :=
  if (moveNumber <=? 10)%nat then opening
  else if (pieces <=? 12)%nat then endgame
  else middlegame.

(** [private classifyMistake(evalDrop)]; [None] is [null]. *)
Definition classifyMistake (evalDrop : Q) : option Severity :=
  if geb (Qabs evalDrop) 3 then Some blunder
  else if geb (Qabs evalDrop) 1.5 then Some mistake
  else if geb (Qabs evalDrop) 0.5 then Some inaccuracy
  else None.

(** [x.toFixed(1)] for [x >= 0]: the nearest multiple of a tenth, the
    larger one on a tie, printed with one decimal. *)
Definition toFixed1 (x : Q) : string :=
  let n := Qfloor (x * 10 + (1 # 2)) in
  JS.numberToString (n / 10)%Z ++ "." ++ JS.numberToString (n mod 10)%Z.

(** [private generateExplanation({ playedMove, bestMove, evalDrop,
    severity })]; the three templates are never empty, so the
    ['Suboptimal move.'] fallback of the source is never taken. *)
Definition generateExplanation (playedMove bestMove : string) (evalDrop : Q)
  (severity : Severity) : string :=
  match severity with
  | blunder =>
      "This move loses significant material or position. The evaluation dropped by "
      ++ toFixed1 (Qabs evalDrop) ++ " pawns. Consider " ++ bestMove
      ++ " instead."
  | mistake =>
      "This move gives away an advantage. A better continuation was "
      ++ bestMove ++ ", maintaining your position."
  | inaccuracy =>
      "Not the most precise move. " ++ bestMove
      ++ " would have been slightly better."
  end.

(** *** What [analyzeGame] reads at index [i] of [history]

    [chess.js] and the engine are collaborators of the analyzer; a [Ply]
    holds what they hand to iteration [i] of the loop: [move.san], the
    two values of [chess.fen()] (before and after [chess.move]), the
    number of non-null squares of [chess.board()] after the move, the
    [EngineMove] that [await this.engine.analyze(fenBeforeMove, 15)]
    yields, and the [EngineMove] from which
    [await this.engine.evaluatePosition(fenAfterMove, 12)] keeps the
    evaluation.  The last two are read only when the ply is the tracked
    player's. *)
Record Ply : Type := mkPly {
  san : string;
  fenBeforeMove : string;
  fenAfterMove : string;
  pieces : nat;
  analysis : Engine.EngineMove;
  afterMove : Engine.EngineMove
}.

(** The object [phases]. *)
Record Phases : Type := mkPhases {
  inOpening : PhaseStat;
  inMiddlegame : PhaseStat;
  inEndgame : PhaseStat
}.

(** [phases[phase]]. *)
Definition phaseStat (ps : Phases) (ph : Phase) : PhaseStat :=
  match ph with
  | opening => inOpening ps
  | middlegame => inMiddlegame ps
  | endgame => inEndgame ps
  end.

(** [phases[phase].accuracy += a; phases[phase].moves++]. *)
Definition record (ph : Phase) (a : Q) (ps : Phases) : Phases :=
  let bump s := {| accuracy := accuracy s + a; moves := S (moves s) |} in
  match ph with
  | opening =>
      {| inOpening := bump (inOpening ps); inMiddlegame := inMiddlegame ps;
         inEndgame := inEndgame ps |}
  | middlegame =>
      {| inOpening := inOpening ps; inMiddlegame := bump (inMiddlegame ps);
         inEndgame := inEndgame ps |}
  | endgame =>
      {| inOpening := inOpening ps; inMiddlegame := inMiddlegame ps;
         inEndgame := bump (inEndgame ps) |}
  end.

(** The [let] variables of [analyzeGame] that the loop updates. *)
Module Loop.
Record Vars : Type := mkVars {
  blunders : nat;
  mistakes : nat;
  inaccuracies : nat;
  brilliantMoves : nat;
  mistakesList : list MistakeAnalysis;
  previousEval : Q;
  totalMoves : nat;
  totalAccuracy : Q;
  phases : Phases
}.
End Loop.

(** Their values on entry to the loop. *)
Definition vars0 : Loop.Vars :=
  {| Loop.blunders := 0; Loop.mistakes := 0; Loop.inaccuracies := 0;
     Loop.brilliantMoves := 0; Loop.mistakesList := [];
     Loop.previousEval := 0; Loop.totalMoves := 0; Loop.totalAccuracy := 0;
     Loop.phases :=
       {| inOpening := {| accuracy := 0; moves := 0 |};
          inMiddlegame := {| accuracy := 0; moves := 0 |};
          inEndgame := {| accuracy := 0; moves := 0 |} |} |}.

Definition isWhite (c : Color) : bool :=
  match c with white => true | black => false end.

Definition isBlack (c : Color) : bool :=
  match c with white => false | black => true end.

(** [const isPlayerMove = ...]. *)
Definition isPlayerMove (playerColor : Color) (i : nat) : bool :=
  (isWhite playerColor && (i mod 2 =? 0)%nat)
  || (isBlack playerColor && (i mod 2 =? 1)%nat).

(** [playerColor === 'white' ? x : -x]. *)
Definition adjusted (playerColor : Color) (x : Q) : Q :=
  if isWhite playerColor then x else - x.

(** [const evalDrop = adjustedPrevEval - adjustedCurrentEval]. *)
Definition evalDropOf (playerColor : Color) (previousEval evalAfterMove : Q)
  : Q :=
  adjusted playerColor previousEval - adjusted playerColor evalAfterMove.

(** [let moveAccuracy = 100; if (evalDrop > 0) { moveAccuracy = ... }]. *)
Definition moveAccuracyOf (evalDrop : Q) : Q :=
  if gtb evalDrop 0 then Qmax 0 (100 - evalDrop * 20) else 100.

(** The body of the [for] loop at a ply of the tracked player, from
    [const fenBeforeMove = chess.fen()] to [previousEval = evalAfterMove]. *)
Definition playerMove (playerColor : Color) (i : nat) (p : Ply)
  (v : Loop.Vars) : Loop.Vars :=
  let bestMove := Engine.move (analysis p) in
  let currentEval := Engine.evaluation (analysis p) in
  let evalAfterMove := Engine.evaluation (afterMove p) in
  let adjustedPrevEval := adjusted playerColor (Loop.previousEval v) in
  let adjustedCurrentEval := adjusted playerColor evalAfterMove in
  let evalDrop := evalDropOf playerColor (Loop.previousEval v) evalAfterMove in
  let phase := determinePhase (i / 2 + 1) (pieces p) in
  let moveAccuracy := moveAccuracyOf evalDrop in
  let totalAccuracy := Loop.totalAccuracy v + moveAccuracy in
  let totalMoves := S (Loop.totalMoves v) in
  let phases := record phase moveAccuracy (Loop.phases v) in
  match classifyMistake evalDrop with
  | Some severity =>
      {| Loop.blunders :=
           match severity with
           | blunder => S (Loop.blunders v)
           | _ => Loop.blunders v
           end;
         Loop.mistakes :=
           match severity with
           | mistake => S (Loop.mistakes v)
           | _ => Loop.mistakes v
           end;
         Loop.inaccuracies :=
           match severity with
           | inaccuracy => S (Loop.inaccuracies v)
           | _ => Loop.inaccuracies v
           end;
         Loop.brilliantMoves := Loop.brilliantMoves v;
         Loop.mistakesList :=
           Loop.mistakesList v ++
           [{| moveNumber := i / 2 + 1;
               fen := fenBeforeMove p;
               playedMove := san p;
               bestMove := bestMove;
               evaluation := adjustedCurrentEval;
               previousEval := adjustedPrevEval;
               severity := severity;
               phase := phase;
               explanation :=
                 generateExplanation (san p) bestMove evalDrop severity |}];
         Loop.previousEval := evalAfterMove;
         Loop.totalMoves := totalMoves;
         Loop.totalAccuracy := totalAccuracy;
         Loop.phases := phases |}
  | None =>
      {| Loop.blunders := Loop.blunders v;
         Loop.mistakes := Loop.mistakes v;
         Loop.inaccuracies := Loop.inaccuracies v;
         Loop.brilliantMoves :=
           if ltb evalDrop (-1) then S (Loop.brilliantMoves v)
           else Loop.brilliantMoves v;
         Loop.mistakesList := Loop.mistakesList v;
         Loop.previousEval := evalAfterMove;
         Loop.totalMoves := totalMoves;
         Loop.totalAccuracy := totalAccuracy;
         Loop.phases := phases |}
  end.

(** One iteration of the loop; a ply of the opponent is only replayed on
    the board, which leaves every variable as it is. *)
Definition iteration (playerColor : Color) (i : nat) (p : Ply)
  (v : Loop.Vars) : Loop.Vars :=
  if negb (isPlayerMove playerColor i) then v
  else playerMove playerColor i p v.

(** [for (let i = ...; i < history.length; i++)], entered at index [i]
    with the plies from [i] on. *)
Fixpoint loop (playerColor : Color) (i : nat) (history : list Ply)
  (v : Loop.Vars) : Loop.Vars :=
  match history with
  | [] => v
  | p :: rest => loop playerColor (S i) rest (iteration playerColor i p v)
  end.

(** [n > 0 ? sum / n : 0]. *)
Definition average (sum : Q) (n : nat) : Q :=
  if (0 <? n)%nat then sum / inject_Z (Z.of_nat n) else 0.

Definition finish (s : PhaseStat) : PhaseStat :=
  {| accuracy := average (accuracy s) (moves s); moves := moves s |}.

(** The object that [analyzeGame] returns. *)
Definition report (v : Loop.Vars) : GameAnalysis :=
  {| averageAccuracy := average (Loop.totalAccuracy v) (Loop.totalMoves v);
     blunders := Loop.blunders v;
     mistakes := Loop.mistakes v;
     inaccuracies := Loop.inaccuracies v;
     brilliantMoves := Loop.brilliantMoves v;
     mistakesList := Loop.mistakesList v;
     openingPhase := finish (inOpening (Loop.phases v));
     middlegamePhase := finish (inMiddlegame (Loop.phases v));
     endgamePhase := finish (inEndgame (Loop.phases v)) |}.

(** [async analyzeGame(pgn, playerColor)], with [history] standing for
    [chess.history({ verbose: true })] after [chess.loadPgn(pgn)] together
    with the engine's answers along it. *)
Definition analyzeGame (history : list Ply) (playerColor : Color)
  : GameAnalysis :=
  report (loop playerColor 0 history vars0).

End Analyzer.

(* ================================================================== *)
(** ** [analyzeGame] on the adapter *)
(* ================================================================== *)

(** [Analyzer.analyzeGame] takes the engine's answers as given.  Here
    the same function is followed through its [await]s: the analyzer owns
    an adapter, calls it, and is resumed when the Promise it awaits is
    fulfilled by a line of the Worker. *)

Module Session.

Import JS Engine Analyzer.
Local Open Scope string_scope.

(** What [chess.js] hands to iteration [i] of the loop: [move.san], the
    values of [chess.fen()] before and after [chess.move], and the number
    of non-null squares of [chess.board()] after the move. *)
Record Board : Type := mkBoard {
  boardSan : string;
  fenBefore : string;
  fenAfter : string;
  piecesAfter : nat
}.

(** What [chess.move(move.san)] does at an iteration of the loop.  The
    loop replays the history on a board that [chess.reset()] has put back
    to the standard starting position, so the move is played, or
    [chess.move] throws because the move is not legal there (as in a game
    that did not start from the standard position).  [chess.fen()] before
    the move is read either way. *)
Inductive Replayed : Type :=
| Moved (b : Board)
| Illegal (fen : string) (error : string).

Definition fenBeforeOf (m : Replayed) : string :=
  match m with
  | Moved b => fenBefore b
  | Illegal fen _ => fen
  end.

(** [chess.loadPgn(pgn)] and [chess.history({ verbose: true })]:
    [loadPgn] throws, or the history is there to be replayed. *)
Inductive Pgn : Type :=
| Malformed (error : string)
| Loaded (history : list Replayed).

(** The ply of [b] once the engine has answered both calls. *)
Definition plyOf (b : Board) (analysis afterMove : EngineMove) : Ply :=
  {| san := boardSan b; fenBeforeMove := fenBefore b;
     fenAfterMove := fenAfter b; pieces := piecesAfter b;
     analysis := analysis; afterMove := afterMove |}.

(** Where [analyzeGame] stands: at one of its three [await]s, with the
    values of its variables and what it waits for, returned, or left by
    an exception, which rejects its Promise. *)
Inductive Stage : Type :=
| Initializing (w : nat) (pgn : Pgn)
    (* await this.initialize(): the Worker whose 'uciok' is awaited *)
| Analyzing (i : nat) (m : Replayed) (rest : list Replayed) (v : Loop.Vars)
    (request : nat)
    (* await this.engine.analyze(fenBeforeMove, 15) *)
| Evaluating (i : nat) (b : Board) (rest : list Replayed) (v : Loop.Vars)
    (analysis : EngineMove) (request : nat)
    (* await this.engine.evaluatePosition(fenAfterMove, 12) *)
| Returned (r : GameAnalysis)
| Thrown (error : string).

Record Session : Type := mkSession {
  stage : Stage;
  engine : StockfishEngine
}.

(** The loop from index [i] on, up to its next [await], to the [return]
    or to an exception: plies of the opponent are replayed, and a ply
    that cannot be replayed throws; the first ply of the player calls
    [analyze]; after the last ply the engine is terminated and the
    report returned. *)
Fixpoint advance (playerColor : Color) (i : nat) (history : list Replayed)
  (v : Loop.Vars) (e : StockfishEngine) : Session :=
  match history with
  | [] => {| stage := Returned (report v); engine := terminate e |}
  | m :: rest =>
      if negb (isPlayerMove playerColor i)
      then
        match m with
        | Moved _ => advance playerColor (S i) rest v e
        | Illegal _ error => {| stage := Thrown error; engine := e |}
        end
      else
        {| stage := Analyzing i m rest v (List.length (promises e));
           engine := analyze OpAnalyze (fenBeforeOf m) (Some 15%Z) e |}
  end.

(** From [chess.loadPgn(pgn)] to the first [await] of the loop. *)
Definition enter (playerColor : Color) (pgn : Pgn) (e : StockfishEngine)
  : Session :=
  match pgn with
  | Malformed error => {| stage := Thrown error; engine := e |}
  | Loaded history => advance playerColor 0 history vars0 e
  end.

(** [new GameAnalyzer().analyzeGame(pgn, playerColor)] up to its first
    [await] that has to wait.  [initialize()] of a fresh adapter returns
    at once where there is no [window]; in a browser it waits for the
    'uciok' of Worker 0. *)
Definition start (hasWindow : bool) (playerColor : Color) (pgn : Pgn)
  : Session :=
  let e := initialize Outside (create hasWindow) in
  if hasWindow then {| stage := Initializing 0 pgn; engine := e |}
  else enter playerColor pgn e.

(** The continuation of the [await] the analyzer stands at, run if what
    it awaits has been fulfilled.  After [analyze] the move is played,
    which may throw. *)
Definition wake (playerColor : Color) (s : Session) : Session :=
  let e := engine s in
  match stage s with
  | Initializing w pgn =>
      match nth_error (workers e) w with
      | Some k => if initResolved k then enter playerColor pgn e else s
      | None => s
      end
  | Analyzing i m rest v request =>
      match nth_error (promises e) request with
      | Some (_, Fulfilled analysis) =>
          match m with
          | Moved b =>
              {| stage :=
                   Evaluating i b rest v analysis (List.length (promises e));
                 engine :=
                   analyze OpEvaluatePosition (fenAfter b) (Some 12%Z) e |}
          | Illegal _ error => {| stage := Thrown error; engine := e |}
          end
      | _ => s
      end
  | Evaluating i b rest v analysis request =>
      match nth_error (promises e) request with
      | Some (_, Fulfilled afterMove) =>
          advance playerColor (S i) rest
            (playerMove playerColor i (plyOf b analysis afterMove) v) e
      | _ => s
      end
  | Returned _ => s
  | Thrown _ => s
  end.

(** A line [data] of Worker [w] arrives: the adapter's [onmessage]
    runs, then the analyzer if it was waiting for this. *)
Definition deliver (playerColor : Color) (s : Session)
  (m : nat * string) : Session :=
  wake playerColor
    {| stage := stage s; engine := onmessage (fst m) (snd m) (engine s) |}.

Definition receive (playerColor : Color) (s : Session)
  (ms : list (nat * string)) : Session :=
  fold_left (deliver playerColor) ms s.

(** The report, once [analyzeGame] has returned. *)
Definition returned (s : Session) : option GameAnalysis :=
  match stage s with
  | Returned r => Some r
  | _ => None
  end.

(** The exception, once [analyzeGame] has been left by one. *)
Definition thrown (s : Session) : option string :=
  match stage s with
  | Thrown error => Some error
  | _ => None
  end.

(** *** An evaluator that answers *)

(** What the evaluator prints for one search: lines of the search and
    the result line. *)
Record Answer : Type := mkAnswer {
  searchLines : list string;
  resultLine : string
}.

(** One ply with the answers the evaluator would give to the two calls
    of the analyzer, should the ply be the player's. *)
Record Turn : Type := mkTurn {
  board : Board;
  before : Answer;
  after : Answer
}.

(** What the handler of a request makes of an answer. *)
Definition resultOf (a : Answer) : EngineMove :=
  let c := fold_left (fun c line => fst (messageHandler c line))
             (searchLines a) closure0 in
  fst (messageHandler c (resultLine a)).

(** The lines of an answer, as messages of Worker [w]. *)
Definition messagesOf (w : nat) (a : Answer) : list (nat * string) :=
  (map (fun line => (w, line)) (searchLines a) ++ [(w, resultLine a)])%list.

(** Everything Worker [w] prints during the loop from index [i] on. *)
Fixpoint script (playerColor : Color) (w : nat) (i : nat)
  (turns : list Turn) : list (nat * string) :=
  match turns with
  | [] => []
  | t :: rest =>
      ((if isPlayerMove playerColor i
        then messagesOf w (before t) ++ messagesOf w (after t)
        else []) ++ script playerColor w (S i) rest)%list
  end.

(** The commands the analyzer's calls write during the loop from index
    [i] on. *)
Fixpoint commands (playerColor : Color) (i : nat) (turns : list Turn)
  : list string :=
  match turns with
  | [] => []
  | t :: rest =>
      ((if isPlayerMove playerColor i
        then [("position fen " ++ fenBefore (board t))%string;
              "go depth 15";
              ("position fen " ++ fenAfter (board t))%string;
              "go depth 12"]
        else []) ++ commands playerColor (S i) rest)%list
  end.

(** The history of a game every ply of which can be replayed. *)
Definition replayable (turns : list Turn) : list Replayed :=
  map (fun t => Moved (board t)) turns.

(** The ply the analyzer model is given for a turn. *)
Definition turnPly (t : Turn) : Ply :=
  plyOf (board t) (resultOf (before t)) (resultOf (after t)).

(** An answer the handler accepts: search lines, then a result line
    that names a move. *)
Definition wellFormed (a : Answer) : Prop :=
  Forall (fun line =>
            String.eqb line "uciok" = false /\
            startsWith line "bestmove" = false) (searchLines a) /\
  startsWith (resultLine a) "bestmove" = true /\
  moveMatch (resultLine a) <> None.

(** The boards of the player, as [Stated.playerPlies] for plies. *)
Fixpoint playerBoards (playerColor : Color) (i : nat) (boards : list Board)
  : list Board :=
  match boards with
  | [] => []
  | b :: rest =>
      if isPlayerMove playerColor i
      then b :: playerBoards playerColor (S i) rest
      else playerBoards playerColor (S i) rest
  end.

(** The game 1. e4 e5 with an evaluator that answers White's ply with a
    score of +0.30 before and a mate in 3 against White after it. *)
Definition sampleTurns : list Turn :=
  [ {| board :=
         {| boardSan := "e4";
            fenBefore :=
              "rnbqkbnr/pppppppp/8/8/8/8/PPPPPPPP/RNBQKBNR w KQkq - 0 1";
            fenAfter :=
              "rnbqkbnr/pppppppp/8/8/4P3/8/PPPP1PPP/RNBQKBNR b KQkq - 0 1";
            piecesAfter := 32 |};
       before :=
         {| searchLines :=
              ["info depth 1 seldepth 1 multipv 1 score cp 28 nodes 20 pv e2e4";
               "info depth 2 seldepth 2 multipv 1 score cp 30 nodes 64 pv e2e4 e7e5"];
            resultLine := "bestmove e2e4 ponder e7e5" |};
       after :=
         {| searchLines :=
              ["info depth 1 seldepth 1 multipv 1 score mate -3 nodes 20 pv e7e5"];
            resultLine := "bestmove e7e5" |} |};
    {| board :=
         {| boardSan := "e5";
            fenBefore :=
              "rnbqkbnr/pppppppp/8/8/4P3/8/PPPP1PPP/RNBQKBNR b KQkq - 0 1";
            fenAfter :=
              "rnbqkbnr/pppp1ppp/8/4p3/4P3/8/PPPP1PPP/RNBQKBNR w KQkq - 0 2";
            piecesAfter := 32 |};
       before := {| searchLines := []; resultLine := "bestmove e7e5" |};
       after := {| searchLines := []; resultLine := "bestmove g1f3" |} |} ].

(** The adapter between two calls of the analyzer: ready, talking to the
    live Worker [w], with no handler queued. *)
Definition idle (e : StockfishEngine) (w : nat) : Prop :=
  ready e = true /\ worker e = Some w /\ messageQueue e = [] /\
  exists k, nth_error (workers e) w = Some k /\ terminated k = false.

(** The analyzer stands at the [await] of request [request]. *)
Definition awaits (st : Stage) (request : nat) : Prop :=
  (exists i m rest v, st = Analyzing i m rest v request) \/
  (exists i b rest v analysis, st = Evaluating i b rest v analysis request).

(** The analyzer has returned or thrown, or stands at a call of
    [analyze]. *)
Definition halted (st : Stage) : Prop :=
  (exists r, st = Returned r) \/ (exists error, st = Thrown error) \/
  (exists i m rest v request, st = Analyzing i m rest v request).

(** What White's third ply is answered with in the sample game. *)
Definition sampleAnswer : Answer :=
  {| searchLines := ["info depth 1 seldepth 1 multipv 1 score cp 35 nodes 20 pv g1f3"];
     resultLine := "bestmove g1f3" |}.

End Session.

(* ================================================================== *)
(** ** Vocabulary of the properties *)
(* ================================================================== *)

Module Stated.

Import Analyzer.
Local Open Scope string_scope.
Local Open Scope Q_scope.

(** The plies of [history] that belong to the tracked player, in order;
    [history] starts at ply index [i]. *)
Fixpoint playerPlies (playerColor : Color) (i : nat) (history : list Ply)
  : list Ply :=
  match history with
  | [] => []
  | p :: rest =>
      if isPlayerMove playerColor i
      then p :: playerPlies playerColor (S i) rest
      else playerPlies playerColor (S i) rest
  end.

(** The score [evaluatePosition] gave after the tracked player's latest
    move among the plies [pre] of a game, and [0] when the player has not
    moved yet. *)
Definition latestAfterMove (playerColor : Color) (pre : list Ply) : Q :=
  last (map (fun p => Engine.evaluation (afterMove p))
          (playerPlies playerColor 0 pre)) 0.

(** The delta of a ply as the specification words it: the score of
    [analyze] on the position before the move minus the score of
    [evaluatePosition] on the position after it, both re-expressed for
    the tracked player. *)
Definition specDelta (playerColor : Color) (p : Ply) : Q :=
  adjusted playerColor (Engine.evaluation (analysis p))
  - adjusted playerColor (Engine.evaluation (afterMove p)).

(** A ply for which [analyze] reported the score [q] instead. *)
Definition withAnalysisScore (q : Q) (p : Ply) : Ply :=
  {| san := san p; fenBeforeMove := fenBeforeMove p;
     fenAfterMove := fenAfterMove p; pieces := pieces p;
     analysis := Engine.setEvaluation q (analysis p);
     afterMove := afterMove p |}.

(** An engine answer with its raw score negated. *)
Definition negated (m : Engine.EngineMove) : Engine.EngineMove :=
  Engine.setEvaluation (- Engine.evaluation m) m.

(** A ply with both raw scores negated. *)
Definition mirrorPly (p : Ply) : Ply :=
  {| san := san p; fenBeforeMove := fenBeforeMove p;
     fenAfterMove := fenAfterMove p; pieces := pieces p;
     analysis := negated (analysis p); afterMove := negated (afterMove p) |}.

(** The loop variables with the raw previous score negated. *)
Definition mirrorVars (v : Loop.Vars) : Loop.Vars :=
  {| Loop.blunders := Loop.blunders v; Loop.mistakes := Loop.mistakes v;
     Loop.inaccuracies := Loop.inaccuracies v;
     Loop.brilliantMoves := Loop.brilliantMoves v;
     Loop.mistakesList := Loop.mistakesList v;
     Loop.previousEval := - Loop.previousEval v;
     Loop.totalMoves := Loop.totalMoves v;
     Loop.totalAccuracy := Loop.totalAccuracy v;
     Loop.phases := Loop.phases v |}.

(** The severities of a list of mistake records, in order. *)
Definition severities (l : list MistakeAnalysis) : list Severity :=
  map severity l.

(** [a === b] on severities. *)
Definition sameSeverity (a b : Severity) : bool :=
  match a, b with
  | blunder, blunder | mistake, mistake | inaccuracy, inaccuracy => true
  | _, _ => false
  end.

(** How many records of a mistake list carry severity [s]. *)
Definition countSeverity (s : Severity) (l : list MistakeAnalysis) : nat :=
  List.length (filter (fun m => sameSeverity (severity m) s) l).

(** A [{ accuracy, moves }] sum that holds between 0 and 100 per move. *)
Definition withinPercent (s : PhaseStat) : Prop :=
  0 <= accuracy s /\ accuracy s <= 100 * inject_Z (Z.of_nat (moves s)).

(** The sums the loop keeps, as one invariant. *)
Definition sumsWithinPercent (v : Loop.Vars) : Prop :=
  withinPercent
    {| accuracy := Loop.totalAccuracy v; moves := Loop.totalMoves v |} /\
  withinPercent (inOpening (Loop.phases v)) /\
  withinPercent (inMiddlegame (Loop.phases v)) /\
  withinPercent (inEndgame (Loop.phases v)).

(** The starting position, and the position after 1. e4. *)
Definition startFen : string :=
  "rnbqkbnr/pppppppp/8/8/8/8/PPPPPPPP/RNBQKBNR w KQkq - 0 1".

Definition e4Fen : string :=
  "rnbqkbnr/pppppppp/8/8/4P3/8/PPPP1PPP/RNBQKBNR b KQkq - 0 1".

(** White's first ply 1. e4 of a game in which [analyze] scores the
    starting position at +5 pawns and [evaluatePosition] scores the
    position after the move at 0. *)
Definition plyE4 : Ply :=
  {| san := "e4"; fenBeforeMove := startFen; fenAfterMove := e4Fen;
     pieces := 32;
     analysis :=
       {| Engine.move := "d2d4"; Engine.evaluation := 5;
          Engine.mate := None; Engine.depth := 15%Z;
          Engine.pv := ["d2d4"] |};
     afterMove :=
       {| Engine.move := "e7e5"; Engine.evaluation := 0;
          Engine.mate := None; Engine.depth := 12%Z;
          Engine.pv := ["e7e5"] |} |}.

(** The positions after 1... e5, 2. Nf3 and 2... Nc6. *)
Definition e5Fen : string :=
  "rnbqkbnr/pppp1ppp/8/4p3/4P3/8/PPPP1PPP/RNBQKBNR w KQkq - 0 2".

Definition nf3Fen : string :=
  "rnbqkbnr/pppp1ppp/8/4p3/4P3/5N2/PPPP1PPP/RNBQKB1R b KQkq - 1 2".

Definition nc6Fen : string :=
  "r1bqkbnr/pppp1ppp/2n5/4p3/4P3/5N2/PPPP1PPP/RNBQKB1R w KQkq - 2 3".

(** Black's first ply 1... e5: [evaluatePosition] scores the position
    after the move at +0.25. *)
Definition plyE5 : Ply :=
  {| san := "e5"; fenBeforeMove := e4Fen; fenAfterMove := e5Fen;
     pieces := 32;
     analysis :=
       {| Engine.move := "e7e5"; Engine.evaluation := 0.5;
          Engine.mate := None; Engine.depth := 15%Z;
          Engine.pv := ["e7e5"] |};
     afterMove :=
       {| Engine.move := "g1f3"; Engine.evaluation := 0.25;
          Engine.mate := None; Engine.depth := 12%Z;
          Engine.pv := ["g1f3"] |} |}.

(** White's second ply 2. Nf3. *)
Definition plyNf3 : Ply :=
  {| san := "Nf3"; fenBeforeMove := e5Fen; fenAfterMove := nf3Fen;
     pieces := 32;
     analysis :=
       {| Engine.move := "g1f3"; Engine.evaluation := 0.25;
          Engine.mate := None; Engine.depth := 15%Z;
          Engine.pv := ["g1f3"] |};
     afterMove :=
       {| Engine.move := "b8c6"; Engine.evaluation := 0.25;
          Engine.mate := None; Engine.depth := 12%Z;
          Engine.pv := ["b8c6"] |} |}.

(** Black's second ply 2... Nc6: [analyze] scores the position before
    the move at +5, [evaluatePosition] the position after it at +1.25. *)
Definition plyNc6 : Ply :=
  {| san := "Nc6"; fenBeforeMove := nf3Fen; fenAfterMove := nc6Fen;
     pieces := 32;
     analysis :=
       {| Engine.move := "b8c6"; Engine.evaluation := 5;
          Engine.mate := None; Engine.depth := 15%Z;
          Engine.pv := ["b8c6"] |};
     afterMove :=
       {| Engine.move := "f1b5"; Engine.evaluation := 1.25;
          Engine.mate := None; Engine.depth := 12%Z;
          Engine.pv := ["f1b5"] |} |}.

Import Engine JS.

(** Request [i] is settled in [e]: its Future is fulfilled or rejected. *)
Definition settled (e : StockfishEngine) (i : nat) : Prop :=
  exists p, future e i = Some p /\ isPending p = false.

(** The command line [line] has been written to the conduit of [e]. *)
Definition written (e : StockfishEngine) (line : string) : Prop :=
  exists w, In line (conduit e w).

(** Ordering as the specification words it, for request [i] and a later
    request whose first command line is [lineJ]: if the later request's
    line is on the conduit, the Future of request [i] has settled. *)
Definition servedInOrder (e : StockfishEngine) (i : nat) (lineJ : string)
  : Prop :=
  written e lineJ -> settled e i.

(** Worker [w] of [e] exists and has not been terminated. *)
Definition alive (e : StockfishEngine) (w : nat) : Prop :=
  exists k, nth_error (workers e) w = Some k /\ terminated k = false.

(** A line of the search: neither the handshake answer nor a result. *)
Definition searchLine (line : string) : Prop :=
  String.eqb line "uciok" = false /\ startsWith line "bestmove" = false.

(** The closure variables of a handler after it has been handed [lines]
    one by one. *)
Definition absorb (c : EngineMove) (lines : list string) : EngineMove :=
  fold_left (fun c line => fst (messageHandler c line)) lines c.

(** A channel brought up in a browser: [initialize()], then the Worker's
    ['uciok']. *)
Definition started : StockfishEngine :=
  run (create true) [Initialize; Message 0 "uciok"].

(** The line carries a mate-in-[N] score: the score pattern of the
    adapter finds a ['mate'] score on it whose digits read [N]. *)
Definition carriesMate (line : string) (N : Z) : Prop :=
  exists value, scoreMatch line = Some ("mate", value) /\ parseInt value = N.

(** Saturation as the specification words it, for a handler whose
    closure is [c]: whatever mate-in-N score the line carries, the
    handler leaves the evaluation at +100 when N > 0 and at -100
    otherwise. *)
Definition saturates (c : EngineMove) (line : string) : Prop :=
  forall N,
    carriesMate line N ->
    evaluation (fst (messageHandler c line))
    = (if (0 <? N)%Z then 100 else -100).

(** [this.worker] always names a Worker that exists. *)
Definition bounded (e : StockfishEngine) : Prop :=
  forall w, worker e = Some w -> (w < List.length (workers e))%nat.

(** No Promise handed out by [analyze] is rejected. *)
Definition unrejected (e : StockfishEngine) : Prop :=
  Forall (fun p => isRejected (snd p) = false) (promises e).

(** Two states with the same [this.worker], as many Workers, and the same
    Promises. *)
Definition alike (e e' : StockfishEngine) : Prop :=
  worker e' = worker e /\
  List.length (workers e') = List.length (workers e) /\
  promises e' = promises e.

End Stated.

(* ================================================================== *)
(** ** Vocabulary of the report *)
(* ================================================================== *)

Module Reported.

Import Analyzer.
Local Open Scope string_scope.
Local Open Scope Q_scope.

(** The report of a game in which the tracked player made no move. *)
Definition emptyReport : GameAnalysis :=
  {| averageAccuracy := 0; blunders := 0; mistakes := 0; inaccuracies := 0;
     brilliantMoves := 0; mistakesList := [];
     openingPhase := {| accuracy := 0; moves := 0 |};
     middlegamePhase := {| accuracy := 0; moves := 0 |};
     endgamePhase := {| accuracy := 0; moves := 0 |} |}.

(** The delta a mistake record was made from, read back from the two
    evaluations it stores. *)
Definition recordedDrop (m : MistakeAnalysis) : Q :=
  previousEval m - evaluation m.

(** A mistake record agrees with itself: its severity is the tier of its
    recorded delta, its explanation is the template of that severity, its
    move number starts at 1, and it is filed under the opening exactly
    when its move number is at most 10. *)
Definition consistent (m : MistakeAnalysis) : Prop :=
  classifyMistake (recordedDrop m) = Some (severity m) /\
  explanation m =
    generateExplanation (playedMove m) (bestMove m) (recordedDrop m)
      (severity m) /\
  (1 <= moveNumber m)%nat /\
  ((moveNumber m <= 10)%nat <-> phase m = opening).

(** The record [analyzeGame] pushes for ply [p] at index [i] when the
    delta has tier [s]. *)
Definition mistakeAt (playerColor : Color) (i : nat) (p : Ply)
  (previous : Q) (s : Severity) : MistakeAnalysis :=
  {| moveNumber := i / 2 + 1;
     fen := fenBeforeMove p;
     playedMove := san p;
     bestMove := Engine.move (analysis p);
     evaluation := adjusted playerColor (Engine.evaluation (afterMove p));
     previousEval := adjusted playerColor previous;
     severity := s;
     phase := determinePhase (i / 2 + 1) (pieces p);
     explanation :=
       generateExplanation (san p) (Engine.move (analysis p))
         (evalDropOf playerColor previous (Engine.evaluation (afterMove p)))
         s |}.

End Reported.

(* ================================================================== *)
(** ** Vocabulary of the evaluator's lines *)
(* ================================================================== *)

Module Lines.

Import JS Engine.
Local Open Scope string_scope.

(** [s] is empty or starts with a space: a field of a line ends here. *)
Definition spaced (s : string) : bool :=
  match s with
  | EmptyString => true
  | String c _ => Ascii.eqb c " "
  end.

(** [s] is empty or starts with a character that is no digit: a number
    written before [s] ends there. *)
Definition endsNumber (s : string) : bool :=
  match s with
  | EmptyString => true
  | String c _ => negb (isDigit c)
  end.

(** No ['s'] of [s] is directly followed by a ['c'], so no match of
    [/score .../] can start inside [s]. *)
Fixpoint noScore (s : string) : bool :=
  match s with
  | EmptyString => true
  | String a s' =>
      match s' with
      | String b _ => negb (Ascii.eqb a "s" && Ascii.eqb b "c")
      | EmptyString => true
      end && noScore s'
  end.

(** A line of the search as the evaluator prints it: the depth first,
    other fields [mid] (such as [" seldepth 12 multipv 1"]), the score of
    kind [kind] (["cp"] or ["mate"]), and the rest [tail] of the line. *)
Definition infoLine (d : Z) (mid kind : string) (v : Z) (tail : string)
  : string :=
  "info depth " ++ numberToString d ++ mid ++ " score " ++ kind ++ " "
  ++ numberToString v ++ tail.

(** The numeral of a non-negative integer, and of the size of a negative
    one. *)
Definition digitsOf (z : Z) : Decimal.uint :=
  match z with
  | Z0 => Decimal.D0 Decimal.Nil
  | Zpos p => Pos.to_uint p
  | Zneg p => Pos.to_uint p
  end.

End Lines.

(* ================================================================== *)
(** ** Vocabulary of the adapter's runs *)
(* ================================================================== *)

Module Runs.

Import JS Engine Stated.
Local Open Scope string_scope.

(** Worker [k] of [e] exists and has been terminated. *)
Definition stopped (e : StockfishEngine) (k : nat) : Prop :=
  exists wk, nth_error (workers e) k = Some wk /\ terminated wk = true.

(** [this.worker], when set, is a Worker that has not been terminated. *)
Definition currentAlive (e : StockfishEngine) : Prop :=
  forall w, worker e = Some w -> alive e w.

(** From [e] to [e'] no Worker is lost or revived, every conduit keeps
    what was written to it, and the conduit of a terminated Worker stays
    as it is. *)
Definition keepsLog (e e' : StockfishEngine) : Prop :=
  forall k wk,
    nth_error (workers e) k = Some wk ->
    exists wk',
      nth_error (workers e') k = Some wk' /\
      (terminated wk = true -> terminated wk' = true) /\
      (exists more, posted wk' = (posted wk ++ more)%list) /\
      (terminated wk = true -> posted wk' = posted wk).

(** The first line every Worker has been sent is ['uci']. *)
Definition greeted (e : StockfishEngine) : Prop :=
  forall k wk,
    nth_error (workers e) k = Some wk ->
    exists more, posted wk = "uci" :: more.

(** No Worker exists, none is current, and every Future is pending: the
    state of an adapter that runs where [window] is undefined. *)
Definition inert (e : StockfishEngine) : Prop :=
  window e = false /\ worker e = None /\ workers e = [] /\
  Forall (fun p => snd p = Pending) (promises e).

(** The queue after its head handler has been handed a line it only
    looks at: the head goes to the back. *)
Definition rotated (q : list Handler) : list Handler :=
  match q with
  | [] => []
  | h :: rest => (rest ++ [h])%list
  end.

(** The request parked behind Worker [k]: the [analyze] call suspended at
    [await this.initialize()] whose executor runs when the Worker says
    ['uciok'] for the first time. *)
Definition parked (k : Worker) : list nat :=
  match initWaiter k with
  | Suspended r => if initResolved k then [] else [reqId r]
  | Outside => []
  end.

(** The requests whose [resolve] something can still call: those of the
    handlers in [messageQueue], then those parked behind a Worker. *)
Definition holders (e : StockfishEngine) : list nat :=
  (map request (messageQueue e) ++ flat_map parked (workers e))%list.

(** The Promise of request [i] exists and is pending. *)
Definition pendingAt (e : StockfishEngine) (i : nat) : Prop :=
  exists o, nth_error (promises e) i = Some (o, Pending).

(** Every request is held at most once, and only while its Promise is
    pending. *)
Definition tidy (e : StockfishEngine) : Prop :=
  NoDup (holders e) /\ Forall (pendingAt e) (holders e).

(** From [e] to [e']: the requests in [fresh] are new and pending, those
    in [dropped] are no longer held, every other request is held as
    before, and only the Promises of dropped requests may have changed. *)
Definition moves (e e' : StockfishEngine) : Prop :=
  exists dropped fresh : list nat,
    Permutation (fresh ++ holders e) (dropped ++ holders e') /\
    NoDup fresh /\
    (forall i, In i fresh ->
               (List.length (promises e) <= i)%nat /\ pendingAt e' i) /\
    (forall i, (i < List.length (promises e))%nat -> ~ In i dropped ->
               nth_error (promises e') i = nth_error (promises e) i).

(** ['bestmove'] with nothing after it: the line on which a handler
    leaves the queue without calling [resolve]. *)
Definition orphaned : StockfishEngine :=
  run (create true)
    [Call OpAnalyze startFen None; Message 0 "uciok"; Message 0 "bestmove"].

End Runs.

(* ================================================================== *)
(** ** Properties of the analyzer *)
(* ================================================================== *)

Module AnalyzerFacts.

Import Analyzer Stated.
Local Open Scope Q_scope.

(** *** Comparisons *)

Lemma geb_true (x y : Q) : geb x y = true <-> y <= x.
Proof. unfold geb. apply Qle_bool_iff. Qed.

Lemma geb_false (x y : Q) : geb x y = false <-> x < y.
Proof.
  unfold geb. split; intro H.
  - apply Qnot_le_lt. intro L. apply Qle_bool_iff in L. congruence.
  - destruct (Qle_bool y x) eqn:E; [|reflexivity].
    apply Qle_bool_iff in E. exfalso. apply (Qlt_not_le _ _ H E).
Qed.

Lemma gtb_true (x y : Q) : gtb x y = true <-> y < x.
Proof.
  unfold gtb. rewrite negb_true_iff. apply (geb_false y x).
Qed.

Lemma gtb_false (x y : Q) : gtb x y = false <-> x <= y.
Proof.
  unfold gtb. rewrite negb_false_iff. apply Qle_bool_iff.
Qed.

Lemma ltb_true (x y : Q) : ltb x y = true <-> x < y.
Proof.
  unfold ltb. rewrite negb_true_iff. apply (geb_false x y).
Qed.

Lemma ltb_false (x y : Q) : ltb x y = false <-> y <= x.
Proof.
  unfold ltb. rewrite negb_false_iff. apply Qle_bool_iff.
Qed.

(** Negation is an involution on the nose, not only up to [==]. *)
Lemma Qopp_opp_eq (q : Q) : - - q = q.
Proof.
  destruct q as [n d]. unfold Qopp. simpl. now rewrite Z.opp_involutive.
Qed.

(** *** The classifier *)

Lemma classifyMistake_cases (d : Q) :
  (3 <= Qabs d -> classifyMistake d = Some blunder) /\
  (1.5 <= Qabs d -> Qabs d < 3 -> classifyMistake d = Some mistake) /\
  (0.5 <= Qabs d -> Qabs d < 1.5 -> classifyMistake d = Some inaccuracy) /\
  (Qabs d < 0.5 -> classifyMistake d = None).
Proof.
  unfold classifyMistake.
  destruct (geb (Qabs d) 3) eqn:E3;
    [apply geb_true in E3 | apply geb_false in E3];
  (destruct (geb (Qabs d) 1.5) eqn:E2;
    [apply geb_true in E2 | apply geb_false in E2]);
  (destruct (geb (Qabs d) 0.5) eqn:E1;
    [apply geb_true in E1 | apply geb_false in E1]);
  repeat split; intros; try reflexivity; exfalso; lra.
Qed.

(** The record pushed at a ply carries the tier of that ply's delta, and
    no record is pushed when the delta has no tier. *)
Lemma playerMove_severities playerColor i p v :
  severities (Loop.mistakesList (playerMove playerColor i p v)) =
  severities (Loop.mistakesList v) ++
  match
    classifyMistake
      (evalDropOf playerColor (Loop.previousEval v)
         (Engine.evaluation (afterMove p)))
  with
  | Some s => [s]
  | None => []
  end.
Proof.
  unfold playerMove, severities.
  destruct (classifyMistake _); simpl.
  - now rewrite map_app.
  - now rewrite app_nil_r.
Qed.

(** C2.  The tier is decided by the absolute value of the delta, in
    pawns: at least 3 is a blunder, at least 1.5 (and below 3) a mistake,
    at least 0.5 (and below 1.5) an inaccuracy, anything smaller no tier;
    and this is the tier the loop records at a ply of the tracked
    player. *)
Theorem classifyMistake_tiers :
  forall evalDrop : Q,
    (3 <= Qabs evalDrop -> classifyMistake evalDrop = Some blunder) /\
    (1.5 <= Qabs evalDrop -> Qabs evalDrop < 3 ->
       classifyMistake evalDrop = Some mistake) /\
    (0.5 <= Qabs evalDrop -> Qabs evalDrop < 1.5 ->
       classifyMistake evalDrop = Some inaccuracy) /\
    (Qabs evalDrop < 0.5 -> classifyMistake evalDrop = None) /\
    (forall playerColor i p v,
       severities (Loop.mistakesList (playerMove playerColor i p v)) =
       severities (Loop.mistakesList v) ++
       match
         classifyMistake
           (evalDropOf playerColor (Loop.previousEval v)
              (Engine.evaluation (afterMove p)))
       with
       | Some s => [s]
       | None => []
       end).
Proof.
  intro d.
  destruct (classifyMistake_cases d) as (Hb & Hm & Hi & Hn).
  repeat split; try assumption.
  intros. apply playerMove_severities.
Qed.

(** The thresholds belong to the upper tier, on either side of zero. *)
Example classifyMistake_at_the_thresholds :
  classifyMistake 3 = Some blunder /\
  classifyMistake (-3) = Some blunder /\
  classifyMistake 2.99 = Some mistake /\
  classifyMistake 1.5 = Some mistake /\
  classifyMistake (-1.49) = Some inaccuracy /\
  classifyMistake 0.5 = Some inaccuracy /\
  classifyMistake 0.49 = None /\
  classifyMistake 0 = None.
Proof. repeat split. Qed.

(** *** Accuracy *)

(** Half a pawn costs ten points; five pawns and more cost them all. *)
Example moveAccuracyOf_samples :
  moveAccuracyOf (-2) == 100 /\ moveAccuracyOf 0 == 100 /\
  moveAccuracyOf 0.5 == 90 /\ moveAccuracyOf 2.5 == 50 /\
  moveAccuracyOf 5 == 0 /\ moveAccuracyOf 7 == 0.
Proof. repeat split. Qed.

Lemma moveAccuracyOf_nonpos (d : Q) : d <= 0 -> moveAccuracyOf d = 100.
Proof.
  intro H. unfold moveAccuracyOf.
  now rewrite (proj2 (gtb_false d 0) H).
Qed.

Lemma moveAccuracyOf_pos (d : Q) :
  0 < d -> moveAccuracyOf d = Qmax 0 (100 - d * 20).
Proof.
  intro H. unfold moveAccuracyOf.
  now rewrite (proj2 (gtb_true d 0) H).
Qed.

Lemma moveAccuracyOf_antitone (d1 d2 : Q) :
  0 < d1 -> d1 <= d2 -> moveAccuracyOf d2 <= moveAccuracyOf d1.
Proof.
  intros H1 H12.
  rewrite (moveAccuracyOf_pos d1 H1).
  rewrite (moveAccuracyOf_pos d2) by lra.
  apply Q.max_le_compat_l. lra.
Qed.

(** The accuracy of a ply never leaves the interval from 0 to 100. *)
Lemma moveAccuracyOf_range (d : Q) :
  0 <= moveAccuracyOf d /\ moveAccuracyOf d <= 100.
Proof.
  unfold moveAccuracyOf.
  destruct (gtb d 0) eqn:E.
  - apply gtb_true in E. split.
    + apply Q.le_max_l.
    + apply Q.max_lub; lra.
  - split; lra.
Qed.

(** What a ply of the tracked player adds to the running total. *)
Lemma playerMove_totalAccuracy playerColor i p v :
  Loop.totalAccuracy (playerMove playerColor i p v) =
  Loop.totalAccuracy v +
  moveAccuracyOf
    (evalDropOf playerColor (Loop.previousEval v)
       (Engine.evaluation (afterMove p))).
Proof.
  unfold playerMove. destruct (classifyMistake _); reflexivity.
Qed.

(** C3.  The accuracy of a ply is 100 when the delta is at most 0 and
    max(0, 100 - delta * 20) when it is positive; it does not increase
    when a positive delta grows; and it is what the loop adds to the
    running total at a ply of the tracked player. *)
Theorem moveAccuracy_formula :
  (forall d : Q, d <= 0 -> moveAccuracyOf d = 100) /\
  (forall d : Q, 0 < d -> moveAccuracyOf d = Qmax 0 (100 - d * 20)) /\
  (forall d1 d2 : Q,
     0 < d1 -> d1 <= d2 -> moveAccuracyOf d2 <= moveAccuracyOf d1) /\
  (forall playerColor i p v,
     Loop.totalAccuracy (playerMove playerColor i p v) =
     Loop.totalAccuracy v +
     moveAccuracyOf
       (evalDropOf playerColor (Loop.previousEval v)
          (Engine.evaluation (afterMove p)))).
Proof.
  split; [exact moveAccuracyOf_nonpos|].
  split; [exact moveAccuracyOf_pos|].
  split; [exact moveAccuracyOf_antitone|].
  exact playerMove_totalAccuracy.
Qed.

(** *** Phases *)

(** The bucket a ply of the tracked player is added to. *)
Lemma playerMove_phases playerColor i p v :
  Loop.phases (playerMove playerColor i p v) =
  record (determinePhase (i / 2 + 1) (pieces p))
    (moveAccuracyOf
       (evalDropOf playerColor (Loop.previousEval v)
          (Engine.evaluation (afterMove p))))
    (Loop.phases v).
Proof.
  unfold playerMove. destruct (classifyMistake _); reflexivity.
Qed.

(** C7.  The phase depends on the move number and the piece count only:
    a move number of at most 10 is the opening, otherwise at most 12
    pieces is the endgame, otherwise the middlegame.  Move 10 is opening,
    move 11 with 13 pieces is middlegame, 12 pieces from move 11 on is
    endgame.  The loop files the ply at index i under the phase of move
    number i / 2 + 1 (the quotient rounded down). *)
Theorem determinePhase_boundaries :
  (forall moveNumber pieces : nat,
     (moveNumber <= 10)%nat -> determinePhase moveNumber pieces = opening) /\
  (forall moveNumber pieces : nat,
     (10 < moveNumber)%nat -> (pieces <= 12)%nat ->
     determinePhase moveNumber pieces = endgame) /\
  (forall moveNumber pieces : nat,
     (10 < moveNumber)%nat -> (12 < pieces)%nat ->
     determinePhase moveNumber pieces = middlegame) /\
  (forall pieces : nat, determinePhase 10 pieces = opening) /\
  determinePhase 11 13 = middlegame /\
  (forall moveNumber : nat,
     (11 <= moveNumber)%nat -> determinePhase moveNumber 12 = endgame) /\
  (forall playerColor i p v,
     (2 * (i / 2) <= i < 2 * (i / 2) + 2)%nat /\
     Loop.phases (playerMove playerColor i p v) =
     record (determinePhase (i / 2 + 1) (Analyzer.pieces p))
       (moveAccuracyOf
          (evalDropOf playerColor (Loop.previousEval v)
             (Engine.evaluation (afterMove p))))
       (Loop.phases v)).
Proof.
  unfold determinePhase.
  split; [intros m n H; destruct (Nat.leb_spec m 10); [reflexivity | lia]|].
  split; [intros m n H1 H2; destruct (Nat.leb_spec m 10); [lia|];
          destruct (Nat.leb_spec n 12); [reflexivity | lia]|].
  split; [intros m n H1 H2; destruct (Nat.leb_spec m 10); [lia|];
          destruct (Nat.leb_spec n 12); [lia | reflexivity]|].
  split; [reflexivity|].
  split; [reflexivity|].
  split; [intros m H; destruct (Nat.leb_spec m 10); [lia | reflexivity]|].
  intros c i p v. split.
  - pose proof (Nat.div_mod_eq i 2).
    pose proof (Nat.mod_upper_bound i 2). lia.
  - apply playerMove_phases.
Qed.

(** *** Brilliant moves *)

(** A delta without a tier is within half a pawn of zero. *)
Lemma classifyMistake_None (d : Q) :
  classifyMistake d = None -> Qabs d < 0.5.
Proof.
  unfold classifyMistake.
  destruct (geb (Qabs d) 3); [discriminate|].
  destruct (geb (Qabs d) 1.5); [discriminate|].
  destruct (geb (Qabs d) 0.5) eqn:E; [discriminate|].
  intros _. now apply geb_false.
Qed.

Lemma not_brilliant (d : Q) :
  classifyMistake d = None -> ltb d (-1) = false.
Proof.
  intro H. apply classifyMistake_None in H.
  apply ltb_false. revert H. apply Qabs_case; intros; lra.
Qed.

Lemma playerMove_brilliantMoves playerColor i p v :
  Loop.brilliantMoves (playerMove playerColor i p v) = Loop.brilliantMoves v.
Proof.
  unfold playerMove.
  destruct (classifyMistake _) eqn:E; [reflexivity|].
  cbn [Loop.brilliantMoves]. now rewrite (not_brilliant _ E).
Qed.

Lemma loop_brilliantMoves playerColor history :
  forall i v,
    Loop.brilliantMoves (loop playerColor i history v) = Loop.brilliantMoves v.
Proof.
  induction history as [|p rest IH]; intros i v; [reflexivity|].
  cbn [loop]. rewrite IH. unfold iteration.
  destruct (negb (isPlayerMove playerColor i)); [reflexivity|].
  apply playerMove_brilliantMoves.
Qed.

(** C10.  The report of [analyzeGame] never counts a brilliant move: the
    branch that counts one needs a delta with no tier, hence of absolute
    value below 0.5, that is also below -1. *)
Theorem analyzeGame_brilliantMoves :
  forall (history : list Ply) (playerColor : Color),
    brilliantMoves (analyzeGame history playerColor) = 0%nat.
Proof.
  intros history playerColor. unfold analyzeGame, report.
  cbn [brilliantMoves]. now rewrite loop_brilliantMoves.
Qed.

(** *** Perspective *)

(** For Black with both raw scores negated the delta is, on the nose, the
    delta for White. *)
Lemma evalDropOf_mirror (previousEval evalAfterMove : Q) :
  evalDropOf black (- previousEval) (- evalAfterMove) =
  evalDropOf white previousEval evalAfterMove.
Proof.
  unfold evalDropOf, adjusted. simpl. now rewrite !Qopp_opp_eq.
Qed.

Lemma isPlayerMove_shift (i : nat) :
  isPlayerMove black (S i) = isPlayerMove white i.
Proof.
  unfold isPlayerMove. cbn [isWhite isBlack andb orb].
  rewrite orb_false_r.
  pose proof (Nat.div_mod_eq i 2).
  pose proof (Nat.div_mod_eq (S i) 2).
  pose proof (Nat.mod_upper_bound i 2).
  pose proof (Nat.mod_upper_bound (S i) 2).
  destruct (Nat.eqb_spec (S i mod 2) 1);
    destruct (Nat.eqb_spec (i mod 2) 0); try reflexivity; lia.
Qed.

Lemma playerMove_mirror (i j : nat) (p : Ply) (v : Loop.Vars) :
  (i / 2 = j / 2)%nat ->
  playerMove black j (mirrorPly p) (mirrorVars v) =
  mirrorVars (playerMove white i p v).
Proof.
  intro H. unfold playerMove.
  cbn [mirrorPly mirrorVars afterMove analysis Loop.previousEval negated
       Engine.setEvaluation Engine.evaluation Engine.move pieces san
       fenBeforeMove Loop.blunders Loop.mistakes Loop.inaccuracies
       Loop.brilliantMoves Loop.mistakesList Loop.totalMoves
       Loop.totalAccuracy Loop.phases].
  rewrite evalDropOf_mirror, H.
  unfold adjusted. cbn [isWhite]. rewrite !Qopp_opp_eq.
  destruct (classifyMistake _); reflexivity.
Qed.

Lemma loop_mirror (history : list Ply) :
  forall i v,
    loop black (S i) (map mirrorPly history) (mirrorVars v) =
    mirrorVars (loop white i history v).
Proof.
  induction history as [|p rest IH]; intros i v; [reflexivity|].
  cbn [loop map]. rewrite <- IH. f_equal.
  unfold iteration. rewrite isPlayerMove_shift.
  destruct (isPlayerMove white i) eqn:E; [|reflexivity].
  cbn [negb]. apply playerMove_mirror.
  unfold isPlayerMove in E. cbn [isWhite isBlack andb orb] in E.
  rewrite orb_false_r in E. apply Nat.eqb_eq in E.
  pose proof (Nat.div_mod_eq i 2) as Hi.
  pose proof (Nat.div_mod_eq (S i) 2) as Hs.
  pose proof (Nat.mod_upper_bound (S i) 2). lia.
Qed.

(** C8.  For every pair of raw engine scores the tier and the accuracy
    of the ply are the same for White as for Black with both scores
    negated.  The whole report agrees as well: a game analysed for White,
    and the same plies set one ply later with every raw score negated and
    analysed for Black, give equal reports. *)
Theorem classifier_perspective_symmetric :
  forall previousEval evalAfterMove : Q,
    classifyMistake (evalDropOf white previousEval evalAfterMove) =
    classifyMistake (evalDropOf black (- previousEval) (- evalAfterMove)) /\
    moveAccuracyOf (evalDropOf white previousEval evalAfterMove) =
    moveAccuracyOf (evalDropOf black (- previousEval) (- evalAfterMove)) /\
    (forall (history : list Ply) (first : Ply),
       analyzeGame (first :: map mirrorPly history) black =
       analyzeGame history white).
Proof.
  intros prev after. rewrite evalDropOf_mirror.
  split; [reflexivity|]. split; [reflexivity|].
  intros history first. unfold analyzeGame. cbn [loop].
  change (iteration black 0 first vars0) with (mirrorVars vars0).
  now rewrite loop_mirror.
Qed.

(** *** Where the delta comes from *)

Lemma loop_app playerColor (l1 l2 : list Ply) :
  forall i v,
    loop playerColor i (l1 ++ l2) v =
    loop playerColor (i + List.length l1) l2 (loop playerColor i l1 v).
Proof.
  induction l1 as [|p l1 IH]; intros i v; cbn [loop app List.length].
  - now rewrite Nat.add_0_r.
  - rewrite IH. now rewrite Nat.add_succ_r.
Qed.

Lemma last_cons_default {A : Type} (l : list A) (x d : A) :
  last (x :: l) d = last l x.
Proof.
  revert x d. induction l as [|y l IH]; intros x d; [reflexivity|].
  change (last (x :: y :: l) d) with (last (y :: l) d).
  now rewrite !IH.
Qed.

Lemma playerMove_previousEval playerColor i p v :
  Loop.previousEval (playerMove playerColor i p v) =
  Engine.evaluation (afterMove p).
Proof.
  unfold playerMove. destruct (classifyMistake _); reflexivity.
Qed.

Lemma loop_previousEval playerColor (pre : list Ply) :
  forall i v,
    Loop.previousEval (loop playerColor i pre v) =
    last (map (fun p => Engine.evaluation (afterMove p))
            (playerPlies playerColor i pre)) (Loop.previousEval v).
Proof.
  induction pre as [|p rest IH]; intros i v; [reflexivity|].
  cbn [loop playerPlies]. rewrite IH. unfold iteration.
  destruct (isPlayerMove playerColor i); cbn [negb]; [|reflexivity].
  rewrite playerMove_previousEval. cbn [map].
  now rewrite last_cons_default.
Qed.

(** C1, as the code has it.  At every ply of the tracked player the
    delta is the previous score minus the score after the move for White,
    and the negated previous score minus the negated score after the move
    for Black.  The previous score is what [evaluatePosition] returned
    after the player's own previous move, and 0 at the player's first
    move.  This delta sets the accuracy added to the total and the tier
    recorded, a record keeps the two re-expressed scores, and the score
    after the move becomes the previous score of the player's next move.
    The score of [analyze] on the position before the move does not
    enter: whatever it is, the iteration ends in the same values. *)
Theorem delta_from_previous_after_move :
  forall (playerColor : Color) (pre : list Ply) (p : Ply),
    isPlayerMove playerColor (List.length pre) = true ->
    let v := loop playerColor 0 pre vars0 in
    let v' := iteration playerColor (List.length pre) p v in
    let previous := latestAfterMove playerColor pre in
    let after := Engine.evaluation (afterMove p) in
    let delta :=
      match playerColor with
      | white => previous - after
      | black => (- previous) - (- after)
      end in
    Loop.previousEval v = previous /\
    evalDropOf playerColor (Loop.previousEval v) after = delta /\
    Loop.totalAccuracy v' = Loop.totalAccuracy v + moveAccuracyOf delta /\
    severities (Loop.mistakesList v') =
      severities (Loop.mistakesList v) ++
      match classifyMistake delta with Some s => [s] | None => [] end /\
    map (fun m => (previousEval m, evaluation m)) (Loop.mistakesList v') =
      map (fun m => (previousEval m, evaluation m)) (Loop.mistakesList v) ++
      match classifyMistake delta with
      | Some _ =>
          [match playerColor with
           | white => (previous, after)
           | black => (- previous, - after)
           end]
      | None => []
      end /\
    Loop.previousEval v' = after /\
    (forall q : Q,
       iteration playerColor (List.length pre) (withAnalysisScore q p) v
       = v') /\
    (forall post : list Ply,
       loop playerColor 0 (pre ++ p :: post) vars0 =
       loop playerColor (S (List.length pre)) post v').
Proof.
  intros c pre p H v v' previous after delta.
  assert (Hprev : Loop.previousEval v = previous).
  { unfold v, previous, latestAfterMove. now rewrite loop_previousEval. }
  assert (Hv' : v' = playerMove c (List.length pre) p v).
  { unfold v', iteration. now rewrite H. }
  assert (Hd : evalDropOf c (Loop.previousEval v) after = delta).
  { rewrite Hprev. unfold delta. now destruct c. }
  split; [exact Hprev|]. split; [exact Hd|].
  rewrite <- Hd, Hv'.
  split; [apply playerMove_totalAccuracy|].
  split; [apply playerMove_severities|].
  split.
  { unfold playerMove. fold after.
    destruct (classifyMistake (evalDropOf c (Loop.previousEval v) after));
      cbn [Loop.mistakesList]; [|now rewrite app_nil_r].
    rewrite map_app. cbn [map previousEval evaluation]. rewrite Hprev.
    now destruct c. }
  split; [apply playerMove_previousEval|].
  split; [intro q; rewrite <- Hv'; reflexivity|].
  intro post. rewrite loop_app. cbn [loop]. rewrite <- Hv'.
  now rewrite Nat.add_0_l.
Qed.

(** Black's second ply 2... Nc6 of the game 1. e4 e5 2. Nf3 Nc6: the
    previous score is the +0.25 returned after 1... e5, the score after
    the move is +1.25, and the delta is -0.25 - (-1.25) = 1: an
    inaccuracy of accuracy 80. *)
Lemma delta_from_previous_after_move_at_nc6 :
  (let pre := [plyE4; plyE5; plyNf3] in
   let p := plyNc6 in
   let v := loop black 0 pre vars0 in
   let v' := iteration black (List.length pre) p v in
   let previous := latestAfterMove black pre in
   let after := Engine.evaluation (afterMove p) in
   let delta := (- previous) - (- after) in
   Loop.previousEval v = previous /\
   evalDropOf black (Loop.previousEval v) after = delta /\
   Loop.totalAccuracy v' = Loop.totalAccuracy v + moveAccuracyOf delta /\
   severities (Loop.mistakesList v') =
     severities (Loop.mistakesList v) ++
     match classifyMistake delta with Some s => [s] | None => [] end /\
   map (fun m => (previousEval m, evaluation m)) (Loop.mistakesList v') =
     map (fun m => (previousEval m, evaluation m)) (Loop.mistakesList v) ++
     match classifyMistake delta with
     | Some _ => [(- previous, - after)]
     | None => []
     end /\
   Loop.previousEval v' = after /\
   (forall q : Q,
      iteration black (List.length pre) (withAnalysisScore q p) v = v') /\
   (forall post : list Ply,
      loop black 0 (pre ++ p :: post) vars0 =
      loop black (S (List.length pre)) post v')) /\
  latestAfterMove black [plyE4; plyE5; plyNf3] = 0.25 /\
  (- latestAfterMove black [plyE4; plyE5; plyNf3])
  - (- Engine.evaluation (afterMove plyNc6)) == 1 /\
  classifyMistake
    ((- latestAfterMove black [plyE4; plyE5; plyNf3])
     - (- Engine.evaluation (afterMove plyNc6))) = Some inaccuracy /\
  moveAccuracyOf
    ((- latestAfterMove black [plyE4; plyE5; plyNf3])
     - (- Engine.evaluation (afterMove plyNc6))) == 80.
Proof.
  split.
  - apply (delta_from_previous_after_move black [plyE4; plyE5; plyNf3]
             plyNc6).
    reflexivity.
  - repeat split; reflexivity.
Defined.

(** C1, as the specification words it, fails at Black's second ply
    2... Nc6 of that game, where [analyze] scores the position before
    the move at +5 and [evaluatePosition] scores the position after it at
    +1.25.  The stated delta is -5 - (-1.25) = -3.75, a blunder by its
    absolute value, of accuracy 100.  The loop's delta is
    -0.25 - (-1.25) = 1: the report has no blunder, one inaccuracy, and an
    average accuracy of 87.5 over Black's two plies (95 and 80). *)
Lemma delta_is_not_analyze_minus_after :
  isPlayerMove black 3 = true /\
  specDelta black plyNc6 == -3.75 /\
  classifyMistake (specDelta black plyNc6) = Some blunder /\
  moveAccuracyOf (specDelta black plyNc6) == 100 /\
  evalDropOf black
    (Loop.previousEval (loop black 0 [plyE4; plyE5; plyNf3] vars0))
    (Engine.evaluation (afterMove plyNc6)) == 1 /\
  ~ (evalDropOf black
       (Loop.previousEval (loop black 0 [plyE4; plyE5; plyNf3] vars0))
       (Engine.evaluation (afterMove plyNc6))
     == specDelta black plyNc6) /\
  blunders (analyzeGame [plyE4; plyE5; plyNf3; plyNc6] black) = 0%nat /\
  inaccuracies (analyzeGame [plyE4; plyE5; plyNf3; plyNc6] black) = 1%nat /\
  severities (mistakesList (analyzeGame [plyE4; plyE5; plyNf3; plyNc6] black))
  = [inaccuracy] /\
  averageAccuracy (analyzeGame [plyE4; plyE5; plyNf3; plyNc6] black) == 87.5.
Proof.
  repeat split; try reflexivity; vm_compute; congruence.
Qed.

(** *** The aggregated report *)

Lemma playerMove_counts playerColor i p v :
  Loop.blunders v = countSeverity blunder (Loop.mistakesList v) ->
  Loop.mistakes v = countSeverity mistake (Loop.mistakesList v) ->
  Loop.inaccuracies v = countSeverity inaccuracy (Loop.mistakesList v) ->
  let v' := playerMove playerColor i p v in
  Loop.blunders v' = countSeverity blunder (Loop.mistakesList v') /\
  Loop.mistakes v' = countSeverity mistake (Loop.mistakesList v') /\
  Loop.inaccuracies v' = countSeverity inaccuracy (Loop.mistakesList v').
Proof.
  intros Hb Hm Hi v'. unfold v', playerMove, countSeverity in *.
  destruct (classifyMistake _) as [[| |]|];
    cbn [Loop.blunders Loop.mistakes Loop.inaccuracies Loop.mistakesList];
    rewrite ?filter_app, ?length_app; cbn; lia.
Qed.

Lemma loop_counts playerColor history :
  forall i v,
    Loop.blunders v = countSeverity blunder (Loop.mistakesList v) ->
    Loop.mistakes v = countSeverity mistake (Loop.mistakesList v) ->
    Loop.inaccuracies v = countSeverity inaccuracy (Loop.mistakesList v) ->
    let v' := loop playerColor i history v in
    Loop.blunders v' = countSeverity blunder (Loop.mistakesList v') /\
    Loop.mistakes v' = countSeverity mistake (Loop.mistakesList v') /\
    Loop.inaccuracies v' = countSeverity inaccuracy (Loop.mistakesList v').
Proof.
  induction history as [|p rest IH]; intros i v Hb Hm Hi; [now repeat split|].
  cbn [loop]. unfold iteration.
  destruct (negb (isPlayerMove playerColor i)); [now apply IH|].
  destruct (playerMove_counts playerColor i p v Hb Hm Hi) as (b & m & n).
  now apply IH.
Qed.

Lemma countSeverity_total (l : list MistakeAnalysis) :
  (countSeverity blunder l + countSeverity mistake l
   + countSeverity inaccuracy l = List.length l)%nat.
Proof.
  unfold countSeverity. induction l as [|m l IH]; [reflexivity|].
  cbn [filter List.length]. destruct (severity m); cbn; lia.
Qed.

(** X1.  The three counters of the report count the records of its
    mistake list by severity, so together they count its records. *)
Theorem report_counts_its_mistakes :
  forall (history : list Ply) (playerColor : Color),
    let r := analyzeGame history playerColor in
    blunders r = countSeverity blunder (mistakesList r) /\
    mistakes r = countSeverity mistake (mistakesList r) /\
    inaccuracies r = countSeverity inaccuracy (mistakesList r) /\
    (blunders r + mistakes r + inaccuracies r
     = List.length (mistakesList r))%nat.
Proof.
  intros history c r.
  destruct (loop_counts c history 0 vars0 eq_refl eq_refl eq_refl)
    as (b & m & n).
  unfold r, analyzeGame, report.
  cbn [blunders mistakes inaccuracies mistakesList].
  repeat split; try assumption.
  rewrite b, m, n. apply countSeverity_total.
Qed.

Lemma record_moves ph a ps :
  (moves (inOpening (record ph a ps)) + moves (inMiddlegame (record ph a ps))
   + moves (inEndgame (record ph a ps))
   = S (moves (inOpening ps) + moves (inMiddlegame ps)
        + moves (inEndgame ps)))%nat.
Proof. destruct ph; cbn; lia. Qed.

Lemma loop_moves playerColor history :
  forall i v,
    let total x :=
      (moves (inOpening (Loop.phases x)) + moves (inMiddlegame (Loop.phases x))
       + moves (inEndgame (Loop.phases x)))%nat in
    total (loop playerColor i history v) =
    (total v + List.length (playerPlies playerColor i history))%nat.
Proof.
  induction history as [|p rest IH]; intros i v total; cbn [loop playerPlies].
  - cbn. lia.
  - unfold total in *. rewrite IH. unfold iteration.
    destruct (isPlayerMove playerColor i); cbn [negb List.length]; [|lia].
    rewrite playerMove_phases, record_moves. lia.
Qed.

(** X2.  Every ply of the tracked player is filed under exactly one
    phase: the three move counts of the report add up to the number of
    plies the player made. *)
Theorem phases_partition_the_player_plies :
  forall (history : list Ply) (playerColor : Color),
    let r := analyzeGame history playerColor in
    (moves (openingPhase r) + moves (middlegamePhase r)
     + moves (endgamePhase r)
     = List.length (playerPlies playerColor 0 history))%nat.
Proof.
  intros history c r. unfold r, analyzeGame, report, finish.
  cbn [openingPhase middlegamePhase endgamePhase moves].
  now rewrite (loop_moves c history 0 vars0).
Qed.

Lemma inject_succ (n : nat) :
  inject_Z (Z.of_nat (S n)) == inject_Z (Z.of_nat n) + 1.
Proof.
  rewrite Nat2Z.inj_succ. unfold Z.succ. now rewrite inject_Z_plus.
Qed.

Lemma withinPercent_bump (s : PhaseStat) (a : Q) :
  0 <= a -> a <= 100 -> withinPercent s ->
  withinPercent {| accuracy := accuracy s + a; moves := S (moves s) |}.
Proof.
  intros H0 H1 [L U]. unfold withinPercent. cbn [accuracy moves].
  rewrite inject_succ. split; lra.
Qed.

Lemma record_withinPercent ph a ps :
  0 <= a -> a <= 100 ->
  withinPercent (inOpening ps) -> withinPercent (inMiddlegame ps) ->
  withinPercent (inEndgame ps) ->
  withinPercent (inOpening (record ph a ps)) /\
  withinPercent (inMiddlegame (record ph a ps)) /\
  withinPercent (inEndgame (record ph a ps)).
Proof.
  intros H0 H1 Ho Hm He.
  destruct ph; cbn [record inOpening inMiddlegame inEndgame];
    (split; [|split]); try assumption; now apply withinPercent_bump.
Qed.

Lemma playerMove_sums playerColor i p v :
  sumsWithinPercent v -> sumsWithinPercent (playerMove playerColor i p v).
Proof.
  intros (Ht & Ho & Hm & He). unfold sumsWithinPercent.
  rewrite playerMove_phases.
  set (a := moveAccuracyOf _).
  destruct (moveAccuracyOf_range
              (evalDropOf playerColor (Loop.previousEval v)
                 (Engine.evaluation (afterMove p)))) as [A0 A1].
  fold a in A0, A1.
  split; [|now apply record_withinPercent].
  assert (T : Loop.totalMoves (playerMove playerColor i p v)
              = S (Loop.totalMoves v)).
  { unfold playerMove. destruct (classifyMistake _); reflexivity. }
  rewrite playerMove_totalAccuracy, T. fold a.
  exact (withinPercent_bump _ a A0 A1 Ht).
Qed.

Lemma loop_sums playerColor history :
  forall i v,
    sumsWithinPercent v -> sumsWithinPercent (loop playerColor i history v).
Proof.
  induction history as [|p rest IH]; intros i v H; [exact H|].
  cbn [loop]. apply IH. unfold iteration.
  destruct (negb (isPlayerMove playerColor i)); [exact H|].
  now apply playerMove_sums.
Qed.

Lemma average_percent (sum : Q) (n : nat) :
  withinPercent {| accuracy := sum; moves := n |} ->
  0 <= average sum n /\ average sum n <= 100.
Proof.
  intros [L U]. cbn [accuracy moves] in *. unfold average.
  destruct n as [|n]; [cbn; split; lra|].
  cbn [Nat.ltb Nat.leb].
  assert (P : 0 < inject_Z (Z.of_nat (S n))).
  { rewrite inject_succ.
    assert (0 <= inject_Z (Z.of_nat n)).
    { change 0 with (inject_Z 0). rewrite <- Zle_Qle. lia. }
    lra. }
  split.
  - apply Qle_shift_div_l; [exact P | lra].
  - apply Qle_shift_div_r; [exact P | exact U].
Qed.

(** X3.  Every average of the report is a percentage: the overall
    accuracy and the accuracy of each phase lie between 0 and 100. *)
Theorem report_accuracies_are_percentages :
  forall (history : list Ply) (playerColor : Color),
    let r := analyzeGame history playerColor in
    (0 <= averageAccuracy r /\ averageAccuracy r <= 100) /\
    (0 <= accuracy (openingPhase r) /\ accuracy (openingPhase r) <= 100) /\
    (0 <= accuracy (middlegamePhase r) /\
     accuracy (middlegamePhase r) <= 100) /\
    (0 <= accuracy (endgamePhase r) /\ accuracy (endgamePhase r) <= 100).
Proof.
  intros history c r.
  assert (H0 : sumsWithinPercent vars0).
  { unfold sumsWithinPercent, withinPercent.
    split; [|split; [|split]]; split; vm_compute; discriminate. }
  destruct (loop_sums c history 0 vars0 H0) as (Ht & Ho & Hm & He).
  unfold r, analyzeGame, report, finish.
  cbn [averageAccuracy openingPhase middlegamePhase endgamePhase accuracy].
  split; [now apply average_percent|].
  split; [apply average_percent; now destruct (inOpening _)|].
  split; [apply average_percent; now destruct (inMiddlegame _)|].
  apply average_percent; now destruct (inEndgame _).
Qed.

End AnalyzerFacts.

(* ================================================================== *)
(** ** Properties of the adapter *)
(* ================================================================== *)

Module EngineFacts.

Import JS Engine Stated.
Local Open Scope string_scope.
Local Open Scope Q_scope.

(** *** Reading a score line *)

Lemma onInfo_mate (message value : string) (c : EngineMove) :
  scoreMatch message = Some ("mate", value) ->
  let m := parseInt value in
  mate (onInfo message c) = Some m /\
  evaluation (onInfo message c) = (if (0 <? m)%Z then 100 else -100).
Proof.
  intros H m. unfold onInfo. rewrite H.
  destruct (pvMatch message); split; reflexivity.
Qed.

(** A line cannot start with both ['info depth'] and ['bestmove']. *)
Lemma startsWith_exclusive (message : string) :
  startsWith message "bestmove" = true ->
  startsWith message "info depth" = false.
Proof.
  unfold startsWith. destruct message as [|a s]; [discriminate|].
  cbn [String.prefix].
  destruct (ascii_dec "b" a) as [<-|]; [reflexivity | discriminate].
Qed.

(** *** Updating a list in place *)

Lemma length_update {A : Type} (n : nat) (f : A -> A) (l : list A) :
  List.length (update n f l) = List.length l.
Proof.
  revert n. induction l as [|x l IH]; intros [|n]; cbn; auto.
Qed.

Lemma nth_error_update_eq {A : Type} (n : nat) (f : A -> A) (l : list A) :
  nth_error (update n f l) n = option_map f (nth_error l n).
Proof.
  revert n. induction l as [|x l IH]; intros [|n]; cbn; auto.
Qed.

Lemma nth_error_update_neq {A : Type} (n m : nat) (f : A -> A) (l : list A) :
  n <> m -> nth_error (update n f l) m = nth_error l m.
Proof.
  revert n m. induction l as [|x l IH]; intros [|n] [|m] H; cbn; auto.
  congruence.
Qed.

(** *** What each primitive leaves alone *)

Lemma send_fields command e :
  worker (send command e) = worker e /\
  ready (send command e) = ready e /\
  messageQueue (send command e) = messageQueue e /\
  window (send command e) = window e /\
  promises (send command e) = promises e /\
  List.length (workers (send command e)) = List.length (workers e).
Proof.
  unfold send. destruct (worker e) as [w|] eqn:E; cbn; rewrite ?E;
    repeat split; auto.
  apply length_update.
Qed.

Lemma conduit_send command e w :
  worker e = Some w -> (w < List.length (workers e))%nat ->
  conduit (send command e) w = (conduit e w ++ [command])%list.
Proof.
  intros Hw Hlt. unfold send, conduit, postMessage. rewrite Hw. cbn.
  rewrite nth_error_update_eq.
  destruct (nth_error (workers e) w) eqn:E; [reflexivity|].
  apply nth_error_None in E. lia.
Qed.

Lemma executor_fields r e :
  worker (executor r e) = worker e /\
  ready (executor r e) = ready e /\
  window (executor r e) = window e /\
  promises (executor r e) = promises e /\
  List.length (workers (executor r e)) = List.length (workers e) /\
  messageQueue (executor r e) =
    (messageQueue e ++ [{| request := reqId r; closure := closure0 |}])%list.
Proof.
  unfold executor.
  set (e1 := setQueue _ e).
  set (c1 := "position fen " ++ reqFen r).
  set (c2 := "go depth " ++ numberToString (reqDepth r)).
  destruct (send_fields c1 e1) as (a1 & a2 & a3 & a4 & a5 & a6).
  destruct (send_fields c2 (send c1 e1)) as (b1 & b2 & b3 & b4 & b5 & b6).
  rewrite b1, b2, b3, b4, b5, b6, a1, a2, a3, a4, a5, a6.
  repeat split.
Qed.

Lemma conduit_executor r e w :
  worker e = Some w -> (w < List.length (workers e))%nat ->
  conduit (executor r e) w =
  (conduit e w ++
     [("position fen " ++ reqFen r)%string;
      ("go depth " ++ numberToString (reqDepth r))%string])%list.
Proof.
  intros Hw Hlt. unfold executor.
  set (e1 := setQueue _ e).
  assert (H1 : worker e1 = Some w) by exact Hw.
  assert (L1 : (w < List.length (workers e1))%nat) by exact Hlt.
  destruct (send_fields ("position fen " ++ reqFen r) e1)
    as (Hw2 & _ & _ & _ & _ & L2).
  rewrite conduit_send by (rewrite ?Hw2, ?L2; assumption).
  rewrite conduit_send by assumption.
  now rewrite <- app_assoc.
Qed.

(** *** Two invariants of every run *)

Lemma Forall_update {A : Type} (P : A -> Prop) (n : nat) (f : A -> A)
  (l : list A) :
  (forall x, P x -> P (f x)) -> Forall P l -> Forall P (update n f l).
Proof.
  intros Hf H. revert n.
  induction H as [|x l Hx Hl IH]; intros [|n]; cbn; constructor; auto.
Qed.

Lemma alike_refl e : alike e e.
Proof. repeat split. Qed.

Lemma alike_trans e1 e2 e3 : alike e1 e2 -> alike e2 e3 -> alike e1 e3.
Proof.
  intros (a1 & a2 & a3) (b1 & b2 & b3). repeat split; congruence.
Qed.

Lemma alike_send command e : alike e (send command e).
Proof.
  destruct (send_fields command e) as (a1 & _ & _ & _ & a5 & a6).
  repeat split; assumption.
Qed.

Lemma alike_executor r e : alike e (executor r e).
Proof.
  destruct (executor_fields r e) as (a1 & _ & _ & a4 & a5 & _).
  repeat split; assumption.
Qed.

Lemma alike_resume k e : alike e (resume k e).
Proof.
  destruct k; [apply alike_refl | apply alike_executor].
Qed.

Lemma alike_bounded e e' : alike e e' -> bounded e -> bounded e'.
Proof.
  intros (a1 & a2 & _) H w Hw. rewrite a2. apply H. congruence.
Qed.

Lemma alike_unrejected e e' : alike e e' -> unrejected e -> unrejected e'.
Proof.
  intros (_ & _ & a3) H. unfold unrejected. now rewrite a3.
Qed.

Lemma initialize_invariant k e :
  bounded e -> unrejected e ->
  bounded (initialize k e) /\ unrejected (initialize k e).
Proof.
  intros Hb Hu. unfold initialize.
  destruct (negb (window e)).
  - split; [eapply alike_bounded | eapply alike_unrejected];
      eauto using alike_resume.
  - set (e1 := setWorker _ _).
    split; [eapply alike_bounded | eapply alike_unrejected];
      try apply alike_send.
    + intros w Hw. cbn in Hw. injection Hw as <-. cbn.
      rewrite length_app. cbn. lia.
    + exact Hu.
Qed.

Lemma analyze_invariant o fen d e :
  bounded e -> unrejected e ->
  bounded (analyze o fen d e) /\ unrejected (analyze o fen d e).
Proof.
  intros Hb Hu. unfold analyze.
  set (e1 := setPromises _ e).
  assert (Hb1 : bounded e1) by exact Hb.
  assert (Hu1 : unrejected e1).
  { unfold unrejected, e1. cbn. apply Forall_app. split; [exact Hu|].
    constructor; [reflexivity | constructor]. }
  destruct (ready e).
  - split; [eapply alike_bounded | eapply alike_unrejected];
      eauto using alike_executor.
  - now apply initialize_invariant.
Qed.

Lemma resolve_invariant i result e :
  bounded e -> unrejected e ->
  bounded (resolve i result e) /\ unrejected (resolve i result e).
Proof.
  intros Hb Hu. split; [exact Hb|].
  unfold unrejected, resolve. cbn. apply Forall_update; [|exact Hu].
  intros [o p] H. cbn in *. destruct p; cbn in *; congruence.
Qed.

Lemma dispatch_invariant h message e :
  bounded e -> unrejected e ->
  bounded (dispatch h message e) /\ unrejected (dispatch h message e).
Proof.
  intros Hb Hu. unfold dispatch.
  destruct (messageHandler (closure h) message) as [c [result| |]].
  - now apply resolve_invariant.
  - split; [exact Hb | exact Hu].
  - split; [exact Hb | exact Hu].
Qed.

Lemma onmessage_invariant w message e :
  bounded e -> unrejected e ->
  bounded (onmessage w message e) /\ unrejected (onmessage w message e).
Proof.
  intros Hb Hu. unfold onmessage.
  destruct (nth_error (workers e) w) as [k|]; [|now split].
  destruct (terminated k); [now split|].
  set (e1 := if String.eqb message "uciok" then _ else e).
  assert (H1 : bounded e1 /\ unrejected e1).
  { unfold e1. destruct (String.eqb message "uciok"); [|now split].
    assert (A : alike e
              (send "setoption name Hash value 128"
                 (send "setoption name Threads value 2" (setReady true e)))).
    { eapply alike_trans; [|apply alike_send].
      eapply alike_trans; [|apply alike_send]. repeat split. }
    split.
    - intros x Hx. cbn in Hx |- *. rewrite length_update.
      destruct A as (a1 & a2 & _). rewrite a2. apply Hb. congruence.
    - unfold unrejected. cbn. destruct A as (_ & _ & a3). now rewrite a3. }
  destruct H1 as [Hb1 Hu1].
  set (e2 := match messageQueue e1 with [] => e1 | _ => _ end).
  assert (H2 : bounded e2 /\ unrejected e2).
  { unfold e2. destruct (messageQueue e1) as [|h rest]; [now split|].
    apply dispatch_invariant; assumption. }
  destruct H2 as [Hb2 Hu2].
  destruct (_ && _); [|now split].
  split; [eapply alike_bounded | eapply alike_unrejected];
    eauto using alike_resume.
Qed.

Lemma terminate_invariant e :
  bounded e -> unrejected e ->
  bounded (terminate e) /\ unrejected (terminate e).
Proof.
  intros Hb Hu. unfold terminate.
  destruct (worker e); [|now split].
  split; [intros w Hw; discriminate | exact Hu].
Qed.

Lemma step_invariant e ev :
  bounded e -> unrejected e ->
  bounded (step e ev) /\ unrejected (step e ev).
Proof.
  destruct ev; cbn [step].
  - apply initialize_invariant.
  - apply analyze_invariant.
  - apply terminate_invariant.
  - apply onmessage_invariant.
Qed.

Lemma run_invariant evs :
  forall e, bounded e -> unrejected e ->
            bounded (run e evs) /\ unrejected (run e evs).
Proof.
  induction evs as [|ev evs IH]; intros e Hb Hu; [now split|].
  cbn [run fold_left].
  destruct (step_invariant e ev Hb Hu) as [Hb' Hu'].
  now apply IH.
Qed.

Lemma reachable_invariant hasWindow evs :
  bounded (run (create hasWindow) evs) /\
  unrejected (run (create hasWindow) evs).
Proof.
  apply run_invariant; [intros w H; discriminate | constructor].
Qed.

(** *** Submitting *)

(** A call on a ready channel: the Promise is appended, the handler is
    queued, and the two commands are on the conduit when the call
    returns. *)
Lemma analyze_ready o fen d e w :
  ready e = true -> worker e = Some w ->
  (w < List.length (workers e))%nat ->
  let e' := analyze o fen d e in
  ready e' = true /\ worker e' = Some w /\
  List.length (workers e') = List.length (workers e) /\
  promises e' = (promises e ++ [(o, Pending)])%list /\
  messageQueue e' =
    (messageQueue e ++
       [{| request := List.length (promises e); closure := closure0 |}])%list /\
  conduit e' w =
    (conduit e w ++
       [("position fen " ++ fen)%string;
        ("go depth " ++ numberToString (depthArg o d))%string])%list.
Proof.
  intros Hr Hw Hlt e'. unfold e', analyze. rewrite Hr.
  set (r := {| reqId := _; reqFen := fen; reqDepth := _ |}).
  set (e1 := setPromises _ e).
  destruct (executor_fields r e1) as (a1 & a2 & a3 & a4 & a5 & a6).
  rewrite a1, a2, a4, a5, a6.
  repeat split; try assumption.
  now rewrite (conduit_executor r e1 w Hw Hlt).
Qed.

(** A command goes to [this.worker] and to no other Worker. *)
Lemma conduit_send_other command e k :
  worker e <> Some k -> conduit (send command e) k = conduit e k.
Proof.
  intro N. unfold send. destruct (worker e) as [w|]; [|reflexivity].
  unfold conduit, postMessage. cbn [workers setWorkers].
  rewrite nth_error_update_neq; [reflexivity|]. congruence.
Qed.

Lemma conduit_executor_other r e k :
  worker e <> Some k -> conduit (executor r e) k = conduit e k.
Proof.
  intro N. unfold executor.
  set (e1 := setQueue _ e).
  assert (N1 : worker e1 <> Some k) by exact N.
  destruct (send_fields ("position fen " ++ reqFen r) e1) as (W & _).
  rewrite conduit_send_other by (rewrite W; exact N1).
  now rewrite conduit_send_other.
Qed.

(** A call on a ready channel, whether a Worker is attached or not: the
    Promise is appended and the handler queued during the call, and no
    Worker but [this.worker] is written to. *)
Lemma analyze_ready_queue o fen d e :
  ready e = true ->
  let e' := analyze o fen d e in
  ready e' = true /\ worker e' = worker e /\
  promises e' = (promises e ++ [(o, Pending)])%list /\
  messageQueue e' =
    (messageQueue e ++
       [{| request := List.length (promises e); closure := closure0 |}])%list /\
  (forall k, worker e <> Some k -> conduit e' k = conduit e k).
Proof.
  intros Hr e'. unfold e', analyze. rewrite Hr.
  set (r := {| reqId := _; reqFen := fen; reqDepth := _ |}).
  set (e1 := setPromises _ e).
  destruct (executor_fields r e1) as (a1 & a2 & a3 & a4 & a5 & a6).
  rewrite a1, a2, a4, a6.
  repeat split; try assumption.
  intros k N. now rewrite conduit_executor_other.
Qed.

(** C4, as the code has it.  On a ready channel every submit queues its
    handler during the call itself and, when a Worker is attached, writes
    its two command lines to it in the same call, whatever the state of
    the Futures before it; no other Worker is written to, so with no
    Worker attached nothing is written at all.  Two submits issued back
    to back therefore leave the first request's lines followed by the
    second's on the conduit and their handlers queued in that order,
    while both Futures are still pending. *)
Theorem submits_write_at_once :
  forall (hasWindow : bool) (evs : list Event)
         (o1 o2 : Op) (fen1 fen2 : string) (d1 d2 : option Z),
    let e := run (create hasWindow) evs in
    ready e = true ->
    let i := List.length (promises e) in
    let e' := run e [Call o1 fen1 d1; Call o2 fen2 d2] in
    (forall w, worker e = Some w ->
       conduit e' w =
         (conduit e w ++
            [("position fen " ++ fen1)%string;
             ("go depth " ++ numberToString (depthArg o1 d1))%string;
             ("position fen " ++ fen2)%string;
             ("go depth " ++ numberToString (depthArg o2 d2))%string])%list) /\
    (forall k, worker e <> Some k -> conduit e' k = conduit e k) /\
    messageQueue e' =
      (messageQueue e ++
         [{| request := i; closure := closure0 |};
          {| request := S i; closure := closure0 |}])%list /\
    future e' i = Some Pending /\
    future e' (S i) = Some Pending.
Proof.
  intros hasWindow evs o1 o2 fen1 fen2 d1 d2 e Hr i e'.
  destruct (reachable_invariant hasWindow evs) as [Hb _]. fold e in Hb.
  destruct (analyze_ready_queue o1 fen1 d1 e Hr) as (r1 & w1 & p1 & q1 & n1).
  destruct (analyze_ready_queue o2 fen2 d2 (analyze o1 fen1 d1 e) r1)
    as (r2 & w2 & p2 & q2 & n2).
  change e' with (analyze o2 fen2 d2 (analyze o1 fen1 d1 e)).
  split; [|split; [|split; [|split]]].
  - intros w Hw. pose proof (Hb w Hw) as Hlt.
    destruct (analyze_ready o1 fen1 d1 e w Hr Hw Hlt)
      as (_ & w1' & l1 & _ & _ & c1).
    rewrite <- l1 in Hlt.
    destruct (analyze_ready o2 fen2 d2 (analyze o1 fen1 d1 e) w r1 w1' Hlt)
      as (_ & _ & _ & _ & _ & c2).
    rewrite c2, c1, <- !app_assoc. reflexivity.
  - intros k N. rewrite n2 by (rewrite w1; exact N). now apply n1.
  - rewrite q2, q1, p1, <- !app_assoc. cbn [app].
    rewrite length_app. cbn [List.length]. now rewrite Nat.add_1_r.
  - unfold future. rewrite p2, p1, <- app_assoc. cbn [app].
    rewrite nth_error_app2 by (unfold i; lia).
    unfold i. now rewrite Nat.sub_diag.
  - unfold future. rewrite p2, p1, <- app_assoc. cbn [app].
    rewrite nth_error_app2 by (unfold i; lia).
    unfold i. now replace (S _ - _)%nat with 1%nat by lia.
Qed.

Lemma submits_write_at_once_started :
  let e := run (create true) [Initialize; Message 0 "uciok"] in
  let i := List.length (promises e) in
  let e' :=
    run e [Call OpAnalyze startFen (Some 15%Z);
           Call OpEvaluatePosition e4Fen (Some 12%Z)] in
  (forall w, worker e = Some w ->
     conduit e' w =
       (conduit e w ++
          [("position fen " ++ startFen)%string;
           ("go depth "
            ++ numberToString (depthArg OpAnalyze (Some 15%Z)))%string;
           ("position fen " ++ e4Fen)%string;
           ("go depth "
            ++ numberToString
                 (depthArg OpEvaluatePosition (Some 12%Z)))%string])%list) /\
  (forall k, worker e <> Some k -> conduit e' k = conduit e k) /\
  messageQueue e' =
    (messageQueue e ++
       [{| request := i; closure := closure0 |};
        {| request := S i; closure := closure0 |}])%list /\
  future e' i = Some Pending /\
  future e' (S i) = Some Pending.
Proof.
  apply (submits_write_at_once true [Initialize; Message 0 "uciok"]
           OpAnalyze OpEvaluatePosition startFen e4Fen
           (Some 15%Z) (Some 12%Z)); reflexivity.
Defined.

(** A ready channel need not have a Worker attached.  After a second
    [initialize()] and a [terminate()], the 'uciok' of the first Worker,
    which was never terminated, sets [ready] while [this.worker] is
    null; a submit in that state queues its handler and writes nothing. *)
Example ready_without_worker :
  let e :=
    run (create true) [Initialize; Initialize; Terminate; Message 0 "uciok"]
  in
  let e' := run e [Call OpAnalyze startFen (Some 15%Z)] in
  ready e = true /\ worker e = None /\
  conduit e' 0 = ["uci"] /\ conduit e' 1 = ["uci"] /\
  messageQueue e' = [{| request := 0; closure := closure0 |}] /\
  future e' 0 = Some Pending.
Proof. repeat split. Qed.

(** C4, as the specification words it, fails on a started channel when
    [analyze] of the starting position is followed at once by
    [evaluatePosition] of the position after 1. e4: the second request's
    command lines are on the conduit while the first Future is pending. *)
Lemma second_submit_does_not_wait :
  let e :=
    run started
      [Call OpAnalyze startFen (Some 15%Z);
       Call OpEvaluatePosition e4Fen (Some 12%Z)] in
  conduit e 0 =
    ["uci"; "setoption name Threads value 2";
     "setoption name Hash value 128";
     ("position fen " ++ startFen)%string; "go depth 15";
     ("position fen " ++ e4Fen)%string; "go depth 12"] /\
  future e 0 = Some Pending /\
  ~ servedInOrder e 0 ("position fen " ++ e4Fen).
Proof.
  split; [reflexivity|]. split; [reflexivity|].
  intro H.
  assert (W : written
                (run started
                   [Call OpAnalyze startFen (Some 15%Z);
                    Call OpEvaluatePosition e4Fen (Some 12%Z)])
                ("position fen " ++ e4Fen)).
  { exists 0%nat. vm_compute. tauto. }
  destruct (H W) as (p & Hp & Hs).
  vm_compute in Hp. injection Hp as <-. discriminate Hs.
Qed.

(** The lines of the evaluator are not kept apart either: with two
    requests pending, successive lines go to the two handlers in turn.
    Here the first request is resolved with the score of its own line and
    the second with the mate score of the line in between. *)
Lemma lines_alternate_between_requests :
  let e :=
    run started
      [Call OpAnalyze startFen (Some 15%Z);
       Call OpEvaluatePosition e4Fen (Some 12%Z);
       Message 0 "info depth 1 score cp 30 pv e2e4";
       Message 0 "info depth 2 score mate 1 pv d2d4";
       Message 0 "bestmove e2e4";
       Message 0 "bestmove d2d4"] in
  future e 0 =
    Some (Fulfilled (VMove
      {| move := "e2e4"; evaluation := inject_Z 30 / 100; mate := None;
         depth := 1%Z; pv := ["e2e4"] |})) /\
  future e 1 = Some (Fulfilled (VNumber 100)).
Proof. split; reflexivity. Qed.

(** *** Stopping *)

Lemma terminate_fields e :
  promises (terminate e) = promises e /\
  messageQueue (terminate e) = messageQueue e /\
  List.length (workers (terminate e)) = List.length (workers e).
Proof.
  unfold terminate. destruct (worker e); cbn; repeat split.
  apply length_update.
Qed.

Lemma terminate_silences e w data :
  worker e = Some w -> onmessage w data (terminate e) = terminate e.
Proof.
  intro Hw. unfold onmessage.
  destruct (nth_error (workers (terminate e)) w) as [k|] eqn:E;
    [|reflexivity].
  unfold terminate in E. rewrite Hw in E. cbn in E.
  rewrite nth_error_update_eq in E.
  destruct (nth_error (workers e) w); [|discriminate].
  cbn in E. injection E as <-. reflexivity.
Qed.

(** C5, as the code has it.  [terminate()] settles nothing: every Future
    is after the call what it was before it, so a pending one stays
    pending, neither rejected nor resolved, and its handler stays in the
    queue.  The call clears [this.worker] and [ready], and the Worker it
    stopped delivers no further line. *)
Theorem terminate_settles_nothing :
  forall e : StockfishEngine,
    (forall i, future (terminate e) i = future e i) /\
    messageQueue (terminate e) = messageQueue e /\
    (forall w,
       worker e = Some w ->
       worker (terminate e) = None /\
       ready (terminate e) = false /\
       forall data, onmessage w data (terminate e) = terminate e).
Proof.
  intro e. destruct (terminate_fields e) as (Hp & Hq & _).
  split; [intro i; unfold future; now rewrite Hp|].
  split; [exact Hq|].
  intros w Hw. split; [|split].
  - unfold terminate. now rewrite Hw.
  - unfold terminate. now rewrite Hw.
  - intro data. now apply terminate_silences.
Qed.

(** C5, as the specification words it, fails on a started channel that
    is stopped while [analyze] of the starting position is pending: the
    Future is still pending after [terminate()], not rejected with
    EngineTerminated. *)
Lemma stop_leaves_future_pending :
  let e := run started [Call OpAnalyze startFen (Some 15%Z)] in
  future e 0 = Some Pending /\
  future (run e [Terminate]) 0 = Some Pending /\
  future (run e [Terminate]) 0 <> Some (Rejected "EngineTerminated").
Proof.
  split; [reflexivity|]. split; [reflexivity|].
  vm_compute. discriminate.
Qed.

(** *** Failing *)

Lemma future_unrejected e i p :
  unrejected e -> future e i = Some p -> isRejected p = false.
Proof.
  intros Hu Hf. unfold future in Hf.
  destruct (nth_error (promises e) i) as [[o q]|] eqn:E; [|discriminate].
  apply nth_error_In in E.
  unfold unrejected in Hu. rewrite Forall_forall in Hu.
  specialize (Hu _ E). cbn in Hu.
  destruct q; cbn in Hu; try discriminate; injection Hf as <-; reflexivity.
Qed.

(** A call on a channel that is not ready, in a browser: [initialize()]
    runs again. *)
Lemma analyze_unready_window o fen d e :
  ready e = false -> window e = true ->
  let e' := analyze o fen d e in
  let w := List.length (workers e) in
  worker e' = Some w /\
  conduit e' w = ["uci"] /\
  ready e' = false /\
  messageQueue e' = messageQueue e /\
  future e' (List.length (promises e)) = Some Pending.
Proof.
  intros Hr Hw e' w. unfold e', analyze, initialize. rewrite Hr.
  cbn [window setPromises]. rewrite Hw. cbn [negb].
  set (e1 := setWorker _ _).
  assert (W1 : worker e1 = Some w) by reflexivity.
  assert (L1 : (w < List.length (workers e1))%nat).
  { cbn. rewrite length_app. cbn. unfold w. lia. }
  destruct (send_fields "uci" e1) as (a1 & a2 & a3 & _ & a5 & _).
  rewrite a1, a2, a3.
  split; [exact W1|].
  split.
  { rewrite (conduit_send "uci" e1 w W1 L1).
    unfold conduit, e1. cbn.
    rewrite nth_error_app2 by (unfold w; lia).
    unfold w. now rewrite Nat.sub_diag. }
  split; [exact Hr|]. split; [reflexivity|].
  unfold future. rewrite a5. cbn.
  rewrite nth_error_app2 by lia. now rewrite Nat.sub_diag.
Qed.

(** A call on a channel that is not ready, outside a browser:
    [initialize()] returns at once and the executor runs, writing to
    whatever [this.worker] is. *)
Lemma analyze_unready_no_window o fen d e :
  ready e = false -> window e = false ->
  let e' := analyze o fen d e in
  worker e' = worker e /\
  ready e' = false /\
  messageQueue e' =
    (messageQueue e ++
       [{| request := List.length (promises e); closure := closure0 |}])%list /\
  (worker e = None -> workers e' = workers e) /\
  future e' (List.length (promises e)) = Some Pending.
Proof.
  intros Hr Hw e'. unfold e', analyze. rewrite Hr.
  set (r := {| reqId := _; reqFen := fen; reqDepth := _ |}).
  set (e1 := setPromises _ e).
  unfold initialize. change (window e1) with (window e).
  rewrite Hw. cbn [negb resume].
  destruct (executor_fields r e1) as (a1 & a2 & _ & a4 & _ & a6).
  rewrite a1, a2, a6.
  split; [reflexivity|]. split; [exact Hr|]. split; [reflexivity|].
  split.
  - intro Hn. unfold executor, send. subst e1.
    cbn [worker setQueue setPromises]. rewrite Hn.
    cbn [worker setQueue setPromises]. rewrite Hn. reflexivity.
  - unfold future. rewrite a4. cbn.
    rewrite nth_error_app2 by lia. now rewrite Nat.sub_diag.
Qed.

(** C6, as the code has it.  Neither [analyze] nor [evaluatePosition]
    ever fails: after any sequence of calls and Worker messages, no
    Future is rejected, so there is no timeout and no unavailable error;
    a Future is pending until a handler resolves it.  On a stopped
    channel (not ready) a call in a browser starts a new Worker, sends it
    'uci' and stays pending; outside a browser it queues its handler and
    stays pending. *)
Theorem futures_never_fail :
  (forall (hasWindow : bool) (evs : list Event) (i : nat) (p : Promise Value),
     future (run (create hasWindow) evs) i = Some p ->
     isRejected p = false) /\
  (forall (o : Op) (fen : string) (d : option Z) (e : StockfishEngine),
     ready e = false -> window e = true ->
     let e' := analyze o fen d e in
     worker e' = Some (List.length (workers e)) /\
     conduit e' (List.length (workers e)) = ["uci"] /\
     ready e' = false /\
     messageQueue e' = messageQueue e /\
     future e' (List.length (promises e)) = Some Pending) /\
  (forall (o : Op) (fen : string) (d : option Z) (e : StockfishEngine),
     ready e = false -> window e = false ->
     let e' := analyze o fen d e in
     worker e' = worker e /\
     ready e' = false /\
     messageQueue e' =
       (messageQueue e ++
          [{| request := List.length (promises e);
              closure := closure0 |}])%list /\
     (worker e = None -> workers e' = workers e) /\
     future e' (List.length (promises e)) = Some Pending).
Proof.
  split; [|split].
  - intros hasWindow evs i p.
    apply future_unrejected. apply reachable_invariant.
  - intros o fen d e. apply analyze_unready_window.
  - intros o fen d e. apply analyze_unready_no_window.
Qed.

(** C6, as the specification words it, fails on a started channel that
    has been stopped: [evaluatePosition] and [analyze] of the starting
    position do not fail with EngineUnavailable.  Each starts a second
    Worker, sends it 'uci' and returns a pending Future; and with the
    new Worker silent or sending only search lines the Future is never
    rejected with EvaluationTimeout either. *)
Lemma stopped_channel_does_not_fail :
  let stopped := run started [Terminate] in
  let e1 := run stopped [Call OpEvaluatePosition startFen (Some 12%Z)] in
  let e2 := run stopped [Call OpAnalyze startFen (Some 15%Z)] in
  let e3 :=
    run e1 [Message 1 "uciok"; Message 1 "info depth 1 score cp 30";
            Message 1 "info depth 2 score cp 28"] in
  (ready stopped = false /\ worker stopped = None) /\
  (future e1 0 = Some Pending /\
   future e1 0 <> Some (Rejected "EngineUnavailable") /\
   worker e1 = Some 1%nat /\ conduit e1 1 = ["uci"]) /\
  (future e2 0 = Some Pending /\
   future e2 0 <> Some (Rejected "EngineUnavailable") /\
   worker e2 = Some 1%nat /\ conduit e2 1 = ["uci"]) /\
  (future e3 0 = Some Pending /\
   future e3 0 <> Some (Rejected "EvaluationTimeout")).
Proof.
  repeat split; try reflexivity; vm_compute; discriminate.
Qed.

(** *** Serving one request *)

Lemma alive_send command e w : alive e w -> alive (send command e) w.
Proof.
  intros (k & Hk & Ht). unfold alive, send.
  destruct (worker e) as [x|]; [|now exists k].
  unfold postMessage. cbn [workers setWorkers].
  destruct (Nat.eq_dec x w) as [->|N].
  - rewrite nth_error_update_eq, Hk. cbn. eexists. split; [reflexivity|].
    exact Ht.
  - rewrite nth_error_update_neq by exact N. now exists k.
Qed.

Lemma alive_executor r e w : alive e w -> alive (executor r e) w.
Proof.
  intro H. unfold executor. now repeat apply alive_send.
Qed.

(** A line from a live Worker that is not 'uciok' goes to the handler at
    the head of the queue, and to no other. *)
Lemma onmessage_head e w message h rest :
  alive e w -> String.eqb message "uciok" = false ->
  messageQueue e = h :: rest ->
  onmessage w message e = dispatch h message (setQueue rest e).
Proof.
  intros (k & Hk & Ht) Hu Hq. unfold onmessage.
  rewrite Hk, Ht, Hu, Hq. reflexivity.
Qed.

Lemma onmessage_search_line e w line h rest :
  alive e w -> searchLine line ->
  messageQueue e = h :: rest ->
  onmessage w line e =
  setQueue
    (rest ++
       [{| request := request h;
           closure := fst (messageHandler (closure h) line) |}])%list e.
Proof.
  intros Ha [Hu Hb] Hq.
  rewrite (onmessage_head e w line h rest Ha Hu Hq).
  unfold dispatch, messageHandler. rewrite Hb.
  destruct (startsWith line "info depth"); reflexivity.
Qed.

(** X4.  The handlers take the lines of the search in turn: the head
    handler consumes the line and goes to the back of the queue, so two
    pending requests are handed alternate lines. *)
Theorem search_lines_go_round_the_queue :
  forall (e : StockfishEngine) (w : nat) (line : string)
         (h : Handler) (rest : list Handler),
    alive e w -> searchLine line ->
    messageQueue e = h :: rest ->
    onmessage w line e =
    setQueue
      (rest ++
         [{| request := request h;
             closure := fst (messageHandler (closure h) line) |}])%list e.
Proof.
  intros e w line h rest. apply onmessage_search_line.
Qed.

Lemma search_lines_go_round_the_queue_started :
  let e :=
    run started
      [Call OpAnalyze startFen (Some 15%Z);
       Call OpEvaluatePosition e4Fen (Some 12%Z)] in
  let line := "info depth 1 score cp 30 pv e2e4" in
  onmessage 0 line e =
  setQueue
    [{| request := 1; closure := closure0 |};
     {| request := 0;
        closure := fst (messageHandler closure0 line) |}] e.
Proof.
  apply (search_lines_go_round_the_queue
           (run started
              [Call OpAnalyze startFen (Some 15%Z);
               Call OpEvaluatePosition e4Fen (Some 12%Z)])
           0 "info depth 1 score cp 30 pv e2e4"
           {| request := 0; closure := closure0 |}
           [{| request := 1; closure := closure0 |}]).
  - eexists. split; reflexivity.
  - split; reflexivity.
  - reflexivity.
Defined.

Lemma run_cons e ev evs : run e (ev :: evs) = run (step e ev) evs.
Proof. reflexivity. Qed.

Lemma run_app e evs1 evs2 : run e (evs1 ++ evs2) = run (run e evs1) evs2.
Proof. unfold run. apply fold_left_app. Qed.

Lemma run_search_lines w (lines : list string) :
  forall e c i,
    alive e w -> Forall searchLine lines ->
    messageQueue e = [{| request := i; closure := c |}] ->
    run e (map (Message w) lines) =
    setQueue [{| request := i; closure := absorb c lines |}] e.
Proof.
  induction lines as [|line lines IH]; intros e c i Ha Hl Hq.
  - cbn. destruct e. cbn in *. now rewrite Hq.
  - inversion Hl as [|x l Hx Hl' E]; subst.
    cbn [map]. rewrite run_cons. cbn [step].
    rewrite (onmessage_search_line e w line _ [] Ha Hx Hq).
    cbn [app request closure].
    rewrite (IH _ (fst (messageHandler c line)) i);
      [reflexivity | | assumption | reflexivity].
    destruct Ha as (k & Hk & Ht). now exists k.
Qed.

(** X5.  One request on a ready channel with nothing else pending:
    after the lines of the search and the result line, its Future is
    fulfilled with the result line's move and the most recent depth,
    score and principal variation, as the operation projects them, and
    the queue is empty again. *)
Theorem single_request_resolves :
  forall (e : StockfishEngine) (w : nat) (o : Op) (fen : string)
         (d : option Z) (lines : list string) (final best : string),
    ready e = true -> worker e = Some w -> alive e w ->
    messageQueue e = [] ->
    Forall searchLine lines ->
    startsWith final "bestmove" = true -> moveMatch final = Some best ->
    let e' :=
      run e (Call o fen d :: map (Message w) lines ++ [Message w final]) in
    future e' (List.length (promises e)) =
      Some (Fulfilled (project o (setMove best (absorb closure0 lines)))) /\
    messageQueue e' = [].
Proof.
  intros e w o fen d lines final best Hr Hw Ha Hq Hl Hf Hm e'.
  assert (Hlt : (w < List.length (workers e))%nat).
  { destruct Ha as (k & Hk & _). apply nth_error_Some. congruence. }
  destruct (analyze_ready o fen d e w Hr Hw Hlt)
    as (r1 & w1 & l1 & p1 & q1 & c1).
  set (e1 := analyze o fen d e) in *.
  assert (Ha1 : alive e1 w).
  { unfold e1, analyze. rewrite Hr. apply alive_executor. exact Ha. }
  rewrite Hq in q1. cbn [app] in q1.
  unfold e'. rewrite run_cons, run_app. cbn [step]. fold e1.
  rewrite (run_search_lines w lines e1 closure0 _ Ha1 Hl q1).
  rewrite run_cons. cbn [run fold_left step].
  assert (Hu : String.eqb final "uciok" = false).
  { destruct final as [|a s]; [discriminate|].
    unfold startsWith in Hf. cbn [String.prefix] in Hf.
    destruct (ascii_dec "b" a) as [<-|]; [reflexivity | discriminate]. }
  erewrite (onmessage_head _ w final); [| |exact Hu|reflexivity].
  2:{ destruct Ha1 as (k & Hk & Ht). now exists k. }
  unfold dispatch, messageHandler. cbn [closure request].
  rewrite (startsWith_exclusive final Hf), Hf, Hm.
  split; [|reflexivity].
  unfold future, resolve. cbn [promises setPromises setQueue].
  rewrite nth_error_update_eq, p1.
  rewrite nth_error_app2 by lia. rewrite Nat.sub_diag. reflexivity.
Qed.

Lemma single_request_resolves_started :
  let lines :=
    ["info depth 1 seldepth 1 multipv 1 score cp 30 nodes 20 pv e2e4";
     "info depth 2 seldepth 2 multipv 1 score cp 28 nodes 70 pv e2e4 e7e5"]
  in
  let e' :=
    run started
      (Call OpEvaluatePosition startFen (Some 12%Z)
       :: map (Message 0) lines ++ [Message 0 "bestmove e2e4 ponder e7e5"]) in
  future e' (List.length (promises started)) =
    Some (Fulfilled
            (project OpEvaluatePosition
               (setMove "e2e4" (absorb closure0 lines)))) /\
  messageQueue e' = [].
Proof.
  apply (single_request_resolves started 0 OpEvaluatePosition startFen
           (Some 12%Z)
           ["info depth 1 seldepth 1 multipv 1 score cp 30 nodes 20 pv e2e4";
            "info depth 2 seldepth 2 multipv 1 score cp 28 nodes 70 pv e2e4 e7e5"]
           "bestmove e2e4 ponder e7e5" "e2e4");
    try reflexivity.
  - eexists. split; reflexivity.
  - repeat constructor.
Defined.

Lemma searchLine_info (message : string) :
  startsWith message "info depth" = true -> searchLine message.
Proof.
  intro H. split.
  - destruct message as [|a s]; [discriminate|].
    unfold startsWith in H. cbn [String.prefix] in H.
    destruct (ascii_dec "i" a) as [<-|]; [reflexivity | discriminate].
  - destruct (startsWith message "bestmove") eqn:E; [|reflexivity].
    apply startsWith_exclusive in E. congruence.
Qed.

Lemma absorb_snoc (c : EngineMove) (lines : list string) (line : string) :
  absorb c (lines ++ [line]) = fst (messageHandler (absorb c lines) line).
Proof. unfold absorb. now rewrite fold_left_app. Qed.

(** C9, as the code has it.  When a line that starts with 'info depth'
    carries a mate-in-N score, the handler of the request records the
    evaluation +100 when N > 0 and -100 otherwise, and N as the mate.
    If the result line comes next, the Future of the request is fulfilled
    with that evaluation: [evaluatePosition] yields +100 or -100 and
    [analyze] yields a result whose evaluation is +100 or -100, so that
    is what every consumer of the result computes with. *)
Theorem mate_score_saturates :
  forall (e : StockfishEngine) (w : nat) (o : Op) (fen : string)
         (d : option Z) (lines : list string)
         (message value final best : string),
    ready e = true -> worker e = Some w -> alive e w ->
    messageQueue e = [] ->
    Forall searchLine lines ->
    startsWith message "info depth" = true ->
    scoreMatch message = Some ("mate", value) ->
    startsWith final "bestmove" = true -> moveMatch final = Some best ->
    let N := parseInt value in
    let extreme : Q := if (0 <? N)%Z then 100 else -100 in
    let c' := fst (messageHandler (absorb closure0 lines) message) in
    let i := List.length (promises e) in
    let e' :=
      run e (Call o fen d
             :: map (Message w) (lines ++ [message]) ++ [Message w final]) in
    evaluation c' = extreme /\
    ((Z.abs N <= 2 ^ 53)%Z -> mate c' = Some N) /\
    future e' i = Some (Fulfilled (project o (setMove best c'))) /\
    (o = OpEvaluatePosition ->
     future e' i = Some (Fulfilled (VNumber extreme))) /\
    (o = OpAnalyze ->
     exists result,
       future e' i = Some (Fulfilled (VMove result)) /\
       evaluation result = extreme /\ move result = best).
Proof.
  intros e w o fen d lines message value final best
         Hr Hw Ha Hq Hl Hinfo Hscore Hf Hm N extreme c' i e'.
  pose proof (searchLine_info message Hinfo) as [Hu Hb].
  assert (Hc' : c' = onInfo message (absorb closure0 lines)).
  { unfold c', messageHandler. now rewrite Hinfo, Hb. }
  destruct (onInfo_mate message value (absorb closure0 lines) Hscore)
    as [Hmate Heval].
  fold N in Hmate, Heval. rewrite <- Hc' in Hmate, Heval.
  assert (Hlt : (w < List.length (workers e))%nat).
  { destruct Ha as (k & Hk & _). apply nth_error_Some. congruence. }
  destruct (analyze_ready o fen d e w Hr Hw Hlt)
    as (r1 & w1 & l1 & p1 & q1 & c1).
  set (e1 := analyze o fen d e) in *.
  assert (Ha1 : alive e1 w).
  { unfold e1, analyze. rewrite Hr. apply alive_executor. exact Ha. }
  rewrite Hq in q1. cbn [app] in q1.
  assert (Hl' : Forall searchLine (lines ++ [message])).
  { apply Forall_app. split; [exact Hl|]. constructor; [|constructor].
    now split. }
  assert (F : future e' i = Some (Fulfilled (project o (setMove best c')))).
  { unfold e'. rewrite run_cons, run_app. cbn [step]. fold e1.
    rewrite (run_search_lines w (lines ++ [message]) e1 closure0 _
               Ha1 Hl' q1).
    rewrite absorb_snoc. fold c'.
    rewrite run_cons. cbn [run fold_left step].
    assert (Hu' : String.eqb final "uciok" = false).
    { destruct final as [|a s]; [discriminate|].
      unfold startsWith in Hf. cbn [String.prefix] in Hf.
      destruct (ascii_dec "b" a) as [<-|]; [reflexivity | discriminate]. }
    erewrite (onmessage_head _ w final); [| |exact Hu'|reflexivity].
    2:{ destruct Ha1 as (k & Hk & Ht). now exists k. }
    unfold dispatch, messageHandler. cbn [closure request].
    rewrite (startsWith_exclusive final Hf), Hf, Hm.
    unfold future, resolve. cbn [promises setPromises setQueue].
    rewrite nth_error_update_eq, p1.
    rewrite nth_error_app2 by (unfold i; lia).
    unfold i. rewrite Nat.sub_diag. reflexivity. }
  split; [exact Heval|]. split; [intros _; exact Hmate|].
  split; [exact F|]. split.
  - intros ->. rewrite F. cbn [project setMove evaluation].
    now rewrite Heval.
  - intros ->. exists (setMove best c'). rewrite F.
    split; [reflexivity|]. split; [exact Heval | reflexivity].
Qed.

(** A request for the score of the position after 1. e4 on a started
    channel, answered with a mate in 3 against the side to move: the
    Future is fulfilled with -100. *)
Lemma mate_score_saturates_on_stockfish_lines :
  let lines :=
    ["info depth 9 seldepth 10 multipv 1 score cp -412 nodes 903 pv e7e5"] in
  let message :=
    "info depth 10 seldepth 12 multipv 1 score mate -3 nodes 1234 pv e7e5 d1h5"
  in
  let c' := fst (messageHandler (absorb closure0 lines) message) in
  let e' :=
    run started
      (Call OpEvaluatePosition e4Fen (Some 12%Z)
       :: map (Message 0) (lines ++ [message])
          ++ [Message 0 "bestmove e7e5 ponder d1h5"]) in
  (evaluation c' = -100 /\
   ((Z.abs (parseInt "-3") <= 2 ^ 53)%Z -> mate c' = Some (parseInt "-3")) /\
   future e' 0 =
     Some (Fulfilled (project OpEvaluatePosition (setMove "e7e5" c'))) /\
   (OpEvaluatePosition = OpEvaluatePosition ->
    future e' 0 = Some (Fulfilled (VNumber (-100)))) /\
   (OpEvaluatePosition = OpAnalyze ->
    exists result,
      future e' 0 = Some (Fulfilled (VMove result)) /\
      evaluation result = -100 /\ move result = "e7e5")) /\
  parseInt "-3" = (-3)%Z /\
  future e' 0 = Some (Fulfilled (VNumber (-100))).
Proof.
  split; [|split; reflexivity].
  apply (mate_score_saturates started 0 OpEvaluatePosition e4Fen
           (Some 12%Z)
           ["info depth 9 seldepth 10 multipv 1 score cp -412 nodes 903 pv e7e5"]
           "info depth 10 seldepth 12 multipv 1 score mate -3 nodes 1234 pv e7e5 d1h5"
           "-3" "bestmove e7e5 ponder d1h5" "e7e5");
    try reflexivity.
  - eexists. split; reflexivity.
  - repeat constructor.
Defined.

(** C9, as the specification words it, fails on a line that carries a
    mate score but does not start with 'info depth': the handler skips
    it, the evaluation stays at its initial 0, and the request is
    resolved with 0 instead of +100. *)
Lemma mate_score_outside_info_depth_is_skipped :
  let line := "info score mate 3 depth 9 pv h2h4" in
  let e :=
    run started
      [Call OpEvaluatePosition e4Fen (Some 12%Z);
       Message 0 line;
       Message 0 "bestmove h2h4"] in
  carriesMate line 3 /\
  startsWith line "info depth" = false /\
  evaluation (fst (messageHandler closure0 line)) = 0 /\
  mate (fst (messageHandler closure0 line)) = None /\
  ~ saturates closure0 line /\
  future e 0 = Some (Fulfilled (VNumber 0)).
Proof.
  assert (C : carriesMate "info score mate 3 depth 9 pv h2h4" 3).
  { exists "3". split; reflexivity. }
  split; [exact C|]. split; [reflexivity|]. split; [reflexivity|].
  split; [reflexivity|]. split; [|reflexivity].
  intro H. specialize (H 3%Z C). vm_compute in H. discriminate H.
Qed.

(** A handler outlives the Worker it was registered for.  Here a request
    is pending when the channel is stopped; after a restart the next
    request's commands go to the new Worker, whose result line is handed
    to the old handler: the old Future is fulfilled with the new
    request's move, and the new Future stays pending. *)
Lemma old_handler_takes_the_next_result :
  let e :=
    run started
      [Call OpAnalyze startFen (Some 15%Z);
       Terminate;
       Initialize;
       Message 1 "uciok";
       Call OpAnalyze e4Fen (Some 15%Z);
       Message 1 "bestmove e7e5"] in
  future e 0 =
    Some (Fulfilled (VMove
      {| move := "e7e5"; evaluation := 0; mate := None;
         depth := 0%Z; pv := [] |})) /\
  future e 1 = Some Pending.
Proof. split; reflexivity. Qed.

End EngineFacts.

(* ================================================================== *)
(** ** Further properties of the report *)
(* ================================================================== *)

Module ReportFacts.

Import Analyzer Stated Reported AnalyzerFacts.
Local Open Scope Q_scope.

(** *** The mistake list, record by record *)

Lemma playerMove_mistakesList playerColor i p v :
  Loop.mistakesList (playerMove playerColor i p v) =
  (Loop.mistakesList v ++
   match
     classifyMistake
       (evalDropOf playerColor (Loop.previousEval v)
          (Engine.evaluation (afterMove p)))
   with
   | Some s => [mistakeAt playerColor i p (Loop.previousEval v) s]
   | None => []
   end)%list.
Proof.
  unfold playerMove, mistakeAt.
  destruct (classifyMistake _); cbn [Loop.mistakesList].
  - reflexivity.
  - now rewrite app_nil_r.
Qed.

Lemma mistakeAt_consistent playerColor i p previous s :
  classifyMistake
    (evalDropOf playerColor previous (Engine.evaluation (afterMove p)))
  = Some s ->
  consistent (mistakeAt playerColor i p previous s).
Proof.
  intro H. unfold consistent, recordedDrop, mistakeAt.
  cbn [previousEval evaluation severity explanation playedMove bestMove
       moveNumber phase].
  split; [exact H|]. split; [reflexivity|]. split; [lia|].
  unfold determinePhase.
  destruct (Nat.leb_spec (i / 2 + 1) 10) as [L|L].
  - split; [reflexivity | intros _; exact L].
  - split; [lia|]. destruct (pieces p <=? 12)%nat; discriminate.
Qed.

Lemma loop_consistent playerColor history :
  forall i v,
    Forall consistent (Loop.mistakesList v) ->
    Forall consistent (Loop.mistakesList (loop playerColor i history v)).
Proof.
  induction history as [|p rest IH]; intros i v H; [exact H|].
  cbn [loop]. apply IH. unfold iteration.
  destruct (negb (isPlayerMove playerColor i)); [exact H|].
  rewrite playerMove_mistakesList. apply Forall_app. split; [exact H|].
  destruct (classifyMistake _) eqn:E; constructor; [|constructor].
  now apply mistakeAt_consistent.
Qed.

(** X6.  Every record of the mistake list agrees with itself: its
    severity is the tier of (previousEval - evaluation), its explanation
    is the template for that severity, its move number is at least 1, and
    its phase is the opening exactly for move numbers up to 10. *)
Theorem mistake_records_are_consistent :
  forall (history : list Ply) (playerColor : Color),
    Forall consistent (mistakesList (analyzeGame history playerColor)).
Proof.
  intros history c. unfold analyzeGame, report. cbn [mistakesList].
  apply loop_consistent. constructor.
Qed.

(** Two plies of the same player are an even number of plies apart. *)
Lemma isPlayerMove_parity playerColor i j :
  isPlayerMove playerColor i = true -> isPlayerMove playerColor j = true ->
  (i mod 2 = j mod 2)%nat.
Proof.
  unfold isPlayerMove. destruct playerColor; cbn [isWhite isBlack andb orb];
    rewrite ?orb_false_r; intros Hi Hj;
    apply Nat.eqb_eq in Hi; apply Nat.eqb_eq in Hj; congruence.
Qed.

Lemma next_player_move playerColor i j :
  isPlayerMove playerColor i = true -> isPlayerMove playerColor j = true ->
  (S i <= j)%nat -> (i / 2 + 1 <= j / 2)%nat.
Proof.
  intros Hi Hj L. pose proof (isPlayerMove_parity _ _ _ Hi Hj) as E.
  pose proof (Nat.div_mod_eq i 2). pose proof (Nat.div_mod_eq j 2).
  pose proof (Nat.mod_upper_bound i 2). lia.
Qed.

Lemma StronglySorted_snoc (l : list nat) (a : nat) :
  StronglySorted Nat.lt l -> Forall (fun x => (x < a)%nat) l ->
  StronglySorted Nat.lt (l ++ [a]).
Proof.
  induction 1 as [|x l S IH F]; intro H; cbn.
  - repeat constructor.
  - inversion H as [|? ? Hx Hl]; subst. constructor; [now apply IH|].
    apply Forall_app. split; [exact F|]. now constructor.
Qed.

(** What the loop knows about its mistake list on entering index [i]:
    the move numbers increase strictly, and all lie below the move number
    of any ply the player may still make. *)
Lemma loop_sorted playerColor history :
  forall i v,
    StronglySorted Nat.lt (map moveNumber (Loop.mistakesList v)) ->
    Forall (fun m => forall j, (i <= j)%nat ->
                       isPlayerMove playerColor j = true ->
                       (moveNumber m <= j / 2)%nat) (Loop.mistakesList v) ->
    StronglySorted Nat.lt
      (map moveNumber (Loop.mistakesList (loop playerColor i history v))).
Proof.
  induction history as [|p rest IH]; intros i v S B; [exact S|].
  cbn [loop]. unfold iteration.
  destruct (isPlayerMove playerColor i) eqn:T; cbn [negb].
  - apply IH; rewrite playerMove_mistakesList;
      destruct (classifyMistake _) as [s|]; rewrite ?app_nil_r.
    + rewrite map_app. cbn [map mistakeAt moveNumber].
      apply StronglySorted_snoc; [exact S|].
      rewrite Forall_map. eapply Forall_impl; [|exact B].
      intros m Hm. cbn beta. specialize (Hm i (le_n i) T). lia.
    + exact S.
    + apply Forall_app. split.
      * eapply Forall_impl; [|exact B]. intros m Hm j L. apply Hm. lia.
      * constructor; [|constructor]. intros j L Tj.
        cbn [mistakeAt moveNumber]. now apply (next_player_move playerColor).
    + eapply Forall_impl; [|exact B]. intros m Hm j L. apply Hm. lia.
  - apply IH; [exact S|].
    eapply Forall_impl; [|exact B]. intros m Hm j L. apply Hm. lia.
Qed.

(** X7.  The mistake list is in the order of play and holds at most one
    record per move: its move numbers increase strictly. *)
Theorem mistakes_are_listed_in_move_order :
  forall (history : list Ply) (playerColor : Color),
    StronglySorted Nat.lt
      (map moveNumber (mistakesList (analyzeGame history playerColor))).
Proof.
  intros history c. unfold analyzeGame, report. cbn [mistakesList].
  apply loop_sorted; constructor.
Qed.

(** *** Games without a move of the player *)

Lemma loop_without_player playerColor history :
  forall i v,
    playerPlies playerColor i history = [] ->
    loop playerColor i history v = v.
Proof.
  induction history as [|p rest IH]; intros i v H; [reflexivity|].
  cbn [loop playerPlies] in *. unfold iteration.
  destruct (isPlayerMove playerColor i); [discriminate|].
  cbn [negb]. now apply IH.
Qed.

(** X8.  When the tracked player made no move in the game (an empty
    game, or a single ply analysed for Black) the report is all zeros:
    the average accuracy is 0, not 100, and nothing is counted. *)
Theorem report_without_player_moves :
  forall (history : list Ply) (playerColor : Color),
    playerPlies playerColor 0 history = [] ->
    analyzeGame history playerColor = emptyReport.
Proof.
  intros history c H. unfold analyzeGame.
  now rewrite (loop_without_player c history 0 vars0 H).
Qed.

Lemma report_without_player_moves_one_ply :
  analyzeGame [plyE4] black = emptyReport.
Proof.
  apply (report_without_player_moves [plyE4] black). reflexivity.
Defined.

(** *** Improvements *)

(** X9.  The tier looks at the size of the delta only, so a move after
    which the evaluation improves by half a pawn or more is pushed onto
    the mistake list (as a blunder from three pawns on) while its accuracy
    is the full 100. *)
Theorem improvement_is_recorded_as_mistake :
  forall (playerColor : Color) (i : nat) (p : Ply) (v : Loop.Vars),
    let delta :=
      evalDropOf playerColor (Loop.previousEval v)
        (Engine.evaluation (afterMove p)) in
    delta <= - (1 # 2) ->
    let v' := playerMove playerColor i p v in
    (exists s,
       classifyMistake delta = Some s /\
       Loop.mistakesList v' =
         (Loop.mistakesList v ++
          [mistakeAt playerColor i p (Loop.previousEval v) s])%list) /\
    (delta <= - 3 -> classifyMistake delta = Some blunder) /\
    Loop.totalAccuracy v' = Loop.totalAccuracy v + 100.
Proof.
  intros c i p v delta H v'.
  assert (A : (1 # 2) <= Qabs delta).
  { rewrite Qabs_neg by lra. lra. }
  split; [|split].
  - unfold v'. rewrite playerMove_mistakesList. fold delta.
    destruct (classifyMistake delta) as [s|] eqn:E.
    + exists s. split; reflexivity.
    + apply classifyMistake_None in E. lra.
  - intro H3. apply classifyMistake_cases.
    rewrite Qabs_neg by lra. lra.
  - unfold v'. rewrite playerMove_totalAccuracy. fold delta.
    rewrite moveAccuracyOf_nonpos by lra. reflexivity.
Qed.

Lemma improvement_is_recorded_as_mistake_e4 :
  let p :=
    {| san := "e4"; fenBeforeMove := startFen; fenAfterMove := e4Fen;
       pieces := 32; analysis := analysis plyE4;
       afterMove := Engine.setEvaluation 3.2 (afterMove plyE4) |} in
  let delta :=
    evalDropOf white (Loop.previousEval vars0)
      (Engine.evaluation (afterMove p)) in
  let v' := playerMove white 0 p vars0 in
  (exists s,
     classifyMistake delta = Some s /\
     Loop.mistakesList v' =
       (Loop.mistakesList vars0 ++
        [mistakeAt white 0 p (Loop.previousEval vars0) s])%list) /\
  (delta <= - 3 -> classifyMistake delta = Some blunder) /\
  Loop.totalAccuracy v' = Loop.totalAccuracy vars0 + 100.
Proof.
  apply (improvement_is_recorded_as_mistake white 0
           {| san := "e4"; fenBeforeMove := startFen; fenAfterMove := e4Fen;
              pieces := 32; analysis := analysis plyE4;
              afterMove := Engine.setEvaluation 3.2 (afterMove plyE4) |}
           vars0).
  vm_compute. discriminate.
Defined.

End ReportFacts.

(* ================================================================== *)
(** ** Reading the evaluator's lines *)
(* ================================================================== *)

Module LineFacts.

Import JS Engine Lines.
Local Open Scope string_scope.

(** *** Decimal numerals *)

Local Abbreviation numeral := NilEmpty.string_of_uint.

Lemma append_empty (s : string) : s ++ "" = s.
Proof. induction s as [|c s IH]; cbn; [reflexivity | now rewrite IH]. Qed.

Lemma append_assoc (a b c : string) : (a ++ b) ++ c = a ++ b ++ c.
Proof. induction a as [|x a IH]; cbn; [reflexivity | now rewrite IH]. Qed.

Lemma takeWhile_numeral (u : Decimal.uint) (rest : string) :
  endsNumber rest = true ->
  takeWhile isDigit (numeral u ++ rest) = numeral u.
Proof.
  intro H. induction u; cbn [numeral append takeWhile];
    try (change (isDigit _) with true; cbn iota; now rewrite IHu).
  destruct rest as [|c r]; [reflexivity|].
  cbn [takeWhile]. cbn in H. now destruct (isDigit c).
Qed.

Lemma numeral_nonempty (u : Decimal.uint) :
  u <> Decimal.Nil -> isEmpty (numeral u) = false.
Proof. destruct u; intro H; try reflexivity. congruence. Qed.

Lemma plus_numeral (u : Decimal.uint) (rest : string) :
  u <> Decimal.Nil -> endsNumber rest = true ->
  plus isDigit (numeral u ++ rest) = Some (numeral u).
Proof.
  intros N H. unfold plus. rewrite (takeWhile_numeral u rest H).
  now rewrite (numeral_nonempty u N).
Qed.

Lemma digitsValue_acc (u : Decimal.uint) :
  forall acc : positive,
    digitsValue (Z.pos acc) (numeral u) = Z.pos (Pos.of_uint_acc u acc).
Proof.
  induction u; intro acc; cbn [numeral digitsValue Pos.of_uint_acc];
    try reflexivity;
    change (isDigit _) with true; cbn iota;
    rewrite <- IHu; f_equal;
    match goal with
    | |- context [Z.of_nat ?n] =>
        let k := eval vm_compute in (Z.of_nat n) in
        change (Z.of_nat n) with k
    end; lia.
Qed.

Lemma digitsValue_numeral (u : Decimal.uint) :
  digitsValue 0 (numeral u) = Z.of_N (Pos.of_uint u).
Proof.
  induction u; cbn [numeral digitsValue Pos.of_uint];
    try reflexivity; change (isDigit _) with true; cbn iota.
  - exact IHu.
  - apply (digitsValue_acc u 1).
  - apply (digitsValue_acc u 2).
  - apply (digitsValue_acc u 3).
  - apply (digitsValue_acc u 4).
  - apply (digitsValue_acc u 5).
  - apply (digitsValue_acc u 6).
  - apply (digitsValue_acc u 7).
  - apply (digitsValue_acc u 8).
  - apply (digitsValue_acc u 9).
Qed.

Lemma digitsOf_nonnil (z : Z) : digitsOf z <> Decimal.Nil.
Proof.
  destruct z; cbn; [discriminate | |]; apply Unsigned.to_uint_nonnil.
Qed.

Lemma numberToString_digits (z : Z) :
  numberToString z =
  if (z <? 0)%Z then String "-" (numeral (digitsOf z))
  else numeral (digitsOf z).
Proof.
  unfold numberToString, NilZero.string_of_int, NilZero.string_of_uint.
  destruct z as [|p|p]; cbn [Z.to_int Z.ltb Z.compare digitsOf].
  - reflexivity.
  - pose proof (Unsigned.to_uint_nonnil p).
    destruct (Pos.to_uint p); [congruence | reflexivity ..].
  - pose proof (Unsigned.to_uint_nonnil p).
    destruct (Pos.to_uint p); [congruence | reflexivity ..].
Qed.

Lemma digitsValue_digitsOf (z : Z) :
  digitsValue 0 (numeral (digitsOf z)) = Z.abs z.
Proof.
  rewrite digitsValue_numeral.
  destruct z as [|p|p]; cbn [digitsOf Z.abs]; [reflexivity | |];
    now rewrite DecimalPos.Unsigned.of_to.
Qed.

(** A numeral starts with a digit, which is no minus sign. *)
Lemma numeral_head (u : Decimal.uint) :
  u <> Decimal.Nil ->
  exists c r, numeral u = String c r /\ isDigit c = true.
Proof.
  destruct u; intro H; [congruence | ..]; cbn [numeral];
    eexists; eexists; split; reflexivity.
Qed.

Lemma parseInt_unsigned (c : ascii) (r : string) :
  isDigit c = true -> parseInt (String c r) = digitsValue 0 (String c r).
Proof.
  intro H. unfold parseInt.
  destruct c as [[] [] [] [] [] [] [] []]; try reflexivity; discriminate H.
Qed.

(** The text of an integer inside a template literal is read back by
    [parseInt] as that integer. *)
Lemma parseInt_numberToString (z : Z) : parseInt (numberToString z) = z.
Proof.
  rewrite numberToString_digits.
  destruct (z <? 0)%Z eqn:E.
  - cbn [parseInt]. rewrite digitsValue_digitsOf. lia.
  - destruct (numeral_head _ (digitsOf_nonnil z)) as (c & r & Hs & Hc).
    rewrite Hs, (parseInt_unsigned c r Hc), <- Hs, digitsValue_digitsOf.
    apply Z.ltb_ge in E. lia.
Qed.

(** [-?\d+] reads exactly the text of an integer where the number ends. *)
Lemma signedDigits_number (z : Z) (rest : string) :
  endsNumber rest = true ->
  signedDigits (numberToString z ++ rest) = Some (numberToString z).
Proof.
  intro H. rewrite numberToString_digits.
  destruct (z <? 0)%Z.
  - cbn [append signedDigits].
    now rewrite (plus_numeral _ rest (digitsOf_nonnil z) H).
  - destruct (numeral_head _ (digitsOf_nonnil z)) as (c & r & Hs & Hc).
    pose proof (plus_numeral _ rest (digitsOf_nonnil z) H) as P.
    rewrite Hs in *. cbn [append] in *. unfold signedDigits.
    destruct c as [[] [] [] [] [] [] [] []]; try exact P; discriminate Hc.
Qed.

(** [\d+] reads exactly the text of a non-negative integer. *)
Lemma digits_number (z : Z) (rest : string) :
  (0 <= z)%Z -> endsNumber rest = true ->
  plus isDigit (numberToString z ++ rest) = Some (numberToString z).
Proof.
  intros Hz H. rewrite numberToString_digits.
  destruct (Z.ltb_spec z 0); [lia|].
  apply plus_numeral; [apply digitsOf_nonnil | exact H].
Qed.

(** *** Finding the fields of a line *)

Lemma scoreAt_not_s (c : ascii) (s : string) :
  Ascii.eqb c "s" = false -> scoreAt (String c s) = None.
Proof.
  intro H. unfold scoreAt. cbn [after].
  rewrite Ascii.eqb_sym. now rewrite H.
Qed.

Lemma scoreAt_not_sc (a b : ascii) (s : string) :
  Ascii.eqb b "c" = false -> scoreAt (String a (String b s)) = None.
Proof.
  intro H. unfold scoreAt. cbn [after].
  destruct (Ascii.eqb "s" a); [|reflexivity].
  rewrite Ascii.eqb_sym. now rewrite H.
Qed.

(** The search for the score passes over a text in which no ['s'] is
    followed by a ['c'], when what follows the text does not start with
    a ['c'] either. *)
Lemma search_scoreAt_skip (P : string) (r : ascii) (R : string) :
  noScore P = true -> Ascii.eqb r "c" = false ->
  search scoreAt (P ++ String r R) = search scoreAt (String r R).
Proof.
  intros HP Hr. induction P as [|a P IH]; [reflexivity|].
  cbn [noScore] in HP. apply andb_true_iff in HP as [Ha HP].
  cbn [append].
  assert (N : scoreAt (String a (P ++ String r R)) = None).
  { destruct P as [|b P'].
    - cbn [append]. now apply scoreAt_not_sc.
    - cbn [append]. apply negb_true_iff, andb_false_iff in Ha as [Ha|Ha].
      + now apply scoreAt_not_s.
      + now apply scoreAt_not_sc. }
  cbn [search]. rewrite N. now apply IH.
Qed.

Lemma noScore_numeral (u : Decimal.uint) : noScore (numeral u) = true.
Proof.
  induction u; cbn [numeral noScore]; [reflexivity | ..];
    rewrite IHu; destruct (numeral u); reflexivity.
Qed.

Lemma noScore_number (z : Z) : (0 <= z)%Z -> noScore (numberToString z) = true.
Proof.
  intro H. rewrite numberToString_digits.
  destruct (Z.ltb_spec z 0); [lia|]. apply noScore_numeral.
Qed.

Lemma number_head (z : Z) :
  (0 <= z)%Z ->
  exists c r, numberToString z = String c r /\ isDigit c = true.
Proof.
  intro H. rewrite numberToString_digits.
  destruct (Z.ltb_spec z 0); [lia|].
  apply numeral_head, digitsOf_nonnil.
Qed.

Lemma digit_not_c (c : ascii) : isDigit c = true -> Ascii.eqb c "c" = false.
Proof.
  destruct c as [[] [] [] [] [] [] [] []]; try reflexivity; discriminate.
Qed.

Lemma spaced_head (s rest : string) :
  spaced s = true ->
  exists R, s ++ String " " rest = String " " R.
Proof.
  destruct s as [|c s]; cbn; intro H.
  - now exists rest.
  - apply Ascii.eqb_eq in H. subst c. eexists. reflexivity.
Qed.

Lemma spaced_endsNumber (s rest : string) :
  spaced s = true -> endsNumber (s ++ String " " rest) = true.
Proof.
  intro H. destruct (spaced_head s rest H) as [R ->]. reflexivity.
Qed.

(** The score of a line of the search is found where the evaluator
    printed it. *)
Lemma scoreMatch_infoLine d mid kind v tail :
  (0 <= d)%Z -> spaced mid = true -> noScore mid = true ->
  endsNumber tail = true -> kind = "cp" \/ kind = "mate" ->
  scoreMatch (infoLine d mid kind v tail) = Some (kind, numberToString v).
Proof.
  intros Hd Hs Hn Ht Hk. unfold scoreMatch, infoLine.
  destruct (number_head d Hd) as (c & r & Hc & Dc).
  (* over ["info depth "] *)
  rewrite Hc. change (String c r ++ ?x) with (String c (r ++ x)).
  rewrite (search_scoreAt_skip "info depth " c _ eq_refl (digit_not_c c Dc)).
  change (String c (r ++ ?x)) with (String c r ++ x). rewrite <- Hc.
  (* over the depth and the fields in between *)
  change (" score " ++ ?x) with (String " " ("score " ++ x)).
  destruct (spaced_head mid ("score " ++ kind ++ " " ++ numberToString v ++ tail)
              Hs) as [R HR].
  rewrite HR.
  rewrite (search_scoreAt_skip (numberToString d) " " R
             (noScore_number d Hd) eq_refl).
  rewrite <- HR.
  rewrite (search_scoreAt_skip mid " " _ Hn eq_refl).
  (* at [" score ..."] *)
  cbn [search]. rewrite (scoreAt_not_s " " _ eq_refl).
  destruct Hk as [-> | ->]; cbn [append search scoreAt after Ascii.eqb
                                  Bool.eqb scoreKind];
    now rewrite (signedDigits_number v tail Ht).
Qed.

Lemma depthMatch_infoLine d mid kind v tail :
  (0 <= d)%Z -> spaced mid = true ->
  depthMatch (infoLine d mid kind v tail) = Some (numberToString d).
Proof.
  intros Hd Hs. unfold depthMatch, infoLine.
  change ("info depth " ++ ?x) with ("info " ++ "depth " ++ x).
  cbn [append search depthAt after Ascii.eqb Bool.eqb].
  change (" score " ++ ?x) with (String " " ("score " ++ x)).
  rewrite digits_number; [reflexivity | exact Hd |].
  now apply spaced_endsNumber.
Qed.

Lemma startsWith_infoLine d mid kind v tail :
  startsWith (infoLine d mid kind v tail) "info depth" = true /\
  startsWith (infoLine d mid kind v tail) "bestmove" = false.
Proof. split; reflexivity. Qed.

(** *** What the handler keeps of a line *)

Lemma handler_on_infoLine c d mid kind v tail :
  (0 <= d)%Z -> spaced mid = true -> noScore mid = true ->
  endsNumber tail = true -> kind = "cp" \/ kind = "mate" ->
  let line := infoLine d mid kind v tail in
  exists pv',
    messageHandler c line =
    (setPv pv' (onScore kind (numberToString v) (setDepth d c)), Requeue).
Proof.
  intros Hd Hs Hn Ht Hk. cbv zeta. unfold messageHandler.
  destruct (startsWith_infoLine d mid kind v tail) as [-> ->].
  unfold onInfo.
  rewrite (depthMatch_infoLine d mid kind v tail Hd Hs).
  rewrite (scoreMatch_infoLine d mid kind v tail Hd Hs Hn Ht Hk).
  rewrite parseInt_numberToString.
  destruct (pvMatch _) as [l|].
  - exists (split l). reflexivity.
  - exists (pv (onScore kind (numberToString v) (setDepth d c))).
    destruct (onScore _ _ _). reflexivity.
Qed.

(** X11.  A line of the search is read as the evaluator printed it,
    for a depth D and a score V that a [number] holds exactly (at most
    2^53 in size, so that [parseInt] returns the integer the digits
    spell).  From ["info depth D ... score cp V ..."] the handler keeps
    the depth D and the evaluation V / 100 pawns; from
    ["info depth D ... score mate V ..."] it keeps the depth D, the mate
    V and the evaluation +100 or -100.  The best move is untouched and
    the handler stays queued. *)
Theorem search_line_is_read_as_printed :
  forall (c : EngineMove) (d : Z) (mid : string) (v : Z) (tail : string),
    (0 <= d <= 2 ^ 53)%Z -> (Z.abs v <= 2 ^ 53)%Z ->
    spaced mid = true -> noScore mid = true ->
    endsNumber tail = true ->
    (let r := messageHandler c (infoLine d mid "cp" v tail) in
     depth (fst r) = d /\
     evaluation (fst r) = (inject_Z v / 100)%Q /\
     mate (fst r) = mate c /\
     move (fst r) = move c /\
     snd r = Requeue) /\
    (let r := messageHandler c (infoLine d mid "mate" v tail) in
     depth (fst r) = d /\
     mate (fst r) = Some v /\
     evaluation (fst r) = (if (0 <? v)%Z then 100 else -100)%Q /\
     move (fst r) = move c /\
     snd r = Requeue).
Proof.
  intros c d mid v tail [Hd _] _ Hs Hn Ht. split.
  - destruct (handler_on_infoLine c d mid "cp" v tail Hd Hs Hn Ht
                (or_introl eq_refl)) as [pv' ->].
    cbn [fst snd onScore String.eqb Ascii.eqb Bool.eqb].
    rewrite parseInt_numberToString. repeat split.
  - destruct (handler_on_infoLine c d mid "mate" v tail Hd Hs Hn Ht
                (or_intror eq_refl)) as [pv' ->].
    cbn [fst snd onScore String.eqb Ascii.eqb Bool.eqb].
    rewrite parseInt_numberToString. repeat split.
Qed.

Lemma search_line_is_read_as_printed_stockfish :
  let c := closure0 in
  let d := 12%Z in
  let mid := " seldepth 18 multipv 1" in
  let v := (-35)%Z in
  let tail := " nodes 4821 nps 241050 time 20 pv e7e5 g1f3" in
  (let r := messageHandler c (infoLine d mid "cp" v tail) in
   depth (fst r) = d /\
   evaluation (fst r) = (inject_Z v / 100)%Q /\
   mate (fst r) = mate c /\
   move (fst r) = move c /\
   snd r = Requeue) /\
  (let r := messageHandler c (infoLine d mid "mate" v tail) in
   depth (fst r) = d /\
   mate (fst r) = Some v /\
   evaluation (fst r) = (if (0 <? v)%Z then 100 else -100)%Q /\
   move (fst r) = move c /\
   snd r = Requeue).
Proof.
  apply (search_line_is_read_as_printed closure0 12
           " seldepth 18 multipv 1" (-35)
           " nodes 4821 nps 241050 time 20 pv e7e5 g1f3");
    [lia | lia | reflexivity ..].
Defined.

End LineFacts.

(* ================================================================== *)
(** ** Further properties of the adapter's runs *)
(* ================================================================== *)

Module RunFacts.

Import JS Engine Stated Runs EngineFacts.
Local Open Scope string_scope.

(** *** Conduits are logs *)

Lemma nth_error_update {A : Type} (n k : nat) (f : A -> A) (l : list A) :
  nth_error (update n f l) k =
  if Nat.eqb n k then option_map f (nth_error l k) else nth_error l k.
Proof.
  destruct (Nat.eqb_spec n k) as [->|N].
  - apply nth_error_update_eq.
  - now apply nth_error_update_neq.
Qed.

Lemma keepsLog_refl e : keepsLog e e.
Proof.
  intros k wk H. exists wk. repeat split; auto. exists []. now rewrite app_nil_r.
Qed.

Lemma keepsLog_same e e' : workers e' = workers e -> keepsLog e e'.
Proof.
  intros E k wk H. exists wk. rewrite E. repeat split; auto.
  exists []. now rewrite app_nil_r.
Qed.

Lemma keepsLog_trans e1 e2 e3 :
  keepsLog e1 e2 -> keepsLog e2 e3 -> keepsLog e1 e3.
Proof.
  intros H12 H23 k wk H.
  destruct (H12 k wk H) as (wk2 & N2 & T2 & [m2 P2] & F2).
  destruct (H23 k wk2 N2) as (wk3 & N3 & T3 & [m3 P3] & F3).
  exists wk3. split; [exact N3|]. split; [auto|]. split.
  - exists (m2 ++ m3)%list. now rewrite P3, P2, app_assoc.
  - intro T. rewrite F3 by auto. auto.
Qed.

Lemma currentAlive_same e e' :
  workers e' = workers e -> worker e' = worker e ->
  currentAlive e -> currentAlive e'.
Proof.
  intros Ws W H w Hw. rewrite W in Hw.
  destruct (H w Hw) as (k & Hk & Ht). exists k. now rewrite Ws.
Qed.

Lemma send_log command e :
  currentAlive e ->
  keepsLog e (send command e) /\ currentAlive (send command e).
Proof.
  intro A. unfold send. destruct (worker e) as [w|] eqn:W.
  - destruct (A w W) as (k & Hk & Ht). split.
    + intros j wk H. cbn [workers postMessage setWorkers].
      rewrite nth_error_update. destruct (Nat.eqb_spec w j) as [->|N].
      * rewrite H. cbn. eexists. split; [reflexivity|]. cbn.
        assert (wk = k) by congruence. subst wk.
        split; [congruence|]. split; [now exists [command] | congruence].
      * exists wk. repeat split; auto. exists []. now rewrite app_nil_r.
    + intros x Hx. cbn in Hx. rewrite W in Hx. injection Hx as <-.
      unfold alive. cbn [workers postMessage setWorkers].
      rewrite nth_error_update_eq, Hk. cbn. eexists. split; [reflexivity|].
      exact Ht.
  - split; [apply keepsLog_refl | exact A].
Qed.

Lemma executor_log r e :
  currentAlive e ->
  keepsLog e (executor r e) /\ currentAlive (executor r e).
Proof.
  intro A. unfold executor.
  set (e1 := setQueue _ e).
  assert (A1 : currentAlive e1) by exact A.
  destruct (send_log ("position fen " ++ reqFen r) e1 A1) as [K2 A2].
  destruct (send_log ("go depth " ++ numberToString (reqDepth r)) _ A2)
    as [K3 A3].
  split; [|exact A3].
  eapply keepsLog_trans; [|exact K3].
  eapply keepsLog_trans; [|exact K2]. now apply keepsLog_same.
Qed.

Lemma resume_log k e :
  currentAlive e -> keepsLog e (resume k e) /\ currentAlive (resume k e).
Proof.
  intro A. destruct k; [split; [apply keepsLog_refl | exact A]|].
  now apply executor_log.
Qed.

Lemma initialize_log k e :
  currentAlive e ->
  keepsLog e (initialize k e) /\ currentAlive (initialize k e).
Proof.
  intro A. unfold initialize. destruct (negb (window e)).
  - now apply resume_log.
  - set (e1 := setWorker _ _).
    assert (K1 : keepsLog e e1).
    { intros j wk H. exists wk. cbn [e1 workers setWorker setWorkers].
      rewrite nth_error_app1 by (apply nth_error_Some; congruence).
      repeat split; auto. exists []. now rewrite app_nil_r. }
    assert (A1 : currentAlive e1).
    { intros w Hw. cbn in Hw. injection Hw as <-.
      unfold alive. cbn [e1 workers setWorker setWorkers].
      rewrite nth_error_app2 by lia. rewrite Nat.sub_diag. cbn.
      eexists. split; reflexivity. }
    destruct (send_log "uci" e1 A1) as [K2 A2].
    split; [eapply keepsLog_trans; eassumption | exact A2].
Qed.

Lemma analyze_log o fen d e :
  currentAlive e ->
  keepsLog e (analyze o fen d e) /\ currentAlive (analyze o fen d e).
Proof.
  intro A. unfold analyze.
  set (e1 := setPromises _ e). assert (A1 : currentAlive e1) by exact A.
  destruct (ready e).
  - destruct (executor_log {| reqId := List.length (promises e);
                              reqFen := fen; reqDepth := depthArg o d |}
                e1 A1) as [K2 A2].
    split; [|exact A2]. eapply keepsLog_trans; [|exact K2].
    now apply keepsLog_same.
  - destruct (initialize_log
                (Suspended {| reqId := List.length (promises e);
                              reqFen := fen; reqDepth := depthArg o d |})
                e1 A1) as [K2 A2].
    split; [|exact A2]. eapply keepsLog_trans; [|exact K2].
    now apply keepsLog_same.
Qed.

Lemma markResolved_log w e :
  currentAlive e ->
  keepsLog e (markResolved w e) /\ currentAlive (markResolved w e).
Proof.
  intro A. split.
  - intros j wk H. cbn [workers markResolved setWorkers].
    rewrite nth_error_update, H. destruct (Nat.eqb w j); cbn;
      eexists; (split; [reflexivity|]); cbn; repeat split; auto;
      exists []; now rewrite app_nil_r.
  - intros x Hx. cbn in Hx. destruct (A x Hx) as (k & Hk & Ht).
    unfold alive. cbn [workers markResolved setWorkers].
    rewrite nth_error_update, Hk. destruct (Nat.eqb w x); cbn;
      eexists; (split; [reflexivity|]); exact Ht.
Qed.

Lemma dispatch_log h message e :
  currentAlive e ->
  keepsLog e (dispatch h message e) /\ currentAlive (dispatch h message e).
Proof.
  intro A. unfold dispatch.
  destruct (messageHandler (closure h) message) as [c [result| |]];
    (split; [now apply keepsLog_same | exact A]).
Qed.

Lemma onmessage_log w message e :
  currentAlive e ->
  keepsLog e (onmessage w message e) /\ currentAlive (onmessage w message e).
Proof.
  intro A. unfold onmessage.
  destruct (nth_error (workers e) w) as [k|];
    [|split; [apply keepsLog_refl | exact A]].
  destruct (terminated k); [split; [apply keepsLog_refl | exact A]|].
  set (e1 := if String.eqb message "uciok" then _ else e).
  assert (H1 : keepsLog e e1 /\ currentAlive e1).
  { unfold e1. destruct (String.eqb message "uciok");
      [|split; [apply keepsLog_refl | exact A]].
    assert (A0 : currentAlive (setReady true e)) by exact A.
    destruct (send_log "setoption name Threads value 2" _ A0) as [K1 A1].
    destruct (send_log "setoption name Hash value 128" _ A1) as [K2 A2].
    destruct (markResolved_log w _ A2) as [K3 A3].
    split; [|exact A3].
    eapply keepsLog_trans; [|exact K3].
    eapply keepsLog_trans; [|exact K2].
    eapply keepsLog_trans; [|exact K1]. now apply keepsLog_same. }
  destruct H1 as [K1 A1].
  set (e2 := match messageQueue e1 with [] => e1 | _ => _ end).
  assert (H2 : keepsLog e1 e2 /\ currentAlive e2).
  { unfold e2. destruct (messageQueue e1) as [|h rest];
      [split; [apply keepsLog_refl | exact A1]|].
    assert (A1' : currentAlive (setQueue rest e1)) by exact A1.
    destruct (dispatch_log h message _ A1') as [K A2].
    split; [|exact A2]. eapply keepsLog_trans; [|exact K].
    now apply keepsLog_same. }
  destruct H2 as [K2 A2].
  destruct (_ && _).
  - destruct (resume_log (initWaiter k) e2 A2) as [K3 A3].
    split; [|exact A3].
    eapply keepsLog_trans; [|exact K3].
    eapply keepsLog_trans; eassumption.
  - split; [eapply keepsLog_trans; eassumption | exact A2].
Qed.

Lemma terminate_log e :
  currentAlive e -> keepsLog e (terminate e) /\ currentAlive (terminate e).
Proof.
  intro A. unfold terminate. destruct (worker e) as [w|];
    [|split; [apply keepsLog_refl | exact A]].
  split; [|intros x Hx; discriminate].
  intros j wk H. cbn [workers setReady setWorker setWorkers].
  rewrite nth_error_update, H. destruct (Nat.eqb w j); cbn;
    eexists; (split; [reflexivity|]); cbn; repeat split; auto;
    exists []; now rewrite app_nil_r.
Qed.

Lemma step_log e ev :
  currentAlive e -> keepsLog e (step e ev) /\ currentAlive (step e ev).
Proof.
  destruct ev; cbn [step].
  - apply initialize_log.
  - apply analyze_log.
  - apply terminate_log.
  - apply onmessage_log.
Qed.

Lemma run_log evs :
  forall e, currentAlive e ->
            keepsLog e (run e evs) /\ currentAlive (run e evs).
Proof.
  induction evs as [|ev evs IH]; intros e A.
  - split; [apply keepsLog_refl | exact A].
  - rewrite run_cons. destruct (step_log e ev A) as [K1 A1].
    destruct (IH _ A1) as [K2 A2].
    split; [eapply keepsLog_trans; eassumption | exact A2].
Qed.

Lemma create_currentAlive hasWindow : currentAlive (create hasWindow).
Proof. intros w H. discriminate. Qed.

(** X12.  Each conduit is a log.  In every run, what has been written
    to a Worker stays written and later lines come after it; [this.worker]
    never names a terminated Worker; and once a Worker is terminated
    nothing more is written to it and it stays terminated. *)
Theorem conduits_are_logs :
  forall (hasWindow : bool) (evs more : list Event),
    let e := run (create hasWindow) evs in
    let e' := run e more in
    (forall w, worker e = Some w -> alive e w) /\
    (forall k, (k < List.length (workers e))%nat ->
               exists lines, conduit e' k = (conduit e k ++ lines)%list) /\
    (forall k, stopped e k -> stopped e' k /\ conduit e' k = conduit e k).
Proof.
  intros hasWindow evs more e e'.
  destruct (run_log evs (create hasWindow) (create_currentAlive hasWindow))
    as [_ A].
  fold e in A. destruct (run_log more e A) as [K _]. fold e' in K.
  split; [exact A|]. split.
  - intros k Hk. destruct (nth_error (workers e) k) as [wk|] eqn:E;
      [|apply nth_error_None in E; lia].
    destruct (K k wk E) as (wk' & N & _ & [l P] & _).
    exists l. unfold conduit. now rewrite E, N.
  - intros k (wk & E & T).
    destruct (K k wk E) as (wk' & N & T' & _ & F).
    split; [exists wk'; auto|]. unfold conduit. rewrite E, N. auto.
Qed.

(** *** The handshake comes first *)

Lemma greeted_update e e' w (f : Worker -> Worker) :
  workers e' = update w f (workers e) ->
  (forall k more, posted k = "uci" :: more ->
                  exists more', posted (f k) = "uci" :: more') ->
  greeted e -> greeted e'.
Proof.
  intros E F G j wk H. rewrite E, nth_error_update in H.
  destruct (Nat.eqb w j).
  - destruct (nth_error (workers e) j) as [k|] eqn:N; [|discriminate].
    cbn in H. injection H as <-. destruct (G j k N) as [more P]. eauto.
  - eauto.
Qed.

Lemma greeted_same e e' : workers e' = workers e -> greeted e -> greeted e'.
Proof. intros E G j wk H. rewrite E in H. eauto. Qed.

Lemma send_greeted command e : greeted e -> greeted (send command e).
Proof.
  intro G. unfold send. destruct (worker e) as [w|]; [|exact G].
  eapply greeted_update; [reflexivity | | exact G].
  intros k more P. cbn. rewrite P. eexists. reflexivity.
Qed.

Lemma executor_greeted r e : greeted e -> greeted (executor r e).
Proof.
  intro G. unfold executor. do 2 apply send_greeted. exact G.
Qed.

Lemma resume_greeted k e : greeted e -> greeted (resume k e).
Proof. destruct k; [auto | apply executor_greeted]. Qed.

Lemma initialize_greeted k e : greeted e -> greeted (initialize k e).
Proof.
  intro G. unfold initialize. destruct (negb (window e)).
  - now apply resume_greeted.
  - unfold send. cbn [worker setWorker setWorkers].
    intros j wk H. cbn [workers postMessage setWorkers setWorker] in H.
    rewrite nth_error_update in H.
    destruct (Nat.eqb_spec (List.length (workers e)) j) as [<-|N].
    + rewrite nth_error_app2, Nat.sub_diag in H by lia. cbn in H.
      injection H as <-. cbn. eexists. reflexivity.
    + destruct (Nat.lt_ge_cases j (List.length (workers e))) as [L|L].
      * rewrite nth_error_app1 in H by exact L. eauto.
      * assert (nth_error (workers e ++ [{| posted := [];
                  terminated := false; initResolved := false;
                  initWaiter := k |}]) j = None).
        { apply nth_error_None. rewrite length_app. cbn. lia. }
        congruence.
Qed.

Lemma step_greeted e ev : greeted e -> greeted (step e ev).
Proof.
  intro G. destruct ev; cbn [step].
  - now apply initialize_greeted.
  - unfold analyze. destruct (ready e).
    + now apply executor_greeted.
    + now apply initialize_greeted.
  - unfold terminate. destruct (worker e) as [w|]; [|exact G].
    eapply greeted_update; [reflexivity | | exact G].
    intros k more P. cbn. eauto.
  - unfold onmessage.
    destruct (nth_error (workers e) w) as [k|]; [|exact G].
    destruct (terminated k); [exact G|].
    set (e1 := if String.eqb data "uciok" then _ else e).
    assert (G1 : greeted e1).
    { unfold e1. destruct (String.eqb data "uciok"); [|exact G].
      eapply greeted_update; [reflexivity | |].
      - intros x more P. cbn. eauto.
      - do 2 apply send_greeted. exact G. }
    set (e2 := match messageQueue e1 with [] => e1 | _ => _ end).
    assert (G2 : greeted e2).
    { unfold e2. destruct (messageQueue e1) as [|h rest]; [exact G1|].
      unfold dispatch.
      destruct (messageHandler (closure h) data) as [c [result| |]];
        exact G1. }
    destruct (_ && _); [now apply resume_greeted | exact G2].
Qed.

Lemma run_greeted evs : forall e, greeted e -> greeted (run e evs).
Proof.
  induction evs as [|ev evs IH]; intros e G; [exact G|].
  rewrite run_cons. apply IH. now apply step_greeted.
Qed.

(** X13.  The Worker is always greeted first: in every run, the first
    line written to any Worker the adapter has created is 'uci'. *)
Theorem every_worker_is_greeted_first :
  forall (hasWindow : bool) (evs : list Event) (k : nat),
    let e := run (create hasWindow) evs in
    (k < List.length (workers e))%nat ->
    exists more, conduit e k = "uci" :: more.
Proof.
  intros hasWindow evs k e Hk.
  assert (G : greeted e).
  { apply run_greeted. intros j wk H. destruct j; discriminate. }
  unfold conduit.
  destruct (nth_error (workers e) k) as [wk|] eqn:E;
    [|apply nth_error_None in E; lia].
  exact (G k wk E).
Qed.

Lemma every_worker_is_greeted_first_restart :
  let e :=
    run (create true)
      [Initialize; Message 0 "uciok"; Terminate;
       Call OpAnalyze startFen (Some 15%Z)] in
  exists more, conduit e 1 = "uci" :: more.
Proof.
  apply (every_worker_is_greeted_first true
           [Initialize; Message 0 "uciok"; Terminate;
            Call OpAnalyze startFen (Some 15%Z)] 1).
  vm_compute. lia.
Defined.

(** *** Where there is no window *)

Lemma send_nowhere command e : worker e = None -> send command e = e.
Proof. unfold send. now intros ->. Qed.

Lemma executor_nowhere r e :
  worker e = None ->
  executor r e =
  setQueue
    (messageQueue e ++ [{| request := reqId r; closure := closure0 |}]) e.
Proof.
  intro C. unfold executor.
  set (e1 := setQueue _ e). assert (C1 : worker e1 = None) by exact C.
  now rewrite (send_nowhere _ e1 C1), (send_nowhere _ e1 C1).
Qed.

Lemma step_inert e ev : inert e -> inert (step e ev).
Proof.
  intros (W & C & Ws & P). destruct ev; cbn [step].
  - unfold initialize. rewrite W. cbn. repeat split; assumption.
  - assert (P' : Forall (fun p : Op * Promise EngineMove => snd p = Pending)
                   (promises e ++ [(o, Pending)])).
    { apply Forall_app. split; [exact P | now repeat constructor]. }
    unfold analyze, initialize. cbn [window setPromises]. rewrite W.
    cbn [negb resume].
    destruct (ready e); rewrite executor_nowhere by exact C;
      repeat split; assumption.
  - unfold terminate. rewrite C. repeat split; assumption.
  - unfold onmessage. rewrite Ws. destruct w; cbn; repeat split; assumption.
Qed.

Lemma run_inert evs : forall e, inert e -> inert (run e evs).
Proof.
  induction evs as [|ev evs IH]; intros e H; [exact H|].
  rewrite run_cons. apply IH. now apply step_inert.
Qed.

(** X14.  Where [window] is undefined (on the server) the adapter is
    inert: whatever is called and for however long, it creates no Worker,
    writes no command, and no Future it has handed out is ever fulfilled
    or rejected. *)
Theorem without_window_nothing_is_answered :
  forall (evs : list Event),
    let e := run (create false) evs in
    workers e = [] /\
    (forall k, conduit e k = []) /\
    (forall i p, future e i = Some p -> p = Pending).
Proof.
  intros evs e.
  assert (H : inert e).
  { apply run_inert. repeat split. constructor. }
  destruct H as (_ & _ & Ws & P).
  split; [exact Ws|]. split.
  - intro k. unfold conduit. rewrite Ws. now destruct k.
  - intros i p F. unfold future in F.
    destruct (nth_error (promises e) i) as [[o q]|] eqn:E; [|discriminate].
    apply nth_error_In in E. rewrite Forall_forall in P.
    specialize (P _ E). cbn in P. subst q. now injection F as <-.
Qed.

(** *** Starting on demand *)

(** X15.  A call on a channel that is not ready, in a browser, starts
    the evaluator on demand.  The call creates a Worker and sends 'uci';
    when that Worker answers 'uciok' the adapter configures it and only
    then submits the request, so the new conduit reads: uci, the two
    options, the position, the search.  The channel is ready, the
    request's handler is last in the queue and its Future is pending. *)
Theorem call_starts_the_evaluator_on_demand :
  forall (e : StockfishEngine) (o : Op) (fen : string) (d : option Z),
    ready e = false -> window e = true ->
    let n := List.length (workers e) in
    let i := List.length (promises e) in
    let e' := run e [Call o fen d; Message n "uciok"] in
    ready e' = true /\
    worker e' = Some n /\
    conduit e' n =
      ["uci"; "setoption name Threads value 2";
       "setoption name Hash value 128";
       "position fen " ++ fen;
       "go depth " ++ numberToString (depthArg o d)] /\
    messageQueue e' =
      (rotated (messageQueue e) ++
       [{| request := i; closure := closure0 |}])%list /\
    future e' i = Some Pending.
Proof.
  intros e o fen d Hr Hw n i e'.
  unfold e'. rewrite run_cons. cbn [step run fold_left].
  destruct (analyze_unready_window o fen d e Hr Hw)
    as (W1 & C1 & R1 & Q1 & F1).
  set (e1 := analyze o fen d e) in *. fold n in W1, C1. fold i in F1.
  (* the new Worker as the call leaves it *)
  assert (K : nth_error (workers e1) n =
              Some {| posted := ["uci"]; terminated := false;
                      initResolved := false;
                      initWaiter :=
                        Suspended {| reqId := i; reqFen := fen;
                                     reqDepth := depthArg o d |} |}).
  { unfold e1, analyze, initialize. rewrite Hr.
    cbn [window setPromises]. rewrite Hw. cbn [negb].
    unfold send. cbn [worker setWorker setWorkers workers postMessage].
    rewrite nth_error_update_eq.
    change (workers (setPromises _ e)) with (workers e).
    rewrite nth_error_app2 by (unfold n; lia).
    unfold n. rewrite Nat.sub_diag. reflexivity. }
  assert (L1 : (n < List.length (workers e1))%nat).
  { apply nth_error_Some. congruence. }
  unfold onmessage. rewrite K. cbn [terminated initResolved initWaiter].
  change (String.eqb "uciok" "uciok") with true. cbn [andb negb resume].
  set (a := setReady true e1).
  set (b := send "setoption name Threads value 2" a).
  set (c := send "setoption name Hash value 128" b).
  set (m := markResolved n c).
  assert (Wa : worker a = Some n) by exact W1.
  assert (La : (n < List.length (workers a))%nat) by exact L1.
  destruct (send_fields "setoption name Threads value 2" a)
    as (Wb & Rb & Qb & _ & Pb & Lb). fold b in Wb, Rb, Qb, Pb, Lb.
  destruct (send_fields "setoption name Hash value 128" b)
    as (Wc & Rc & Qc & _ & Pc & Lc). fold c in Wc, Rc, Qc, Pc, Lc.
  assert (Cc : conduit c n =
               ["uci"; "setoption name Threads value 2";
                "setoption name Hash value 128"]).
  { unfold c. rewrite conduit_send by congruence.
    unfold b. rewrite conduit_send by congruence.
    change (conduit a n) with (conduit e1 n). now rewrite C1. }
  assert (Cm : conduit m n = conduit c n).
  { unfold conduit, m. cbn [workers markResolved setWorkers].
    rewrite nth_error_update_eq. now destruct (nth_error (workers c) n). }
  assert (Wm : worker m = Some n).
  { change (worker m) with (worker c). now rewrite Wc, Wb. }
  assert (Lm : (n < List.length (workers m))%nat).
  { cbn [m workers markResolved setWorkers]. rewrite length_update. lia. }
  assert (Qm : messageQueue m = messageQueue e).
  { change (messageQueue m) with (messageQueue c). rewrite Qc, Qb. exact Q1. }
  assert (Pm : promises m = promises e1).
  { change (promises m) with (promises c). now rewrite Pc, Pb. }
  assert (Rm : ready m = true).
  { change (ready m) with (ready c). now rewrite Rc, Rb. }
  (* the head handler, if any, only looks at 'uciok' *)
  set (e2 := match messageQueue m with [] => m | _ => _ end).
  assert (H2 : worker e2 = Some n /\ workers e2 = workers m /\
               ready e2 = true /\ promises e2 = promises m /\
               messageQueue e2 = rotated (messageQueue e)).
  { unfold e2. rewrite Qm. destruct (messageQueue e) as [|h rest].
    - repeat split; try assumption; exact Qm.
    - unfold dispatch, messageHandler.
      change (startsWith "uciok" "info depth") with false.
      change (startsWith "uciok" "bestmove") with false.
      cbn iota. cbn [worker workers ready promises messageQueue setQueue].
      destruct h. repeat split; assumption. }
  destruct H2 as (W2 & Ws2 & R2 & P2 & Q2).
  assert (L2 : (n < List.length (workers e2))%nat) by (rewrite Ws2; exact Lm).
  set (r := {| reqId := i; reqFen := fen; reqDepth := depthArg o d |}).
  destruct (executor_fields r e2) as (W3 & R3 & _ & P3 & _ & Q3).
  rewrite W3, R3, Q3, Q2.
  split; [exact R2|]. split; [exact W2|]. split; [|split; [reflexivity|]].
  - rewrite (conduit_executor r e2 n W2 L2).
    replace (conduit e2 n) with (conduit m n)
      by (unfold conduit; now rewrite Ws2).
    now rewrite Cm, Cc.
  - unfold future. rewrite P3, P2, Pm. exact F1.
Qed.

Lemma call_starts_the_evaluator_on_demand_fresh :
  let e := create true in
  let n := List.length (workers e) in
  let i := List.length (promises e) in
  let e' :=
    run e [Call OpAnalyze startFen (Some 15%Z); Message n "uciok"] in
  ready e' = true /\
  worker e' = Some n /\
  conduit e' n =
    ["uci"; "setoption name Threads value 2";
     "setoption name Hash value 128";
     "position fen " ++ startFen;
     "go depth " ++ numberToString (depthArg OpAnalyze (Some 15%Z))] /\
  messageQueue e' =
    (rotated (messageQueue e) ++
     [{| request := i; closure := closure0 |}])%list /\
  future e' i = Some Pending.
Proof.
  apply (call_starts_the_evaluator_on_demand (create true) OpAnalyze
           startFen (Some 15%Z)); reflexivity.
Defined.

End RunFacts.

(* ================================================================== *)
(** ** Properties of [analyzeGame] on the adapter *)
(* ================================================================== *)

Module SessionFacts.

Import JS Engine Analyzer Stated Runs Reported Session.
Import EngineFacts RunFacts.
Local Open Scope string_scope.

(** *** Where there is no window *)

Lemma onmessage_inert w data e : inert e -> onmessage w data e = e.
Proof.
  intros (_ & _ & Ws & _). unfold onmessage. rewrite Ws. now destruct w.
Qed.

Lemma analyze_inert o fen d e : inert e -> inert (analyze o fen d e).
Proof. intro H. exact (step_inert e (Call o fen d) H). Qed.

Lemma terminate_inert e : inert e -> terminate e = e.
Proof. intros (_ & C & _ & _). unfold terminate. now rewrite C. Qed.

(** Plies of the opponent that can be replayed are passed over. *)
Lemma advance_skip playerColor (pre : list Board) :
  forall i tail v e,
    playerBoards playerColor i pre = [] ->
    advance playerColor i (map Moved pre ++ tail) v e =
    advance playerColor (i + List.length pre) tail v e.
Proof.
  induction pre as [|b pre IH]; intros i tail v e H;
    cbn [map app List.length].
  - now rewrite Nat.add_0_r.
  - cbn [playerBoards] in H. cbn [advance].
    destruct (isPlayerMove playerColor i); [discriminate|]. cbn [negb].
    rewrite IH by exact H. now rewrite Nat.add_succ_r.
Qed.

Lemma wake_halted playerColor s :
  inert (engine s) -> halted (stage s) -> wake playerColor s = s.
Proof.
  intros (_ & _ & _ & P)
         [[r E] | [[error E] | (i & m & rest & v & req & E)]];
    unfold wake; rewrite E; try reflexivity.
  destruct (nth_error (promises (engine s)) req) as [[o q]|] eqn:N;
    [|reflexivity].
  apply nth_error_In in N. rewrite Forall_forall in P.
  specialize (P _ N). cbn in P. now subst q.
Qed.

Lemma receive_halted playerColor ms :
  forall s,
    inert (engine s) -> halted (stage s) -> receive playerColor s ms = s.
Proof.
  induction ms as [|m ms IH]; intros s H St; [reflexivity|].
  cbn [receive fold_left]. unfold deliver at 2.
  rewrite (onmessage_inert _ _ _ H).
  replace {| stage := stage s; engine := engine s |} with s
    by now destruct s.
  rewrite (wake_halted playerColor s H St). now apply IH.
Qed.

(** Where [analyzeGame] stands after its synchronous start on an inert
    adapter: nothing can wake it again. *)
Lemma enter_inert playerColor pgn e :
  inert e ->
  inert (engine (enter playerColor pgn e)) /\
  halted (stage (enter playerColor pgn e)).
Proof.
  intro H. destruct pgn as [error|history]; cbn [enter].
  - split; [exact H|]. right. left. now exists error.
  - generalize 0%nat, vars0. induction history as [|m rest IH];
      intros i v; cbn [advance].
    + rewrite (terminate_inert e H). split; [exact H|]. left.
      now exists (report v).
    + destruct (isPlayerMove playerColor i); cbn [negb].
      * split; [now apply analyze_inert|]. right. right.
        now exists i, m, rest, v, (List.length (promises e)).
      * destruct m as [b|fen error]; [apply IH|].
        split; [exact H|]. right. left. now exists error.
Qed.

(** X16.  On the server, where [window] is undefined, [analyzeGame]
    stops in its synchronous start and nothing that arrives later moves
    it.  It is left by the exception of [loadPgn], or by that of
    [chess.move] on a ply of the opponent that cannot be replayed before
    the player's first ply.  Otherwise it returns only for a game in
    which the tracked player made no move, and then with the all-zero
    report; and when the player has a ply it stops at its first call of
    [analyze] and neither returns nor throws.  No command is ever
    written. *)
Theorem analyzeGame_without_window :
  forall (playerColor : Color) (pgn : Pgn) (ms : list (nat * string)),
    let s := receive playerColor (start false playerColor pgn) ms in
    (forall error, pgn = Malformed error -> thrown s = Some error) /\
    (forall pre fen error post,
        pgn = Loaded (map Moved pre ++ Illegal fen error :: post) ->
        playerBoards playerColor 0 pre = [] ->
        isPlayerMove playerColor (List.length pre) = false ->
        thrown s = Some error) /\
    (forall pre,
        pgn = Loaded (map Moved pre) ->
        playerBoards playerColor 0 pre = [] ->
        returned s = Some emptyReport) /\
    (forall pre m post,
        pgn = Loaded (map Moved pre ++ m :: post) ->
        playerBoards playerColor 0 pre = [] ->
        isPlayerMove playerColor (List.length pre) = true ->
        returned s = None /\ thrown s = None) /\
    (forall k, conduit (engine s) k = []).
Proof.
  intros c pgn ms s.
  assert (H0 : inert (create false)) by (repeat split; constructor).
  assert (S0 : start false c pgn = enter c pgn (create false))
    by reflexivity.
  destruct (enter_inert c pgn (create false) H0) as [I St].
  assert (E : s = enter c pgn (create false)).
  { unfold s. rewrite S0. now apply receive_halted. }
  rewrite E. split; [|split; [|split; [|split]]].
  - intros error ->. reflexivity.
  - intros pre fen error post -> N P. cbn [enter].
    rewrite advance_skip by exact N. cbn [advance Nat.add].
    rewrite P. reflexivity.
  - intros pre -> N. cbn [enter].
    rewrite <- (app_nil_r (map Moved pre)).
    rewrite advance_skip by exact N. reflexivity.
  - intros pre m post -> N P. cbn [enter].
    rewrite advance_skip by exact N. cbn [advance Nat.add].
    rewrite P. split; reflexivity.
  - intro k. destruct I as (_ & _ & Ws & _).
    unfold conduit. rewrite Ws. now destruct k.
Qed.

(** *** With an evaluator that answers *)

Lemma wake_awaits playerColor st e req o :
  awaits st req ->
  nth_error (promises e) req = Some (o, Pending) ->
  wake playerColor {| stage := st; engine := e |} =
  {| stage := st; engine := e |}.
Proof.
  intros [(i & b & rest & v & ->) | (i & b & rest & v & a & ->)] N;
    unfold wake; cbn [stage engine]; now rewrite N.
Qed.

(** While the search lines of an answer arrive the analyzer keeps
    waiting and the handler of its req takes them in. *)
Lemma receive_search_lines playerColor st w req o (lines : list string) :
  forall e c,
    awaits st req ->
    alive e w ->
    nth_error (promises e) req = Some (o, Pending) ->
    messageQueue e = [{| request := req; closure := c |}] ->
    Forall searchLine lines ->
    receive playerColor {| stage := st; engine := e |}
      (map (fun line => (w, line)) lines) =
    {| stage := st;
       engine :=
         setQueue [{| request := req; closure := absorb c lines |}] e |}.
Proof.
  induction lines as [|line lines IH]; intros e c Aw Al N Q F.
  - cbn. f_equal. destruct e. cbn in *. now rewrite Q.
  - inversion F as [|x l Hx Hl]; subst.
    cbn [map receive fold_left]. unfold deliver at 2. cbn [fst snd stage engine].
    rewrite (onmessage_search_line e w line _ [] Al Hx Q).
    cbn [app request closure].
    rewrite (wake_awaits playerColor st _ req o Aw) by exact N.
    change (fold_left (deliver playerColor) ?l ?s)
      with (receive playerColor s l).
    rewrite (IH _ (fst (messageHandler c line)) Aw);
      [reflexivity | | exact N | reflexivity | exact Hl].
    destruct Al as (k & Hk & Ht). now exists k.
Qed.

Lemma receive_app playerColor s ms1 ms2 :
  receive playerColor s (ms1 ++ ms2) =
  receive playerColor (receive playerColor s ms1) ms2.
Proof. unfold receive. apply fold_left_app. Qed.

Lemma resultOf_eq (a : Answer) :
  resultOf a =
  fst (messageHandler (absorb closure0 (searchLines a)) (resultLine a)).
Proof. reflexivity. Qed.

(** A whole answer: the Future of the req is fulfilled with what the
    handler made of the lines, the queue is empty again, and the analyzer
    is woken. *)
Lemma receive_answer playerColor st e w req o (a : Answer) :
  awaits st req ->
  alive e w ->
  nth_error (promises e) req = Some (o, Pending) ->
  messageQueue e = [{| request := req; closure := closure0 |}] ->
  wellFormed a ->
  receive playerColor {| stage := st; engine := e |} (messagesOf w a) =
  wake playerColor
    {| stage := st;
       engine := resolve req (resultOf a) (setQueue [] e) |}.
Proof.
  intros Aw Al N Q (F & B & M). unfold messagesOf.
  rewrite receive_app.
  rewrite (receive_search_lines playerColor st w req o (searchLines a)
             e closure0 Aw Al N Q F).
  cbn [receive fold_left]. unfold deliver. cbn [fst snd stage engine].
  f_equal. f_equal.
  assert (U : String.eqb (resultLine a) "uciok" = false).
  { destruct (resultLine a) as [|x r]; [discriminate|].
    unfold startsWith in B. cbn [String.prefix] in B.
    destruct (ascii_dec "b" x) as [<-|]; [reflexivity | discriminate]. }
  erewrite onmessage_head; [| |exact U|reflexivity].
  2:{ destruct Al as (k & Hk & Ht). now exists k. }
  rewrite resultOf_eq.
  unfold dispatch, messageHandler. cbn [closure request].
  rewrite (startsWith_exclusive _ B), B.
  destruct (moveMatch (resultLine a)) as [best|]; [reflexivity|].
  now contradiction M.
Qed.

Lemma idle_alive e w : idle e w -> alive e w.
Proof. intros (_ & _ & _ & A). exact A. Qed.

(** The adapter after an answered call is idle again and has written
    the two commands of the call. *)
Lemma answered_call o fen d e w (r : EngineMove) :
  idle e w ->
  let n := List.length (promises e) in
  let e1 := analyze o fen (Some d) e in
  let e2 := resolve n r (setQueue [] e1) in
  alive e1 w /\
  nth_error (promises e1) n = Some (o, Pending) /\
  messageQueue e1 = [{| request := n; closure := closure0 |}] /\
  idle e2 w /\
  nth_error (promises e2) n = Some (o, Fulfilled r) /\
  List.length (promises e2) = S n /\
  conduit e2 w =
    (conduit e w ++
     [("position fen " ++ fen)%string;
      ("go depth " ++ numberToString d)%string])%list.
Proof.
  intros (R & W & Q & A) n e1 e2.
  assert (L : (w < List.length (workers e))%nat).
  { destruct A as (k & Hk & _). apply nth_error_Some. congruence. }
  destruct (analyze_ready o fen (Some d) e w R W L)
    as (R1 & W1 & L1 & P1 & Q1 & C1).
  fold e1 in R1, W1, L1, P1, Q1, C1. rewrite Q in Q1. cbn [app] in Q1.
  assert (A1 : alive e1 w).
  { unfold e1, analyze. rewrite R. now apply alive_executor. }
  assert (N1 : nth_error (promises e1) n = Some (o, Pending)).
  { rewrite P1, nth_error_app2 by (unfold n; lia).
    unfold n. now rewrite Nat.sub_diag. }
  split; [exact A1|]. split; [exact N1|]. split; [exact Q1|].
  split; [|split; [|split]].
  - repeat split; try assumption; exact A1.
  - unfold e2, resolve. cbn [promises setPromises setQueue].
    now rewrite nth_error_update_eq, N1.
  - unfold e2, resolve. cbn [promises setPromises setQueue].
    rewrite length_update, P1, length_app. cbn. unfold n. lia.
  - exact C1.
Qed.

Lemma terminate_current e w k :
  worker e = Some w -> nth_error (workers e) w = Some k ->
  worker (terminate e) = None /\
  stopped (terminate e) w /\
  conduit (terminate e) w = conduit e w.
Proof.
  intros W K. unfold terminate, stopped, conduit. rewrite W.
  cbn [worker workers setReady setWorker setWorkers].
  rewrite nth_error_update_eq, K. cbn.
  split; [reflexivity|]. split; [|reflexivity].
  eexists. split; reflexivity.
Qed.

(** The loop over plies that can be replayed, from index [i] on, with
    an idle adapter and an evaluator that answers every call: when the
    answers have arrived the analyzer stands behind those plies with the
    variables of the modelled loop over the plies made of the answers,
    the adapter is idle again, and the conduit has received the commands
    of the player's plies in order. *)
Lemma play playerColor w (turns : list Turn) :
  forall i v e tail ms,
    idle e w ->
    Forall (fun t => wellFormed (before t) /\ wellFormed (after t)) turns ->
    exists e',
      idle e' w /\
      conduit e' w = (conduit e w ++ commands playerColor i turns)%list /\
      receive playerColor
        (advance playerColor i (replayable turns ++ tail) v e)
        (script playerColor w i turns ++ ms) =
      receive playerColor
        (advance playerColor (i + List.length turns) tail
           (loop playerColor i (map turnPly turns) v) e')
        ms.
Proof.
  induction turns as [|t rest IH]; intros i v e tail ms I F.
  - exists e. cbn [replayable map app script loop commands List.length].
    rewrite Nat.add_0_r, app_nil_r.
    split; [exact I|]. split; reflexivity.
  - inversion F as [|x l [Fb Fa] Fr]; subst.
    cbn [replayable map app advance script loop commands List.length].
    fold (replayable rest). unfold iteration. rewrite Nat.add_succ_r.
    destruct (isPlayerMove playerColor i) eqn:T; cbn [negb].
    2:{ cbn [app]. now apply IH. }
    (* the call of analyze and its answer *)
    destruct (answered_call OpAnalyze (fenBefore (board t)) 15 e w
                (resultOf (before t)) I)
      as (A1 & N1 & Q1 & I1 & P1 & L1 & C1).
    set (n := List.length (promises e)) in *.
    set (e1 := analyze OpAnalyze (fenBefore (board t)) (Some 15%Z) e) in *.
    set (e1' := resolve n (resultOf (before t)) (setQueue [] e1)) in *.
    (* the call of evaluatePosition and its answer *)
    destruct (answered_call OpEvaluatePosition (fenAfter (board t)) 12 e1' w
                (resultOf (after t)) I1)
      as (A2 & N2 & Q2 & I2 & P2 & L2 & C2).
    set (m := List.length (promises e1')) in *.
    set (e2 := analyze OpEvaluatePosition (fenAfter (board t)) (Some 12%Z) e1')
      in *.
    set (e2' := resolve m (resultOf (after t)) (setQueue [] e2)) in *.
    set (v' := playerMove playerColor i
                 (plyOf (board t) (resultOf (before t)) (resultOf (after t)))
                 v).
    set (hist := (replayable rest ++ tail)%list).
    assert (E :
      receive playerColor
        {| stage := Analyzing i (Moved (board t)) hist v n;
           engine := e1 |}
        (((messagesOf w (before t) ++ messagesOf w (after t)) ++
          script playerColor w (S i) rest) ++ ms) =
      receive playerColor
        (advance playerColor (S i) hist v' e2')
        (script playerColor w (S i) rest ++ ms)).
    { rewrite <- !app_assoc, receive_app.
      rewrite (receive_answer playerColor _ e1 w n OpAnalyze (before t));
        try assumption.
      2:{ left. now exists i, (Moved (board t)), hist, v. }
      unfold wake at 1. cbn [stage engine]. fold e1'. rewrite P1.
      rewrite receive_app.
      rewrite (receive_answer playerColor _ e2 w m OpEvaluatePosition
                 (after t)); try assumption.
      2:{ right. now exists i, (board t), hist, v, (resultOf (before t)). }
      unfold wake at 1. cbn [stage engine]. fold m e2. fold e2'.
      rewrite P2. reflexivity. }
    cbn [fenBeforeOf]. fold n e1. rewrite E.
    destruct (IH (S i) v' e2' tail ms I2 Fr) as (e' & I' & C' & R').
    exists e'. split; [exact I'|]. split; [|exact R'].
    rewrite C', C2, C1. now rewrite <- !app_assoc.
Qed.

Lemma started_idle : idle (onmessage 0 "uciok" (initialize Outside (create true))) 0.
Proof. repeat split. eexists. split; reflexivity. Qed.

(** X17.  In a browser, for a game every ply of which can be replayed
    from the standard starting position, with an evaluator that says
    'uciok' and then answers every search with search lines and a result
    line naming a move, [analyzeGame] run through the adapter returns
    exactly the report of the modelled loop over the plies made of those
    answers.  The adapter ends terminated, and the evaluator has been
    sent the handshake, the two options and then, for each ply of the
    player in order, the position before the move at depth 15 and the
    position after it at depth 12. *)
Theorem analyzeGame_with_answering_evaluator :
  forall (playerColor : Color) (turns : list Turn),
    Forall (fun t => wellFormed (before t) /\ wellFormed (after t)) turns ->
    let s :=
      receive playerColor
        (start true playerColor (Loaded (replayable turns)))
        ((0%nat, "uciok") :: script playerColor 0 0 turns) in
    returned s = Some (analyzeGame (map turnPly turns) playerColor) /\
    thrown s = None /\
    worker (engine s) = None /\
    stopped (engine s) 0 /\
    conduit (engine s) 0 =
      (["uci"; "setoption name Threads value 2";
        "setoption name Hash value 128"]
       ++ commands playerColor 0 turns)%list.
Proof.
  intros c turns F s.
  set (e := onmessage 0 "uciok" (initialize Outside (create true))).
  pose proof started_idle as I. fold e in I.
  destruct (play c 0 turns 0 vars0 e [] [] I F) as (e' & I' & C' & R').
  rewrite !app_nil_r in R'. cbn [advance Nat.add] in R'.
  assert (E : s = receive c (advance c 0 (replayable turns) vars0 e)
                    (script c 0 0 turns)) by reflexivity.
  rewrite E, R'. cbn [receive fold_left returned thrown stage engine].
  destruct I' as (_ & W & _ & (k & Hk & _)).
  destruct (terminate_current e' 0 k W Hk) as (T1 & T2 & T3).
  split; [reflexivity|]. split; [reflexivity|].
  split; [exact T1|]. split; [exact T2|].
  rewrite T3, C'. reflexivity.
Qed.

Lemma analyzeGame_with_answering_evaluator_sample :
  let s :=
    receive white (start true white (Loaded (replayable sampleTurns)))
      ((0%nat, "uciok") :: script white 0 0 sampleTurns) in
  returned s = Some (analyzeGame (map turnPly sampleTurns) white) /\
  thrown s = None /\
  worker (engine s) = None /\
  stopped (engine s) 0 /\
  conduit (engine s) 0 =
    (["uci"; "setoption name Threads value 2";
      "setoption name Hash value 128"]
     ++ commands white 0 sampleTurns)%list.
Proof.
  apply (analyzeGame_with_answering_evaluator white sampleTurns).
  repeat constructor; try reflexivity; vm_compute; discriminate.
Defined.

(** The report of that game: White's 1. e4 drops from the baseline 0 to
    a mate against White, a blunder of accuracy 0. *)
Example sample_report :
  let r := analyzeGame (map turnPly sampleTurns) white in
  blunders r = 1%nat /\ (averageAccuracy r == 0)%Q /\
  map severity (mistakesList r) = [blunder] /\
  map Analyzer.evaluation (mistakesList r) = [(-100)%Q].
Proof. repeat split. Qed.

(** X20.  In a browser, a game that cannot be replayed makes
    [analyzeGame] throw and leaves the evaluator running.  When the
    plies before index j replay and [chess.move] throws at ply j, the
    plies of the player before j are analysed as usual; if ply j is the
    player's, its position is still sent for analysis and the exception
    comes when the answer has arrived.  [analyzeGame] is then left by
    that exception: it returns no report and never calls [terminate()],
    so the Worker stays attached and alive.  The same holds when
    [loadPgn] throws, right after the handshake. *)
Theorem analyzeGame_throws_and_leaves_the_evaluator_running :
  forall (playerColor : Color) (turns : list Turn)
         (fen error : string) (post : list Replayed) (a : Answer),
    Forall (fun t => wellFormed (before t) /\ wellFormed (after t)) turns ->
    wellFormed a ->
    let j := List.length turns in
    let s :=
      receive playerColor
        (start true playerColor
           (Loaded (replayable turns ++ Illegal fen error :: post)))
        ((0%nat, "uciok") :: script playerColor 0 0 turns
         ++ (if isPlayerMove playerColor j then messagesOf 0 a else [])) in
    let s' :=
      receive playerColor (start true playerColor (Malformed error))
        [(0%nat, "uciok")] in
    (thrown s = Some error /\ returned s = None /\
     worker (engine s) = Some 0%nat /\ alive (engine s) 0 /\
     conduit (engine s) 0 =
       (["uci"; "setoption name Threads value 2";
         "setoption name Hash value 128"]
        ++ commands playerColor 0 turns
        ++ (if isPlayerMove playerColor j
            then [("position fen " ++ fen)%string; "go depth 15"]
            else []))%list) /\
    (thrown s' = Some error /\
     worker (engine s') = Some 0%nat /\ alive (engine s') 0).
Proof.
  intros c turns fen error post a F Wa j s s'.
  split; [|repeat split; eexists; split; reflexivity].
  set (e := onmessage 0 "uciok" (initialize Outside (create true))).
  pose proof started_idle as I. fold e in I.
  set (tail := Illegal fen error :: post).
  set (ms := if isPlayerMove c j then messagesOf 0 a else []).
  destruct (play c 0 turns 0 vars0 e tail ms I F) as (e' & I' & C' & R').
  assert (E : s = receive c (advance c 0 (replayable turns ++ tail) vars0 e)
                    (script c 0 0 turns ++ ms)) by reflexivity.
  rewrite E, R'. cbn [Nat.add]. fold j. unfold tail. cbn [advance].
  unfold ms. destruct (isPlayerMove c j) eqn:P; cbn [negb].
  - destruct (answered_call OpAnalyze fen 15 e' 0 (resultOf a) I')
      as (A1 & N1 & Q1 & I1 & P1 & L1 & C1).
    cbn [fenBeforeOf].
    rewrite (receive_answer c
               (Analyzing j (Illegal fen error) post
                  (loop c 0 (map turnPly turns) vars0)
                  (List.length (promises e')))
               (analyze OpAnalyze fen (Some 15%Z) e') 0
               (List.length (promises e')) OpAnalyze a); try assumption.
    2:{ left. now exists j, (Illegal fen error), post,
                        (loop c 0 (map turnPly turns) vars0). }
    unfold wake. cbn [stage engine]. rewrite P1.
    cbn [thrown returned stage engine].
    destruct I1 as (R1 & W1 & Q1' & Al1).
    split; [reflexivity|]. split; [reflexivity|].
    split; [exact W1|]. split; [exact Al1|].
    rewrite C1, C', <- !app_assoc. reflexivity.
  - cbn [receive fold_left thrown returned stage engine].
    destruct I' as (R1 & W1 & Q1' & Al1).
    split; [reflexivity|]. split; [reflexivity|].
    split; [exact W1|]. split; [exact Al1|].
    rewrite C', app_nil_r. reflexivity.
Qed.

(** The game 1. e4 e5 whose third ply cannot be replayed, analysed for
    White: the position after 1... e5 is sent for analysis, and when the
    answer is there [chess.move] throws. *)
Lemma analyzeGame_throws_and_leaves_the_evaluator_running_sample :
  let fen := "rnbqkbnr/pppp1ppp/8/4p3/4P3/8/PPPP1PPP/RNBQKBNR w KQkq - 0 2" in
  let error := "Invalid move: Kd7" in
  let s :=
    receive white
      (start true white
         (Loaded (replayable sampleTurns ++ [Illegal fen error])))
      ((0%nat, "uciok") :: script white 0 0 sampleTurns
       ++ (if isPlayerMove white 2 then messagesOf 0 sampleAnswer else [])) in
  let s' :=
    receive white (start true white (Malformed error)) [(0%nat, "uciok")] in
  (thrown s = Some error /\ returned s = None /\
   worker (engine s) = Some 0%nat /\ alive (engine s) 0 /\
   conduit (engine s) 0 =
     (["uci"; "setoption name Threads value 2";
       "setoption name Hash value 128"]
      ++ commands white 0 sampleTurns
      ++ (if isPlayerMove white 2
          then [("position fen " ++ fen)%string; "go depth 15"]
          else []))%list) /\
  (thrown s' = Some error /\
   worker (engine s') = Some 0%nat /\ alive (engine s') 0).
Proof.
  apply (analyzeGame_throws_and_leaves_the_evaluator_running white
           sampleTurns
           "rnbqkbnr/pppp1ppp/8/4p3/4P3/8/PPPP1PPP/RNBQKBNR w KQkq - 0 2"
           "Invalid move: Kd7" [] sampleAnswer).
  - repeat constructor; try reflexivity; vm_compute; discriminate.
  - repeat constructor; try reflexivity; vm_compute; discriminate.
Defined.

End SessionFacts.

(* ================================================================== *)
(** ** Who holds the [resolve] of a request *)
(* ================================================================== *)

Module QueueFacts.

Import JS Engine Stated Runs EngineFacts RunFacts.
Local Open Scope string_scope.

(** *** Parked requests under the primitives *)

Lemma parked_update (n : nat) (f : Worker -> Worker) (ws : list Worker) :
  (forall k, parked (f k) = parked k) ->
  flat_map parked (update n f ws) = flat_map parked ws.
Proof.
  intro H. revert n. induction ws as [|x ws IH]; intros [|n]; cbn; auto.
  - now rewrite H.
  - now rewrite IH.
Qed.

Lemma parked_send command e :
  flat_map parked (workers (send command e)) = flat_map parked (workers e).
Proof.
  unfold send. destruct (worker e); [|reflexivity].
  cbn [postMessage workers setWorkers]. now apply parked_update.
Qed.

Lemma nth_parked_send command e w k :
  nth_error (workers e) w = Some k ->
  exists k',
    nth_error (workers (send command e)) w = Some k' /\ parked k' = parked k.
Proof.
  intro H. unfold send. destruct (worker e) as [x|]; [|eauto].
  cbn [postMessage workers setWorkers]. rewrite nth_error_update, H.
  destruct (Nat.eqb x w); cbn; eauto.
Qed.

Lemma promises_send command e : promises (send command e) = promises e.
Proof. now destruct (send_fields command e) as (_ & _ & _ & _ & P & _). Qed.

Lemma queue_send command e : messageQueue (send command e) = messageQueue e.
Proof. now destruct (send_fields command e) as (_ & _ & Q & _). Qed.

Lemma holders_send command e : holders (send command e) = holders e.
Proof. unfold holders. now rewrite parked_send, queue_send. Qed.

Lemma holders_executor r e :
  holders (executor r e) =
  (map request (messageQueue e) ++ reqId r :: flat_map parked (workers e))%list.
Proof.
  unfold executor. rewrite !holders_send. unfold holders.
  cbn [messageQueue workers setQueue]. rewrite map_app, <- app_assoc.
  reflexivity.
Qed.

Lemma promises_executor r e : promises (executor r e) = promises e.
Proof. now destruct (executor_fields r e) as (_ & _ & _ & P & _). Qed.

Lemma parked_markResolved (w : nat) (ws : list Worker) (k : Worker) :
  nth_error ws w = Some k ->
  Permutation (flat_map parked ws)
    (parked k ++
     flat_map parked
       (update w (fun k =>
          {| posted := posted k; terminated := terminated k;
             initResolved := true; initWaiter := initWaiter k |}) ws)).
Proof.
  revert w. induction ws as [|x ws IH]; intros [|w] H; cbn in H;
    try discriminate.
  - injection H as ->. cbn [update flat_map].
    assert (E : parked {| posted := posted k; terminated := terminated k;
                          initResolved := true; initWaiter := initWaiter k |}
                = []) by (unfold parked; cbn; now destruct (initWaiter k)).
    rewrite E. reflexivity.
  - cbn [update flat_map].
    eapply Permutation_trans; [apply Permutation_app_head, (IH w H)|].
    apply Permutation_app_swap_app.
Qed.

(** *** Every step moves the holders *)

Lemma moves_intro e e' (d c Q2 P1 : list nat) :
  Permutation (map request (messageQueue e)) (d ++ Q2) ->
  Permutation (flat_map parked (workers e)) (c ++ P1) ->
  holders e' = (Q2 ++ c ++ P1)%list ->
  (forall i, ~ In i d ->
             nth_error (promises e') i = nth_error (promises e) i) ->
  moves e e'.
Proof.
  intros HQ HP H' Hp. exists d, []. cbn [app].
  split; [|split; [constructor|split; [intros i []|intros i _; apply Hp]]].
  rewrite H'. unfold holders. rewrite app_assoc. now apply Permutation_app.
Qed.

Lemma moves_same e e' :
  holders e' = holders e -> promises e' = promises e -> moves e e'.
Proof.
  intros H P.
  apply (moves_intro e e' [] []
           (map request (messageQueue e)) (flat_map parked (workers e)));
    cbn; auto.
  intros; now rewrite P.
Qed.

Lemma initialize_outside_moves e : moves e (initialize Outside e).
Proof.
  unfold initialize. destruct (negb (window e)); [now apply moves_same|].
  apply moves_same.
  - rewrite holders_send. unfold holders.
    cbn [messageQueue workers setWorker setWorkers].
    rewrite flat_map_app. cbn. now rewrite !app_nil_r.
  - now rewrite promises_send.
Qed.

Lemma analyze_moves o fen d e : moves e (analyze o fen d e).
Proof.
  set (n := List.length (promises e)).
  assert (P : promises (analyze o fen d e)
              = (promises e ++ [(o, Pending)])%list).
  { unfold analyze. destruct (ready e); [now rewrite promises_executor|].
    unfold initialize. cbn [window setPromises].
    destruct (negb (window e)); cbn [resume].
    - now rewrite promises_executor.
    - now rewrite promises_send. }
  assert (H : Permutation (n :: holders e) (holders (analyze o fen d e))).
  { unfold analyze. fold n. destruct (ready e).
    - rewrite holders_executor. cbn [reqId messageQueue workers setPromises].
      apply Permutation_middle.
    - unfold initialize. cbn [window setPromises].
      destruct (negb (window e)); cbn [resume].
      + rewrite holders_executor.
        cbn [reqId messageQueue workers setPromises].
        apply Permutation_middle.
      + rewrite holders_send. unfold holders.
        cbn [messageQueue workers setWorker setWorkers setPromises].
        rewrite flat_map_app. cbn. rewrite app_assoc.
        apply Permutation_cons_append. }
  exists [], [n]. cbn [app]. split; [exact H|].
  split; [repeat constructor; intros []|]. split.
  - intros i [<-|[]]. split; [unfold n; lia|].
    exists o. rewrite P, nth_error_app2 by (unfold n; lia).
    unfold n. now rewrite Nat.sub_diag.
  - intros i Hi _. rewrite P. now apply nth_error_app1.
Qed.

Lemma terminate_moves e : moves e (terminate e).
Proof.
  unfold terminate. destruct (worker e) as [w|]; [|now apply moves_same].
  apply moves_same; [|reflexivity].
  unfold holders. cbn [messageQueue workers setReady setWorker setWorkers].
  now rewrite parked_update.
Qed.

Lemma dispatch_moves h message e :
  workers (dispatch h message e) = workers e /\
  exists d,
    Permutation (request h :: map request (messageQueue e))
      (d ++ map request (messageQueue (dispatch h message e))) /\
    forall i, ~ In i d ->
      nth_error (promises (dispatch h message e)) i
      = nth_error (promises e) i.
Proof.
  unfold dispatch.
  destruct (messageHandler (closure h) message) as [c [result| |]].
  - split; [reflexivity|]. exists [request h]. split; [reflexivity|].
    intros i Hi. cbn [resolve promises setPromises].
    rewrite nth_error_update.
    destruct (Nat.eqb_spec (request h) i) as [E|]; [|reflexivity].
    exfalso. apply Hi. now left.
  - split; [reflexivity|]. exists []. split; [|reflexivity].
    cbn [app messageQueue setQueue]. rewrite map_app. cbn.
    apply Permutation_cons_append.
  - split; [reflexivity|]. exists [request h]. split; reflexivity.
Qed.

Lemma onmessage_moves w message e : moves e (onmessage w message e).
Proof.
  unfold onmessage.
  destruct (nth_error (workers e) w) as [k|] eqn:Ek;
    [|now apply moves_same].
  destruct (terminated k); [now apply moves_same|].
  remember (String.eqb message "uciok") as uciok eqn:U. clear U.
  set (e1 := if uciok then _ else e).
  assert (H1 : messageQueue e1 = messageQueue e /\
               promises e1 = promises e /\
               Permutation (flat_map parked (workers e))
                 ((if uciok then parked k else []) ++
                  flat_map parked (workers e1))).
  { unfold e1. destruct uciok; [|repeat split; reflexivity].
    set (e0 := send _ (send _ _)).
    assert (Q0 : messageQueue e0 = messageQueue e)
      by (unfold e0; now rewrite !queue_send).
    assert (P0 : promises e0 = promises e)
      by (unfold e0; now rewrite !promises_send).
    assert (F0 : flat_map parked (workers e0) = flat_map parked (workers e))
      by (unfold e0; now rewrite !parked_send).
    destruct (nth_parked_send "setoption name Threads value 2"
                (setReady true e) w k Ek) as (k1 & N1 & K1).
    destruct (nth_parked_send "setoption name Hash value 128" _ w k1 N1)
      as (k2 & N2 & K2).
    fold e0 in N2.
    split; [exact Q0|]. split; [exact P0|].
    cbn [markResolved workers setWorkers].
    rewrite <- F0, <- K1, <- K2. now apply parked_markResolved. }
  destruct H1 as (Q1 & P1 & W1).
  set (e2 := match messageQueue e1 with [] => e1 | _ => _ end).
  assert (H2 : workers e2 = workers e1 /\
               exists d,
                 Permutation (map request (messageQueue e))
                   (d ++ map request (messageQueue e2)) /\
                 forall i, ~ In i d ->
                   nth_error (promises e2) i = nth_error (promises e) i).
  { unfold e2. rewrite <- Q1, <- P1.
    destruct (messageQueue e1) as [|h rest] eqn:Eq.
    - split; [reflexivity|]. exists []. rewrite Eq. split; reflexivity.
    - destruct (dispatch_moves h message (setQueue rest e1))
        as (Wd & d & Qd & Pd).
      split; [exact Wd|]. exists d. split; [exact Qd | exact Pd]. }
  destruct H2 as (W2 & d & Qd & Pd).
  apply (moves_intro e _ d (if uciok then parked k else [])
           (map request (messageQueue e2)) (flat_map parked (workers e1)));
    [exact Qd | exact W1 | |].
  - destruct uciok; cbn [andb].
    + destruct (initResolved k) eqn:R; cbn [negb].
      * unfold parked. rewrite R. unfold holders. rewrite W2.
        now destruct (initWaiter k).
      * unfold parked. rewrite R. destruct (initWaiter k) as [|r];
          cbn [resume].
        -- unfold holders. now rewrite W2.
        -- rewrite holders_executor, W2. reflexivity.
    + unfold holders. now rewrite W2.
  - intros i Hi. destruct (uciok && negb _); [|auto].
    destruct (initWaiter k); cbn [resume]; [auto|].
    rewrite promises_executor. auto.
Qed.

Lemma step_moves e ev : moves e (step e ev).
Proof.
  destruct ev; cbn [step].
  - apply initialize_outside_moves.
  - apply analyze_moves.
  - apply terminate_moves.
  - apply onmessage_moves.
Qed.

(** *** What a move preserves *)

Lemma tidy_moves e e' : tidy e -> moves e e' -> tidy e'.
Proof.
  intros [N F] (dropped & fresh & Hperm & Nf & Hf & Hp).
  rewrite Forall_forall in F.
  assert (B : forall i, In i (holders e) ->
                        (i < List.length (promises e))%nat).
  { intros i Hi. destruct (F i Hi) as [o Ho].
    apply nth_error_Some. congruence. }
  assert (N1 : NoDup (fresh ++ holders e)).
  { apply NoDup_app; [exact Nf | exact N|].
    intros i Hi Hi'. destruct (Hf i Hi) as [L _]. apply B in Hi'. lia. }
  assert (N2 : NoDup (dropped ++ holders e'))
    by (eapply Permutation_NoDup; eassumption).
  split; [now apply NoDup_app_remove_l in N2|].
  apply Forall_forall. intros i Hi.
  assert (Hi' : In i (fresh ++ holders e)).
  { apply (Permutation_in _ (Permutation_sym Hperm)), in_or_app. now right. }
  apply in_app_or in Hi'. destruct Hi' as [Hi'|Hi']; [now apply Hf|].
  destruct (F i Hi') as [o Ho]. exists o. rewrite Hp; auto.
  intro D. clear - N2 D Hi.
  induction dropped as [|a l IH]; [destruct D|].
  cbn in N2. inversion N2 as [|? ? Na Nl]; subst.
  destruct D as [->|D]; [|now apply IH].
  apply Na, in_or_app. now right.
Qed.

Lemma frame_moves e e' i :
  moves e e' ->
  (i < List.length (promises e))%nat -> ~ In i (holders e) ->
  (i < List.length (promises e'))%nat /\ ~ In i (holders e') /\
  nth_error (promises e') i = nth_error (promises e) i.
Proof.
  intros (dropped & fresh & Hperm & Nf & Hf & Hp) Hi Hn.
  assert (X : ~ In i (dropped ++ holders e')).
  { intro Y. apply (Permutation_in _ (Permutation_sym Hperm)) in Y.
    apply in_app_or in Y. destruct Y as [Y|Y]; [|auto].
    destruct (Hf i Y). lia. }
  assert (E : nth_error (promises e') i = nth_error (promises e) i).
  { apply Hp; [exact Hi|]. intro Y. apply X, in_or_app. now left. }
  split; [|split; [|exact E]].
  - apply nth_error_Some. rewrite E. now apply nth_error_Some.
  - intro Y. apply X, in_or_app. now right.
Qed.

Lemma run_tidy evs : forall e, tidy e -> tidy (run e evs).
Proof.
  induction evs as [|ev evs IH]; intros e T; [exact T|].
  rewrite run_cons. apply IH. eapply tidy_moves; [exact T|].
  apply step_moves.
Qed.

Lemma run_frame evs :
  forall e i,
    (i < List.length (promises e))%nat -> ~ In i (holders e) ->
    ~ In i (holders (run e evs)) /\
    nth_error (promises (run e evs)) i = nth_error (promises e) i.
Proof.
  induction evs as [|ev evs IH]; intros e i Hi Hn; [now split|].
  rewrite run_cons.
  destruct (frame_moves e (step e ev) i (step_moves e ev) Hi Hn)
    as (Hi' & Hn' & E).
  destruct (IH _ i Hi' Hn') as [A B]. split; [exact A|]. now rewrite B.
Qed.

Lemma create_tidy hasWindow : tidy (create hasWindow).
Proof. split; constructor. Qed.

Lemma future_pendingAt e i : pendingAt e i -> future e i = Some Pending.
Proof. intros [o H]. unfold future. now rewrite H. Qed.

(** X18.  Who may settle a Future.  In every run the requests held by
    the handlers of [messageQueue] and by the [analyze] calls waiting for
    ['uciok'] are pairwise distinct, and the Future of each of them is
    pending: [resolve] is never called a second time, and no result is
    lost on a settled Promise.  Hence a Future, once fulfilled, keeps its
    value whatever happens later. *)
Theorem held_requests_are_distinct_and_pending :
  forall (hasWindow : bool) (evs : list Event),
    let e := run (create hasWindow) evs in
    NoDup (holders e) /\
    (forall i, In i (holders e) -> future e i = Some Pending) /\
    (forall i v more,
        future e i = Some (Fulfilled v) ->
        future (run e more) i = Some (Fulfilled v)).
Proof.
  intros hasWindow evs e.
  destruct (run_tidy evs _ (create_tidy hasWindow)) as [N F]. fold e in N, F.
  rewrite Forall_forall in F.
  split; [exact N|]. split.
  - intros i Hi. now apply future_pendingAt, F.
  - intros i v more H.
    assert (Hn : ~ In i (holders e)).
    { intro Hi. apply F, future_pendingAt in Hi. congruence. }
    assert (Hi : (i < List.length (promises e))%nat).
    { apply nth_error_Some. intro E. unfold future in H.
      rewrite E in H. discriminate. }
    destruct (run_frame more e i Hi Hn) as [_ E].
    unfold future in *. now rewrite E.
Qed.

(** X19.  A request nobody holds never settles.  From any state, if no
    queued handler and no waiting [analyze] call holds request [i] (its
    handler left the queue on a ['bestmove'] line without a move, or its
    Future is already settled), then no later call or message changes
    the Future of [i], and nothing ever holds [i] again. *)
Theorem a_request_nobody_holds_never_settles :
  forall (e : StockfishEngine) (i : nat) (evs : list Event),
    (i < List.length (promises e))%nat -> ~ In i (holders e) ->
    future (run e evs) i = future e i /\ ~ In i (holders (run e evs)).
Proof.
  intros e i evs Hi Hn. destruct (run_frame evs e i Hi Hn) as [A B].
  split; [|exact A]. unfold future. now rewrite B.
Qed.

(** The request of [orphaned] stays pending when the evaluator goes on
    to print a complete answer. *)
Lemma a_request_nobody_holds_never_settles_orphaned :
  let later :=
    run orphaned
      [Message 0 "info depth 12 score cp 31 pv e2e4";
       Message 0 "bestmove e2e4 ponder e7e5"] in
  (future later 0 = future orphaned 0 /\ ~ In 0%nat (holders later)) /\
  future orphaned 0 = Some Pending.
Proof.
  split; [|reflexivity].
  apply (a_request_nobody_holds_never_settles orphaned 0).
  - vm_compute. lia.
  - vm_compute. tauto.
Defined.

End QueueFacts.
